(** * TF-Agents environment wrappers and discounted returns

    A shallow embedding of [tf_agents/environments/wrappers.py], of the
    helper [_compute_returns_fn] of [tf_agents/agents/ppo/ppo_agent_test.py]
    and of the mock environment [TFEnvironmentMock] of
    [tf_agents/environments/tf_environment_test.py].

    Conventions.
    - A Python object with mutable fields is a record; a method is a function
      from the object's state to a result and the next state.
    - A Python exception is the [Raise] case of [result].
    - A numpy array is its shape together with its elements in row-major
      (C) order.
    - The bounds of a continuous action spec that is discretized are
      rationals (rounding is not modelled); the elements that are clipped
      are rationals, infinities or [nan]; integers of a numpy integer dtype
      are [Z] with the dtype's wrap-around written out. *)

From Stdlib Require Import String Ascii Bool Arith ZArith QArith Qabs Qfield Lia Lqa List.
From Stdlib Require Import Permutation.
Import ListNotations.

Close Scope Q_scope.
Set Implicit Arguments.

(** ** Exceptions *)

Inductive exn : Type :=
| ValueError
| IndexError
| UnboundLocalError
| AttributeError
| TypeError
| OverflowError
| OutsideModel.

Inductive result (A : Type) : Type :=
| Ok (a : A)
| Raise (e : exn).

Arguments Ok {A} a.
Arguments Raise {A} e.

Definition bind {A B : Type} (m : result A) (k : A -> result B) : result B :=
  match m with
  | Ok a => k a
  | Raise e => Raise e
  end.

Notation "x <- m ;; k" := (bind m (fun x => k))
  (at level 61, m at next level, right associativity).

(** ** Python sequences: indexing and item assignment at a non-negative index *)

Definition getitem {A : Type} (l : list A) (i : nat) : result A :=
  match nth_error l i with
  | Some x => Ok x
  | None => Raise IndexError
  end.

Fixpoint setitem {A : Type} (l : list A) (i : nat) (v : A) : result (list A) :=
  match l, i with
  | [], _ => Raise IndexError
  | _ :: tl, O => Ok (v :: tl)
  | x :: tl, S j => tl' <- setitem tl j v ;; Ok (x :: tl')
  end.

(** ** [ppo_agent_test._compute_returns_fn] *)

Module ppo_agent_test.
Section Returns.

(** [num] is the type of the numbers the function computes with: the
    elements of [rewards] and [discounts], [next_state_return] and the
    results of [+] and [*], which are [add] and [mul]. [returns] is
    [np.zeros_like(rewards)], an array of the dtype of [rewards]: [zero] is
    the zero of that dtype, and [store x] is the element that an array of
    that dtype holds after [x] has been assigned to one of its items, that
    is [x] converted to the dtype; it raises where the assignment raises
    (a Python integer beyond the range of an integer dtype, for one). *)
Variable num : Type.
Variable zero : num.
Variables add mul : num -> num -> num.
Variable store : num -> result num.

Definition zeros_like (a : list num) : list num := map (fun _ => zero) a.

(** The body of [for t in range(len(returns) - 1, -1, -1)], with [k] the
    number of indices still to visit: the next index is [k - 1].
    [returns[t] = ...] converts the value on its right to the dtype of
    [returns], and [next_state_return = returns[t]] reads the converted
    value back. *)
Fixpoint returns_loop (k : nat) (rewards discounts returns : list num)
    (next_state_return : num) : result (list num) :=
  match k with
  | O => Ok returns
  | S t =>
      r <- getitem rewards t ;;
      d <- getitem discounts t ;;
      x <- store (add r (mul d next_state_return)) ;;
      returns' <- setitem returns t x ;;
      next_state_return' <- getitem returns' t ;;
      returns_loop t rewards discounts returns' next_state_return'
  end.

Definition _compute_returns_fn (rewards discounts : list num)
    (next_state_return : num) : result (list num) :=
  let returns := zeros_like rewards in
  returns_loop (length returns) rewards discounts returns next_state_return.

End Returns.

(** Three cases of the dtype of [rewards]. An array whose dtype holds every
    number that is computed stores it as it is ([store_exact]). An [int64]
    array given a float stores its integer part, the fraction cut off
    towards zero ([store_int64]); what it stores for a float beyond the
    range of [int64] is not covered. An [int64] array given a Python
    integer stores it when [int64] holds it, and the assignment raises
    [OverflowError] otherwise ([store_int64_int]). *)
Definition store_exact {num : Type} (x : num) : result num := Ok x.

Definition store_int64 (x : Q) : result Q :=
  let z := Z.quot (Qnum x) (Zpos (Qden x)) in
  if ((-9223372036854775808 <=? z) && (z <=? 9223372036854775807))%Z%bool
  then Ok (inject_Z z)
  else Raise OutsideModel.

Definition store_int64_int (x : Z) : result Z :=
  if ((-9223372036854775808 <=? x) && (x <=? 9223372036854775807))%Z%bool
  then Ok x
  else Raise OverflowError.

End ppo_agent_test.

(** ** [time_step]: the [TimeStep] named tuple and its step types

    The fields and their order are those of the constructor calls in
    [wrappers.py]: [ts.TimeStep(step_type, reward, discount, observation)]. *)

Inductive StepType : Type := FIRST | MID | LAST.

Record TimeStep (num obs : Type) : Type := mkTimeStep {
  step_type : StepType;
  reward : num;
  discount : num;
  observation : obs
}.

Arguments mkTimeStep {num obs} _ _ _ _.

(** Modelled from the spec: [time_step.py] is not among the sources. The
    predicates [is_first] and [is_last] of a [TimeStep] compare its
    [step_type] with [FIRST] and [LAST], as the wrappers use them ("stopping
    early as soon as an inner TimeStep is LAST"). *)
Definition is_first {num obs : Type} (time_step : TimeStep num obs) : bool :=
  match step_type time_step with FIRST => true | _ => false end.

Definition is_last {num obs : Type} (time_step : TimeStep num obs) : bool :=
  match step_type time_step with LAST => true | _ => false end.

(** [time_step._replace(step_type=st)] *)
Definition _replace_step_type {num obs : Type} (time_step : TimeStep num obs)
    (st : StepType) : TimeStep num obs :=
  mkTimeStep st (reward time_step) (discount time_step) (observation time_step).

(** ** [py_environment.Base]: the interface of an environment

    An environment is an object with hidden state [St]; each method maps the
    state before the call to its return value and the state after it. The
    spec accessors only read the state. *)

Module py_environment.

Record Base (St action num obs aspec ospec img : Type) : Type := {
  reset : St -> TimeStep num obs * St;
  step : action -> St -> TimeStep num obs * St;
  observation_spec : St -> ospec;
  action_spec : St -> aspec;
  render : string -> St -> img * St
}.

End py_environment.

(** ** [class PyEnvironmentBaseWrapper] *)

Module PyEnvironmentBaseWrapper.
Section Wrapper.

Context {St action num obs aspec ospec img : Type}.
Variable env : py_environment.Base St action num obs aspec ospec img.

Record state : Type := { _env : St }.

Definition __init__ (e : St) : state := {| _env := e |}.

Definition reset (self : state) : TimeStep num obs * state :=
  let (time_step, e) := py_environment.reset env (_env self) in
  (time_step, {| _env := e |}).

Definition step (a : action) (self : state) : TimeStep num obs * state :=
  let (time_step, e) := py_environment.step env a (_env self) in
  (time_step, {| _env := e |}).

Definition observation_spec (self : state) : ospec :=
  py_environment.observation_spec env (_env self).

Definition action_spec (self : state) : aspec :=
  py_environment.action_spec env (_env self).

(** [def render(self, mode='rgb_array')]: [None] is a call without [mode]. *)
Definition render (mode : option string) (self : state) : img * state :=
  let m := match mode with Some m => m | None => "rgb_array"%string end in
  let (image, e) := py_environment.render env m (_env self) in
  (image, {| _env := e |}).

Definition wrapped_env (self : state) : St := _env self.

(** The wrapper is itself an environment. *)
Definition as_env : py_environment.Base state action num obs aspec ospec img :=
  {| py_environment.reset := reset;
     py_environment.step := step;
     py_environment.observation_spec := observation_spec;
     py_environment.action_spec := action_spec;
     py_environment.render := fun m => render (Some m) |}.

End Wrapper.

Arguments state : clear implicits.

End PyEnvironmentBaseWrapper.

(** ** Calls on an environment and what a client observes of them *)

Section Traces.

Context {St action num obs aspec ospec img : Type}.

Inductive call : Type :=
| CallReset
| CallStep (a : action)
| CallObservationSpec
| CallActionSpec
| CallRender (mode : string).

Inductive response : Type :=
| RetTimeStep (time_step : TimeStep num obs)
| RetObservationSpec (s : ospec)
| RetActionSpec (s : aspec)
| RetImage (i : img).

Definition invoke (env : py_environment.Base St action num obs aspec ospec img)
    (c : call) (s : St) : response * St :=
  match c with
  | CallReset =>
      let (time_step, s') := py_environment.reset env s in (RetTimeStep time_step, s')
  | CallStep a =>
      let (time_step, s') := py_environment.step env a s in (RetTimeStep time_step, s')
  | CallObservationSpec => (RetObservationSpec (py_environment.observation_spec env s), s)
  | CallActionSpec => (RetActionSpec (py_environment.action_spec env s), s)
  | CallRender m =>
      let (image, s') := py_environment.render env m s in (RetImage image, s')
  end.

Fixpoint run (env : py_environment.Base St action num obs aspec ospec img)
    (calls : list call) (s : St) : list response :=
  match calls with
  | [] => []
  | c :: rest => let (r, s') := invoke env c s in r :: run env rest s'
  end.

End Traces.

Arguments call : clear implicits.
Arguments response : clear implicits.

(** ** [class TimeLimit] *)

Module TimeLimit.
Section Wrapper.

Context {St action num obs aspec ospec img : Type}.
Variable env : py_environment.Base St action num obs aspec ospec img.

(** [_step] is [None] or the number of steps taken in the running episode. *)
Record state : Type := {
  _env : St;
  _duration : Z;
  _step : option Z
}.

Definition __init__ (e : St) (duration : Z) : state :=
  {| _env := e; _duration := duration; _step := None |}.

Definition reset (self : state) : TimeStep num obs * state :=
  let (time_step, e) := py_environment.reset env (_env self) in
  (time_step, {| _env := e; _duration := _duration self; _step := Some 0%Z |}).

Definition step (a : action) (self : state) : TimeStep num obs * state :=
  match _step self with
  | None => reset self
  | Some n =>
      let (time_step, e) := py_environment.step env a (_env self) in
      let n' := (n + 1)%Z in
      let time_step :=
        if (n' >=? _duration self)%Z then _replace_step_type time_step LAST
        else time_step in
      let n'' := if is_last time_step then None else Some n' in
      (time_step, {| _env := e; _duration := _duration self; _step := n'' |})
  end.

(** Consecutive calls of [step], one per action of the list. *)
Fixpoint steps (actions : list action) (self : state)
    : list (TimeStep num obs) * state :=
  match actions with
  | [] => ([], self)
  | a :: rest =>
      let (time_step, self') := step a self in
      let (more, self'') := steps rest self' in
      (time_step :: more, self'')
  end.

(** No episode is running: the wrapper was just constructed, or the last
    call was a [step] of a running episode that returned a [LAST] time
    step. *)
Inductive no_episode : state -> Prop :=
| no_episode_new (e : St) (duration : Z) : no_episode (__init__ e duration)
| no_episode_ended (prev : state) (a : action) :
    _step prev <> None ->
    is_last (fst (step a prev)) = true ->
    no_episode (snd (step a prev)).

End Wrapper.

Arguments state : clear implicits.

End TimeLimit.

(** ** [class ActionRepeat] *)

Module ActionRepeat.
Section Wrapper.

Context {St action num obs aspec ospec img : Type}.
Variable env : py_environment.Base St action num obs aspec ospec img.

(** Rewards are added with [add], starting from the literal [0] of
    [total_reward = 0]. *)
Variable zero : num.
Variable add : num -> num -> num.

Record state : Type := {
  _env : St;
  _times : Z
}.

Definition __init__ (e : St) (times : Z) : result state :=
  if (times <=? 1)%Z then Raise ValueError
  else Ok {| _env := e; _times := times |}.

(** [for _ in range(self._times)] with [n] iterations left; [time_step] is
    unbound ([None]) until the body has run once. *)
Fixpoint step_loop (n : nat) (a : action) (total_reward : num)
    (time_step : option (TimeStep num obs)) (e : St)
    : num * option (TimeStep num obs) * St :=
  match n with
  | O => (total_reward, time_step, e)
  | S n' =>
      let (time_step', e') := py_environment.step env a e in
      let total_reward' := add total_reward (reward time_step') in
      if is_last time_step' then (total_reward', Some time_step', e')
      else step_loop n' a total_reward' (Some time_step') e'
  end.

Definition step (a : action) (self : state) : result (TimeStep num obs * state) :=
  let '(total_reward, time_step, e) :=
    step_loop (Z.to_nat (_times self)) a zero None (_env self) in
  match time_step with
  | None => Raise UnboundLocalError
  | Some time_step =>
      Ok (mkTimeStep (step_type time_step) total_reward (discount time_step)
            (observation time_step),
          {| _env := e; _times := _times self |})
  end.

(** [k] consecutive steps of the wrapped environment with one action. *)
Fixpoint inner_steps (k : nat) (a : action) (e : St)
    : list (TimeStep num obs) * St :=
  match k with
  | O => ([], e)
  | S k' =>
      let (time_step, e') := py_environment.step env a e in
      let (more, e'') := inner_steps k' a e' in
      (time_step :: more, e'')
  end.

End Wrapper.

Arguments state : clear implicits.

End ActionRepeat.

(** ** numpy arrays

    An array is its shape and its elements in row-major order; a 0-d array
    (a scalar) has the empty shape and one element. *)

Record ndarray (A : Type) : Type := mkArray {
  arr_shape : list nat;
  arr_data : list A
}.

Arguments mkArray {A} _ _.

(** [np.prod(shape)] *)
Definition size (shape : list nat) : nat := fold_right Nat.mul 1 shape.

Definition scalar {A : Type} (a : A) : ndarray A := mkArray [] [a].

Definition shape_eqb (s1 s2 : list nat) : bool :=
  if list_eq_dec Nat.eq_dec s1 s2 then true else false.

(** An array is well formed when it holds as many elements as its shape says. *)
Definition well_formed {A : Type} (x : ndarray A) : Prop :=
  length (arr_data x) = size (arr_shape x).

(** [np.broadcast_to(x, shape)], as the flat elements of the result. A 0-d
    array is repeated and an array of the requested shape is kept. numpy also
    repeats an array along axes of length one; that case is not covered
    ([OutsideModel]). *)
Definition broadcast_to {A : Type} (x : ndarray A) (shape : list nat)
    : result (list A) :=
  if shape_eqb (arr_shape x) shape then Ok (arr_data x)
  else
    match arr_shape x, arr_data x with
    | [], [a] => Ok (repeat a (size shape))
    | _, _ => Raise OutsideModel
    end.

Fixpoint map2 {A B C : Type} (f : A -> B -> C) (l : list A) (l' : list B)
    : list C :=
  match l, l' with
  | a :: tl, b :: tl' => f a b :: map2 f tl tl'
  | _, _ => []
  end.

(** An elementwise binary operation of numpy, with a 0-d operand broadcast
    against the other one (same restriction as [broadcast_to]). *)
Definition elementwise {A B C : Type} (f : A -> B -> C)
    (x : ndarray A) (y : ndarray B) : result (ndarray C) :=
  if shape_eqb (arr_shape x) (arr_shape y) then
    Ok (mkArray (arr_shape x) (map2 f (arr_data x) (arr_data y)))
  else
    match arr_shape x, arr_data x, arr_shape y, arr_data y with
    | [], [a], _, _ => Ok (mkArray (arr_shape y) (map (f a) (arr_data y)))
    | _, _, [], [b] => Ok (mkArray (arr_shape x) (map (fun a => f a b) (arr_data x)))
    | _, _, _, _ => Raise OutsideModel
    end.

(** Indexing a 1-d numpy array with an integer: a negative index counts from
    the end. *)
Definition np_getitem {A : Type} (l : list A) (i : Z) : result A :=
  if (0 <=? i)%Z then getitem l (Z.to_nat i)
  else if (- Z.of_nat (length l) <=? i)%Z then
    getitem l (Z.to_nat (Z.of_nat (length l) + i))
  else Raise IndexError.

(** *** dtypes *)

Inductive dtype : Type :=
| int8 | int16 | int32 | int64 | uint8 | float32 | float64.

Definition dtype_eq_dec (d1 d2 : dtype) : {d1 = d2} + {d1 <> d2}.
Proof. decide equality. Defined.

(** The least and greatest value of an integer dtype. *)
Definition int_range (dt : dtype) : option (Z * Z) :=
  match dt with
  | int8 => Some (-128, 127)
  | int16 => Some (-32768, 32767)
  | int32 => Some (-2147483648, 2147483647)
  | int64 => Some (-9223372036854775808, 9223372036854775807)
  | uint8 => Some (0, 255)
  | float32 | float64 => None
  end%Z.

(** The value an integer array of dtype [dt] holds for the exact result [z]
    of an arithmetic operation: numpy wraps around silently. *)
Definition wrap (dt : dtype) (z : Z) : Z :=
  match int_range dt with
  | Some (lo, hi) => ((z - lo) mod (hi - lo + 1) + lo)%Z
  | None => z
  end.

Definition in_range (dt : dtype) (z : Z) : Prop :=
  match int_range dt with
  | Some (lo, hi) => (lo <= z <= hi)%Z
  | None => True
  end.

Definition in_rangeb (dt : dtype) (z : Z) : bool :=
  match int_range dt with
  | Some (lo, hi) => ((lo <=? z) && (z <=? hi))%Z
  | None => true
  end.

(** ** [array_spec]: [ArraySpec] and [BoundedArraySpec]

    [array_spec.py] is not among the sources; the records hold the
    constructor arguments that [wrappers.py] passes and the attributes it
    reads. A bound may be [None], as [ActionClipWrapper] tests for. *)

Module array_spec.

Record ArraySpec : Type := mkArraySpec {
  shape : list nat;
  dtype_of : dtype;
  name : option string
}.

Record BoundedArraySpec (A : Type) : Type := mkBoundedArraySpec {
  array_spec_of : ArraySpec;
  minimum : option (ndarray A);
  maximum : option (ndarray A)
}.

(** A spec is an [ArraySpec] or, with bounds, a [BoundedArraySpec]. *)
Inductive spec (A : Type) : Type :=
| Array (s : ArraySpec)
| Bounded (s : BoundedArraySpec A).

Arguments Array {A} s.

Definition spec_base {A : Type} (s : spec A) : ArraySpec :=
  match s with
  | Array s => s
  | Bounded s => array_spec_of s
  end.

(** [spec.minimum] and [spec.maximum]: an [ArraySpec] has no such attribute. *)
Definition spec_minimum {A : Type} (s : spec A) : result (option (ndarray A)) :=
  match s with
  | Array _ => Raise AttributeError
  | Bounded s => Ok (minimum s)
  end.

Definition spec_maximum {A : Type} (s : spec A) : result (option (ndarray A)) :=
  match s with
  | Array _ => Raise AttributeError
  | Bounded s => Ok (maximum s)
  end.

(** Modelled from the spec: [is_bounded] and [is_discrete] are methods of
    [array_spec.py], which is not among the sources. A spec is bounded when
    it is a [BoundedArraySpec] ("bounded action specs") and discrete when its
    dtype is an integer type ("discrete action specs"). *)
Definition is_bounded {A : Type} (s : spec A) : bool :=
  match s with
  | Array _ => false
  | Bounded _ => true
  end.

Definition is_discrete {A : Type} (s : spec A) : bool :=
  match int_range (dtype_of (spec_base s)) with
  | Some _ => true
  | None => false
  end.

(** Modelled from the spec: [array_spec.py] is not among the sources. The
    constructor [BoundedArraySpec(shape, dtype, minimum, maximum, name)] as
    [wrappers.py] calls it, with both bounds given: the constructor of the
    library broadcasts each bound to [shape], raises [ValueError] when
    [minimum > maximum] holds in some position
    ([np.any(minimum > maximum)]), and keeps the bounds as arrays of
    [dtype]. [gtb] is [>] on the elements, and [holds] tells whether an
    array of [dtype] holds an element as it is; what the constructor does
    with a bound that the dtype does not hold is not covered
    ([OutsideModel]). *)
Definition new_BoundedArraySpec {A : Type} (gtb : A -> A -> bool)
    (holds : A -> bool) (shape : list nat) (dt : dtype)
    (minimum maximum : ndarray A) (name : option string)
    : result (BoundedArraySpec A) :=
  _ <- broadcast_to minimum shape ;;
  _ <- broadcast_to maximum shape ;;
  if negb (forallb holds (arr_data minimum) && forallb holds (arr_data maximum))
  then Raise OutsideModel
  else
    above <- elementwise gtb minimum maximum ;;
    if existsb (fun b : bool => b) (arr_data above) then Raise ValueError
    else Ok (mkBoundedArraySpec (mkArraySpec shape dt name)
               (Some minimum) (Some maximum)).

End array_spec.

(** ** [nest]: nested structures

    [tf.contrib.framework.nest] sees lists, tuples and dicts as structure
    and everything else as a leaf; it visits the values of a dict in the
    order of the sorted keys. *)

#[warnings="-register-all"]
Inductive nest (A : Type) : Type :=
| leaf (a : A)
| nseq (items : list (nest A))
| ndict (items : list (string * nest A)).

Arguments leaf {A} a.
Arguments nseq {A} items.
Arguments ndict {A} items.

Definition is_sequence {A : Type} (n : nest A) : bool :=
  match n with
  | leaf _ => false
  | _ => true
  end.

Fixpoint insert_by_key {V : Type} (kv : string * V) (l : list (string * V))
    : list (string * V) :=
  match l with
  | [] => [kv]
  | kv' :: tl =>
      if String.leb (fst kv) (fst kv') then kv :: l
      else kv' :: insert_by_key kv tl
  end.

(** [sorted(d.items())] for a dict with items [l] in insertion order. *)
Definition sort_by_key {V : Type} (l : list (string * V)) : list (string * V) :=
  fold_right insert_by_key [] l.

(** [nest.flatten] *)
Fixpoint flatten {A : Type} (n : nest A) : list A :=
  match n with
  | leaf a => [a]
  | nseq items => flat_map flatten items
  | ndict items =>
      concat (map snd
        (sort_by_key (map (fun kv => match kv with (k, v) => (k, flatten v) end)
                        items)))
  end.

(** [nest.map_structure] with one structure *)
Fixpoint map_structure {A B : Type} (f : A -> B) (n : nest A) : nest B :=
  match n with
  | leaf a => leaf (f a)
  | nseq items => nseq (map (map_structure f) items)
  | ndict items =>
      ndict (map (fun kv => match kv with (k, v) => (k, map_structure f v) end)
               items)
  end.

(** [nest.pack_sequence_as(structure, [x])], the one call [wrappers.py]
    makes: a structure with a single leaf gets [x] there, another structure
    does not match the flat sequence. *)
Definition pack_sequence_as_single {A B : Type} (structure : nest A) (x : B)
    : result (nest B) :=
  if Nat.eqb (length (flatten structure)) 1
  then Ok (map_structure (fun _ => x) structure)
  else Raise ValueError.

Fixpoint lookup {V : Type} (k : string) (l : list (string * V)) : option V :=
  match l with
  | [] => None
  | (k', v) :: tl => if String.eqb k k' then Some v else lookup k tl
  end.

(** Loops over the items of a sequence and of a dict, with the function [g]
    that treats one item: items of two sequences are paired in order (the
    lengths must agree), an item of a dict is paired with the value that
    [items'] holds under its key. *)
Definition zip_results {A B C : Type} (g : A -> B -> result C)
    : list A -> list B -> result (list C) :=
  fix go (l : list A) (l' : list B) : result (list C) :=
    match l, l' with
    | [], [] => Ok []
    | x :: tl, y :: tl' =>
        c <- g x y ;;
        cs <- go tl tl' ;;
        Ok (c :: cs)
    | _, _ => Raise ValueError
    end.

Definition dict_results {A B C : Type} (g : A -> B -> result C)
    (items' : list (string * B))
    : list (string * A) -> result (list (string * C)) :=
  fix go (l : list (string * A)) : result (list (string * C)) :=
    match l with
    | [] => Ok []
    | (k, x) :: tl =>
        match lookup k items' with
        | None => Raise ValueError
        | Some y =>
            c <- g x y ;;
            cs <- go tl ;;
            Ok ((k, c) :: cs)
        end
    end.

(** [nest.map_structure_up_to(shallow, f, shallow, deep)], for an [f] that
    may raise: [f] is applied to each leaf of [shallow] and the part of
    [deep] found at its place, which must be an array. Sequences must have
    the same length and dicts the same keys. *)
Fixpoint map_structure_up_to {A B C : Type} (f : A -> B -> result C)
    (shallow : nest A) (deep : nest B) {struct shallow} : result (nest C) :=
  match shallow with
  | leaf a =>
      match deep with
      | leaf b => c <- f a b ;; Ok (leaf c)
      | _ => Raise OutsideModel
      end
  | nseq items =>
      match deep with
      | nseq items' =>
          cs <- zip_results (map_structure_up_to f) items items' ;;
          Ok (nseq cs)
      | _ => Raise TypeError
      end
  | ndict items =>
      match deep with
      | ndict items' =>
          if negb (Nat.eqb (length items) (length items')) then Raise ValueError
          else
            cs <- dict_results (map_structure_up_to f) items' items ;;
            Ok (ndict cs)
      | _ => Raise TypeError
      end
  end.

(** ** [class ActionDiscretizeWrapper] *)

Module ActionDiscretizeWrapper.

(** The largest number of [float64], [(2 - 2^-52) * 2^1023]. *)
Definition float64_max : Q := inject_Z (Z.shiftl 9007199254740991 971).

(** [np.linspace(start, stop, num)] of numpy (not part of the repository):
    [num] evenly spaced samples over the interval from [start] to [stop],
    the last of them [stop] itself. The samples are rationals: rounding is
    not modelled. numpy computes [stop - start] in [float64]; where that
    difference is beyond the largest [float64] it computes with an infinity
    and returns infinities and nan, which is not covered ([OutsideModel]). *)
Definition linspace (start stop : Q) (num : Z) : result (list Q) :=
  if (num <? 0)%Z then Raise ValueError
  else if negb (Qle_bool (Qabs (stop - start)) float64_max) then Raise OutsideModel
  else if (num =? 0)%Z then Ok []
  else if (num =? 1)%Z then Ok [start]
  else
    let step := ((stop - start) / inject_Z (num - 1))%Q in
    Ok (map (fun i => (inject_Z (Z.of_nat i) * step + start)%Q)
          (seq 0 (Z.to_nat num - 1)) ++ [stop]).

(** [np.nditer(a)], as the elements of [a] in order: numpy refuses to
    iterate over an array without elements. *)
Definition np_nditer {A : Type} (flat : list A) : result (list A) :=
  match flat with
  | [] => Raise ValueError
  | _ => Ok flat
  end.

(** The list comprehension of [_discretize_spec]: one [linspace] per element
    of the three arrays, which [zip] visits together. *)
Fixpoint action_maps (minimum maximum : list Q) (limits : list Z)
    : result (list (list Q)) :=
  match minimum, maximum, limits with
  | spec_min :: minimum', spec_max :: maximum', n_actions :: limits' =>
      l <- linspace spec_min spec_max n_actions ;;
      ls <- action_maps minimum' maximum' limits' ;;
      Ok (l :: ls)
  | _, _, _ => Ok []
  end.

(** The list comprehension of [_map_actions], from index [i] on. *)
Fixpoint mapped_from (i : nat) (action_map : list (list Q)) (flat : list Z)
    : result (list Q) :=
  match flat with
  | [] => Ok []
  | a :: rest =>
      row <- getitem action_map i ;;
      x <- np_getitem row a ;;
      xs <- mapped_from (S i) action_map rest ;;
      Ok (x :: xs)
  end.

Section Wrapper.

Context {St num obs ospec img : Type}.
Variable env :
  py_environment.Base St (nest (ndarray Q)) num obs
    (nest (array_spec.spec Q)) ospec img.

Record state : Type := {
  _env : St;
  _num_actions : ndarray Z;
  _discrete_spec : array_spec.BoundedArraySpec Z;
  _action_map : list (list Q)
}.

Definition _discretize_spec (spec : array_spec.spec Q) (limits : ndarray Z)
    : result (array_spec.BoundedArraySpec Z * list (list Q)) :=
  if negb (forallb (fun n => (2 <=? n)%Z) (arr_data limits)) then Raise ValueError
  else
    let base := array_spec.spec_base spec in
    discrete_spec <-
      array_spec.new_BoundedArraySpec Z.gtb (in_rangeb int32)
        (array_spec.shape base) int32 (scalar 0%Z)
        (mkArray (arr_shape limits) (map (fun n => (n - 1)%Z) (arr_data limits)))
        (array_spec.name base) ;;
    spec_minimum <- array_spec.spec_minimum spec ;;
    spec_maximum <- array_spec.spec_maximum spec ;;
    match spec_minimum, spec_maximum with
    | Some spec_minimum, Some spec_maximum =>
        minimum <- broadcast_to spec_minimum (array_spec.shape base) ;;
        maximum <- broadcast_to spec_maximum (array_spec.shape base) ;;
        spec_mins <- np_nditer minimum ;;
        spec_maxs <- np_nditer maximum ;;
        n_actions <- np_nditer (arr_data limits) ;;
        action_map <- action_maps spec_mins spec_maxs n_actions ;;
        Ok (discrete_spec, action_map)
    | _, _ => Raise TypeError
    end.

Definition __init__ (e : St) (num_actions : ndarray Z) : result state :=
  match flatten (py_environment.action_spec env e) with
  | [action_spec] =>
      let shape := array_spec.shape (array_spec.spec_base action_spec) in
      broadcast <- broadcast_to num_actions shape ;;
      let num_actions' := mkArray shape broadcast in
      if negb (shape_eqb shape (arr_shape num_actions')) then Raise ValueError
      else
        r <- _discretize_spec action_spec num_actions' ;;
        Ok {| _env := e;
              _num_actions := num_actions';
              _discrete_spec := fst r;
              _action_map := snd r |}
  | _ => Raise ValueError
  end.

Definition action_spec (self : state) : array_spec.BoundedArraySpec Z :=
  _discrete_spec self.

Definition _map_actions (self : state) (action : ndarray Z)
    (action_map : list (list Q)) : result (ndarray Q) :=
  if negb (shape_eqb (arr_shape action)
             (array_spec.shape (array_spec.array_spec_of (_discrete_spec self))))
  then Raise ValueError
  else
    mapped_action <- mapped_from 0 action_map (arr_data action) ;;
    if Nat.eqb (length mapped_action) (size (arr_shape action))
    then Ok (mkArray (arr_shape action) mapped_action)
    else Raise ValueError.

Definition step (action : ndarray Z) (self : state)
    : result (TimeStep num obs * state) :=
  continuous_actions <- _map_actions self action (_action_map self) ;;
  let env_action_spec := py_environment.action_spec env (_env self) in
  packed <-
    (if is_sequence env_action_spec
     then pack_sequence_as_single env_action_spec continuous_actions
     else Ok (leaf continuous_actions)) ;;
  let (time_step, e) := py_environment.step env packed (_env self) in
  Ok (time_step,
      {| _env := e;
         _num_actions := _num_actions self;
         _discrete_spec := _discrete_spec self;
         _action_map := _action_map self |}).

End Wrapper.

Arguments state : clear implicits.

End ActionDiscretizeWrapper.

(** ** Floating-point values

    An element of a float array as far as comparisons tell elements apart:
    a number, one of the two infinities, or [nan]. A comparison with [nan]
    is false. *)
Inductive np_float : Type :=
| Number (q : Q)
| PosInf
| NegInf
| NaN.

Definition np_isnan (x : np_float) : bool :=
  match x with
  | NaN => true
  | _ => false
  end.

(** [a <= b] on floats. *)
Definition float_leb (a b : np_float) : bool :=
  match a, b with
  | NaN, _ | _, NaN => false
  | NegInf, _ => true
  | _, PosInf => true
  | Number x, Number y => if Qlt_le_dec y x then false else true
  | _, _ => false
  end.

Definition float_le (a b : np_float) : Prop := float_leb a b = true.

(** ** [class ActionClipWrapper] *)

Module ActionClipWrapper.

(** [np.maximum] and [np.minimum] on two floats: the first argument when it
    is [nan] or not below (not above) the second, else the second, so that
    a [nan] on either side gives [nan]. [np.clip] is
    [np.minimum(np.maximum(a, a_min), a_max)] and takes [None] for at most
    one of its bounds. *)
Definition np_maximum (a b : np_float) : np_float :=
  if float_leb b a || np_isnan a then a else b.
Definition np_minimum (a b : np_float) : np_float :=
  if float_leb a b || np_isnan a then a else b.

Definition np_clip (a : ndarray np_float) (a_min a_max : option (ndarray np_float))
    : result (ndarray np_float) :=
  match a_min, a_max with
  | None, None => Raise ValueError
  | Some lo, None => elementwise np_maximum a lo
  | None, Some hi => elementwise np_minimum a hi
  | Some lo, Some hi =>
      x <- elementwise np_maximum a lo ;;
      elementwise np_minimum x hi
  end.

Definition _clip_to_spec (act_spec : array_spec.spec np_float)
    (act : ndarray np_float) : result (ndarray np_float) :=
  lo <- array_spec.spec_minimum act_spec ;;
  hi <- array_spec.spec_maximum act_spec ;;
  match lo, hi with
  | None, None => Ok act
  | _, _ => np_clip act lo hi
  end.

Section Wrapper.

Context {St num obs ospec img : Type}.
Variable env :
  py_environment.Base St (nest (ndarray np_float)) num obs
    (nest (array_spec.spec np_float)) ospec img.

Record state : Type := { _env : St }.

Definition __init__ (e : St) : state := {| _env := e |}.

Definition step (action : nest (ndarray np_float)) (self : state)
    : result (TimeStep num obs * state) :=
  let env_action_spec := py_environment.action_spec env (_env self) in
  clipped_actions <- map_structure_up_to _clip_to_spec env_action_spec action ;;
  let (time_step, e) := py_environment.step env clipped_actions (_env self) in
  Ok (time_step, {| _env := e |}).

End Wrapper.

Arguments state : clear implicits.

End ActionClipWrapper.

(** ** [class ActionOffsetWrapper] *)

Module ActionOffsetWrapper.

(** Subtraction and addition of integer arrays of dtype [dt]. *)
Definition np_subtract (dt : dtype) (x y : ndarray Z) : result (ndarray Z) :=
  elementwise (fun a b => wrap dt (a - b)) x y.

Definition np_add (dt : dtype) (x y : ndarray Z) : result (ndarray Z) :=
  elementwise (fun a b => wrap dt (a + b)) x y.

(** [np.zeros(shape=shape, dtype=dtype)] *)
Definition zeros (shape : list nat) : ndarray Z :=
  mkArray shape (repeat 0%Z (size shape)).

Section Wrapper.

Context {St num obs ospec img : Type}.
Variable env :
  py_environment.Base St (ndarray Z) num obs (nest (array_spec.spec Z)) ospec img.

Record state : Type := { _env : St }.

Definition __init__ (e : St) : result state :=
  match py_environment.action_spec env e with
  | leaf spec =>
      if negb (array_spec.is_bounded spec) then Raise ValueError
      else if negb (array_spec.is_discrete spec) then Raise ValueError
      else Ok {| _env := e |}
  | _ => Raise ValueError
  end.

(** A list, tuple or dict of specs has no attribute [shape]. The
    subtraction wraps around in the dtype; the constructor of the new spec
    then refuses a maximum below the minimum 0. *)
Definition action_spec (self : state) : result (array_spec.BoundedArraySpec Z) :=
  match py_environment.action_spec env (_env self) with
  | leaf spec =>
      let base := array_spec.spec_base spec in
      let minimum := zeros (array_spec.shape base) in
      spec_maximum <- array_spec.spec_maximum spec ;;
      spec_minimum <- array_spec.spec_minimum spec ;;
      match spec_maximum, spec_minimum with
      | Some spec_maximum, Some spec_minimum =>
          maximum <- np_subtract (array_spec.dtype_of base) spec_maximum spec_minimum ;;
          array_spec.new_BoundedArraySpec Z.gtb
            (in_rangeb (array_spec.dtype_of base)) (array_spec.shape base)
            (array_spec.dtype_of base) minimum maximum None
      | _, _ => Raise TypeError
      end
  | _ => Raise AttributeError
  end.

(** The action is an array of the spec's dtype. *)
Definition step (action : ndarray Z) (self : state)
    : result (TimeStep num obs * state) :=
  match py_environment.action_spec env (_env self) with
  | leaf spec =>
      spec_minimum <- array_spec.spec_minimum spec ;;
      match spec_minimum with
      | Some spec_minimum =>
          shifted <- np_add (array_spec.dtype_of (array_spec.spec_base spec))
                       action spec_minimum ;;
          let (time_step, e) := py_environment.step env shifted (_env self) in
          Ok (time_step, {| _env := e |})
      | None => Raise TypeError
      end
  | _ => Raise AttributeError
  end.

End Wrapper.

Arguments state : clear implicits.

End ActionOffsetWrapper.

(** ** [class FlattenObservationsWrapper] *)

Module FlattenObservationsWrapper.

(** [np.reshape(x, [-1])] *)
Definition reshape_flat {A : Type} (x : ndarray A) : ndarray A :=
  mkArray [size (arr_shape x)] (arr_data x).

(** [np.reshape(x, [x.shape[0], -1])]: a 0-d array has no [shape[0]], and
    numpy cannot infer the second dimension next to a first one of 0. *)
Definition reshape_batch {A : Type} (x : ndarray A) : result (ndarray A) :=
  match arr_shape x with
  | [] => Raise IndexError
  | b :: rest =>
      if Nat.eqb b 0 then Raise ValueError
      else Ok (mkArray [b; size rest] (arr_data x))
  end.

Definition np_flatten {A : Type} (is_batched : bool) (x : ndarray A)
    : result (ndarray A) :=
  if is_batched then reshape_batch x else Ok (reshape_flat x).

Fixpoint sequence_results {A : Type} (l : list (result A)) : result (list A) :=
  match l with
  | [] => Ok []
  | r :: tl => x <- r ;; xs <- sequence_results tl ;; Ok (x :: xs)
  end.

(** Row [b] of a 2-d array with rows of length [n] and elements [data]. *)
Definition row {A : Type} (b n : nat) (data : list A) : list A :=
  firstn n (skipn (b * n) data).

(** [np.concatenate(arrays, axis)] for the arrays [np_flatten] produces:
    1-d arrays along axis 0, 2-d arrays with the same number of rows along
    axis 1. numpy refuses an empty list of arrays. *)
Definition concatenate {A : Type} (arrays : list (ndarray A)) (axis : nat)
    : result (ndarray A) :=
  match arrays, axis with
  | [], _ => Raise ValueError
  | _, 0 =>
      if forallb (fun x => Nat.eqb (length (arr_shape x)) 1) arrays
      then Ok (mkArray [list_sum (map (fun x => nth 0 (arr_shape x) 0) arrays)]
                 (concat (map (@arr_data A) arrays)))
      else Raise OutsideModel
  | first :: _, 1 =>
      if forallb (fun x => Nat.eqb (length (arr_shape x)) 2) arrays then
        let rows := nth 0 (arr_shape first) 0 in
        if forallb (fun x => Nat.eqb (nth 0 (arr_shape x) 0) rows) arrays
        then Ok (mkArray [rows; list_sum (map (fun x => nth 1 (arr_shape x) 0) arrays)]
                   (flat_map
                      (fun b =>
                         flat_map (fun x => row b (nth 1 (arr_shape x) 0) (arr_data x))
                           arrays)
                      (seq 0 rows)))
        else Raise ValueError
      else Raise OutsideModel
  | _, _ => Raise OutsideModel
  end.

Definition whitelisted {V : Type} (observations_whitelist : list string)
    (kv : string * V) : bool :=
  existsb (String.eqb (fst kv)) observations_whitelist.

Section Wrapper.

(** [A] is the type of the elements of the observation arrays; [batched] is
    the attribute [batched] of the wrapped environment. *)
Context {St action num A aspec img : Type}.
Variable env :
  py_environment.Base St action num (nest (ndarray A)) aspec
    (nest array_spec.ArraySpec) img.
Variable batched : St -> bool.

Record state : Type := {
  _env : St;
  _observation_spec_dtype : dtype;
  _observations_whitelist : option (list string);
  _flattened_observation_spec : array_spec.ArraySpec
}.

(** The keys outside the whitelist are deleted from the dict, and the dict
    is returned. The source deletes them in place ([del observations[key]])
    and returns the very dict it was given, so that a caller who keeps that
    dict (an environment that hands out one dict object on every call of
    [observation_spec()], or that keeps the observation of a time step)
    finds it filtered afterwards. The model returns the filtered dict as a
    new value and does not track the dict of the caller: the environments
    of the model build their specs and time steps at each call, and the
    statements below are about what the wrapper returns. Anything but a
    dict has no [keys]. *)
Definition _filter_observations {V : Type} (observations_whitelist : list string)
    (observations : nest V) : result (nest V) :=
  match observations with
  | ndict items => Ok (ndict (filter (whitelisted observations_whitelist) items))
  | _ => Raise AttributeError
  end.

Definition _flatten_nested_observations (observations : nest (ndarray A))
    (is_batched : bool) : result (ndarray A) :=
  flat <- sequence_results
            (flatten (map_structure (np_flatten is_batched) observations)) ;;
  let axis := if is_batched then 1 else 0 in
  concatenate flat axis.

(** On the spec, [_flatten_nested_observations] yields the leaf specs in
    flattening order (each wrapped by numpy into an array of one object);
    [np.concatenate] refuses an empty list. *)
Definition _flatten_nested_specs (observations_spec : nest array_spec.ArraySpec)
    : result (list array_spec.ArraySpec) :=
  match flatten observations_spec with
  | [] => Raise ValueError
  | specs => Ok specs
  end.

Definition __init__ (e : St) (observations_whitelist : option (list string))
    : result state :=
  let spec := py_environment.observation_spec env e in
  _ <- match observations_whitelist with
       | None => Ok tt
       | Some whitelist =>
           match spec with
           | ndict items =>
               if forallb (fun k => existsb (String.eqb k) (map fst items)) whitelist
               then Ok tt
               else Raise ValueError
           | _ => Raise ValueError
           end
       end ;;
  match spec with
  | ndict items =>
      dtypes <- sequence_results
                  (map (fun kv =>
                          match snd kv with
                          | leaf obs => Ok (array_spec.dtype_of obs)
                          | _ => Raise AttributeError
                          end) items) ;;
      match nodup dtype_eq_dec dtypes with
      | [inferred_spec_dtype] =>
          observations_spec <-
            match observations_whitelist with
            | None => Ok spec
            | Some whitelist => _filter_observations whitelist spec
            end ;;
          specs <- _flatten_nested_specs observations_spec ;;
          let observation_total_len :=
            list_sum (map (fun observation => size (array_spec.shape observation))
                        specs) in
          Ok {| _env := e;
                _observation_spec_dtype := inferred_spec_dtype;
                _observations_whitelist := observations_whitelist;
                _flattened_observation_spec :=
                  array_spec.mkArraySpec [observation_total_len]
                    inferred_spec_dtype (Some "packed_observations"%string) |}
      | _ => Raise ValueError
      end
  | _ => Raise AttributeError
  end.

Definition with_env (self : state) (e : St) : state :=
  {| _env := e;
     _observation_spec_dtype := _observation_spec_dtype self;
     _observations_whitelist := _observations_whitelist self;
     _flattened_observation_spec := _flattened_observation_spec self |}.

(** [self._env.batched] is read from the environment [e] as it is when the
    time step has been returned. *)
Definition _pack_and_filter_timestep_observation (self : state) (e : St)
    (timestep : TimeStep num (nest (ndarray A)))
    : result (TimeStep num (ndarray A)) :=
  observations <-
    match _observations_whitelist self with
    | None => Ok (observation timestep)
    | Some whitelist => _filter_observations whitelist (observation timestep)
    end ;;
  packed <- _flatten_nested_observations observations (batched e) ;;
  Ok (mkTimeStep (step_type timestep) (reward timestep) (discount timestep) packed).

Definition step (a : action) (self : state)
    : result (TimeStep num (ndarray A) * state) :=
  let (timestep, e) := py_environment.step env a (_env self) in
  packed <- _pack_and_filter_timestep_observation self e timestep ;;
  Ok (packed, with_env self e).

Definition reset (self : state) : result (TimeStep num (ndarray A) * state) :=
  let (timestep, e) := py_environment.reset env (_env self) in
  packed <- _pack_and_filter_timestep_observation self e timestep ;;
  Ok (packed, with_env self e).

Definition observation_spec (self : state) : array_spec.ArraySpec :=
  _flattened_observation_spec self.

End Wrapper.

Arguments state : clear implicits.

End FlattenObservationsWrapper.

(** ** Arrays against shapes and bounds

    The vocabulary of the statements about actions and specs. *)

(** The element of [x] that numpy pairs with the [i]-th element of an array
    of the full shape: a 0-d array gives its only element for every [i]. *)
Definition item {A : Type} (x : ndarray A) (i : nat) : option A :=
  match arr_shape x with
  | [] => nth_error (arr_data x) 0
  | _ => nth_error (arr_data x) i
  end.

(** [x] is a well-formed array of shape [shape]. *)
Definition has_shape {A : Type} (shape : list nat) (x : ndarray A) : Prop :=
  arr_shape x = shape /\ length (arr_data x) = size shape.

(** [x] can stand for an array of shape [shape]: it has that shape or is a
    0-d array. *)
Definition fits {A : Type} (shape : list nat) (x : ndarray A) : Prop :=
  has_shape shape x \/ has_shape [] x.

(** Every element of [x], an array of shape [shape], lies between the
    corresponding elements of [lo] and [hi] under the order [le]: what
    [array_spec] checks of an array against a bounded spec. *)
Definition within {A : Type} (le : A -> A -> Prop) (shape : list nat)
    (lo hi x : ndarray A) : Prop :=
  has_shape shape x /\
  forall i a l h,
    nth_error (arr_data x) i = Some a ->
    item lo i = Some l -> item hi i = Some h ->
    le l a /\ le a h.

(** The bounds [lo] and [hi] of a spec of shape [shape] describe a non-empty
    interval in every position. *)
Definition ordered_bounds {A : Type} (le : A -> A -> Prop) (shape : list nat)
    (lo hi : ndarray A) : Prop :=
  fits shape lo /\ fits shape hi /\
  forall i l h,
    i < size shape -> item lo i = Some l -> item hi i = Some h -> le l h.


(** ** Observations against observation specs *)

(** A dict of leaves, from its items. *)
Definition dict_of {V : Type} (items : list (string * V)) : nest V :=
  ndict (map (fun kv => (fst kv, leaf (snd kv))) items).

(** The kept items of a dict, in the order in which [nest] visits them. *)
Definition kept {V : Type} (observations_whitelist : option (list string))
    (items : list (string * V)) : list (string * V) :=
  sort_by_key
    (match observations_whitelist with
     | None => items
     | Some whitelist =>
         filter (FlattenObservationsWrapper.whitelisted whitelist) items
     end).

(** The observation array under a key is a well-formed array of the shape
    of the spec under that key, after the dimensions [batch] (empty for an
    environment that is not batched, the batch size for one that is). *)
Definition conforms {A : Type} (batch : list nat)
    (obs : string * ndarray A) (spec : string * array_spec.ArraySpec) : Prop :=
  fst obs = fst spec /\
  has_shape (batch ++ array_spec.shape (snd spec)) (snd obs).

(** The leading dimensions of the observation arrays of an environment:
    none when it is not batched, the batch size when it is. *)
Definition batch_dims (is_batched : bool) (batch : list nat) : Prop :=
  match is_batched, batch with
  | false, [] => True
  | true, [rows] => rows <> 0
  | _, _ => False
  end.

(** [packed] is the packed observation for the kept observations [obs] (in
    flattening order) of total length [total] per batch item: of shape
    [batch ++ [total]], with as many elements, which are the elements of the
    kept arrays one array after the other or, for a batched environment and
    each item [b] of the batch in turn, row [b] of the kept arrays one after
    the other. *)
Definition packed_observation {A : Type} (batch : list nat) (total : nat)
    (obs : list (string * ndarray A)) (packed : ndarray A) : Prop :=
  arr_shape packed = batch ++ [total] /\
  length (arr_data packed) = size (batch ++ [total]) /\
  match batch with
  | [] => arr_data packed = concat (map (fun kv => arr_data (snd kv)) obs)
  | [rows] =>
      arr_data packed =
      flat_map
        (fun b =>
           concat
             (map (fun kv =>
                     FlattenObservationsWrapper.row b
                       (size (tl (arr_shape (snd kv)))) (arr_data (snd kv)))
                obs))
        (seq 0 rows)
  | _ => False
  end.

(** ** Relations between nested structures

    [nest_rel2 P shallow deep] pairs every leaf of [shallow] with the leaf of
    [deep] at the same place (the same index of a sequence, the same key of a
    dict) and asks [P] of each pair; [nest_rel3] does so for three
    structures, the third with the keys of the first in the same order. *)

Definition all2 {A B : Type} (R : A -> B -> Prop) : list A -> list B -> Prop :=
  fix go (l : list A) (l' : list B) : Prop :=
    match l, l' with
    | [], [] => True
    | x :: tl, y :: tl' => R x y /\ go tl tl'
    | _, _ => False
    end.

Definition all3 {A B C : Type} (R : A -> B -> C -> Prop)
    : list A -> list B -> list C -> Prop :=
  fix go (l : list A) (l' : list B) (l'' : list C) : Prop :=
    match l, l', l'' with
    | [], [], [] => True
    | x :: tl, y :: tl', z :: tl'' => R x y z /\ go tl tl' tl''
    | _, _, _ => False
    end.

Definition all_items2 {A B : Type} (R : A -> B -> Prop)
    (items' : list (string * B)) : list (string * A) -> Prop :=
  fix go (l : list (string * A)) : Prop :=
    match l with
    | [] => True
    | (k, x) :: tl => (exists y, lookup k items' = Some y /\ R x y) /\ go tl
    end.

Definition all_items3 {A B C : Type} (R : A -> B -> C -> Prop)
    (items' : list (string * B))
    : list (string * A) -> list (string * C) -> Prop :=
  fix go (l : list (string * A)) (l'' : list (string * C)) : Prop :=
    match l, l'' with
    | [], [] => True
    | (k, x) :: tl, (k'', z) :: tl'' =>
        k = k'' /\ (exists y, lookup k items' = Some y /\ R x y z) /\ go tl tl''
    | _, _ => False
    end.

Fixpoint nest_rel2 {A B : Type} (P : A -> B -> Prop)
    (shallow : nest A) (deep : nest B) {struct shallow} : Prop :=
  match shallow with
  | leaf a =>
      match deep with
      | leaf b => P a b
      | _ => False
      end
  | nseq items =>
      match deep with
      | nseq items' => all2 (nest_rel2 P) items items'
      | _ => False
      end
  | ndict items =>
      match deep with
      | ndict items' =>
          length items = length items' /\ all_items2 (nest_rel2 P) items' items
      | _ => False
      end
  end.

Fixpoint nest_rel3 {A B C : Type} (P : A -> B -> C -> Prop)
    (shallow : nest A) (deep : nest B) (out : nest C) {struct shallow} : Prop :=
  match shallow with
  | leaf a =>
      match deep, out with
      | leaf b, leaf c => P a b c
      | _, _ => False
      end
  | nseq items =>
      match deep, out with
      | nseq items', nseq items'' => all3 (nest_rel3 P) items items' items''
      | _, _ => False
      end
  | ndict items =>
      match deep, out with
      | ndict items', ndict items'' =>
          length items = length items' /\
          all_items3 (nest_rel3 P) items' items items''
      | _, _ => False
      end
  end.

(** ** Clipping to an interval

    [clip_value lo hi x] is [x] clipped to the interval from [lo] to [hi],
    where a missing bound does not constrain. *)

Definition clip_value (lo hi : option np_float) (x : np_float) : np_float :=
  let y := match lo with
           | Some l => ActionClipWrapper.np_maximum x l
           | None => x
           end in
  match hi with
  | Some h => ActionClipWrapper.np_minimum y h
  | None => y
  end.

Definition bound_at (b : option (ndarray np_float)) (i : nat) : option np_float :=
  match b with
  | Some arr => item arr i
  | None => None
  end.

Definition above (lo : option np_float) (x : np_float) : Prop :=
  match lo with
  | Some l => float_le l x
  | None => True
  end.

Definition below (hi : option np_float) (x : np_float) : Prop :=
  match hi with
  | Some h => float_le x h
  | None => True
  end.

(** The bounds describe a non-empty interval: a bound that is present is
    not [nan], and the minimum is not above the maximum. *)
Definition interval (lo hi : option np_float) : Prop :=
  match lo, hi with
  | Some l, Some h => float_le l h
  | Some b, None | None, Some b => np_isnan b = false
  | None, None => True
  end.

(** An action array [act] matches the spec [act_spec]: the spec is bounded,
    the array has its shape, each bound that is present fits that shape, and
    in every position the bounds describe an interval (no bound is [nan],
    and the minimum is not above the maximum). *)
Definition matches_spec (act_spec : array_spec.spec np_float)
    (act : ndarray np_float) : Prop :=
  match act_spec with
  | array_spec.Array _ => False
  | array_spec.Bounded s =>
      let shape := array_spec.shape (array_spec.array_spec_of s) in
      has_shape shape act /\
      (forall lo, array_spec.minimum s = Some lo -> fits shape lo) /\
      (forall hi, array_spec.maximum s = Some hi -> fits shape hi) /\
      (forall i, i < size shape ->
         interval (bound_at (array_spec.minimum s) i)
           (bound_at (array_spec.maximum s) i))
  end.

(** [out] is [act] clipped to the bounds of [act_spec], element by element:
    it has the shape of [act]; each of its elements is the clipped element
    of [act]; it lies within the bounds when the element of [act] is not
    [nan], and is [nan] when that is; and it is the element of [act] when
    that lies within the bounds. *)
Definition clipped_to_spec (act_spec : array_spec.spec np_float)
    (act out : ndarray np_float) : Prop :=
  match act_spec with
  | array_spec.Array _ => False
  | array_spec.Bounded s =>
      arr_shape out = arr_shape act /\
      length (arr_data out) = length (arr_data act) /\
      forall i x,
        nth_error (arr_data act) i = Some x ->
        let lo := bound_at (array_spec.minimum s) i in
        let hi := bound_at (array_spec.maximum s) i in
        exists y,
          nth_error (arr_data out) i = Some y /\
          y = clip_value lo hi x /\
          (np_isnan x = false -> above lo y /\ below hi y) /\
          (np_isnan x = true -> y = NaN) /\
          (above lo x -> below hi x -> y = x)
  end.

(** ** Induction on nested structures *)

Section NestInduction.

Variable A : Type.
Variable P : nest A -> Prop.
Hypothesis Hleaf : forall a, P (leaf a).
Hypothesis Hseq : forall items, Forall P items -> P (nseq items).
Hypothesis Hdict :
  forall items, Forall (fun kv => P (snd kv)) items -> P (ndict items).

Fixpoint nest_induction (n : nest A) : P n :=
  match n with
  | leaf a => Hleaf a
  | nseq items =>
      Hseq
        ((fix go (l : list (nest A)) : Forall P l :=
            match l with
            | [] => Forall_nil P
            | x :: tl => Forall_cons x (nest_induction x) (go tl)
            end) items)
  | ndict items =>
      Hdict
        ((fix go (l : list (string * nest A)) : Forall (fun kv => P (snd kv)) l :=
            match l with
            | [] => Forall_nil _
            | kv :: tl =>
                Forall_cons kv
                  (match kv return P (snd kv) with
                   | (k, x) => nest_induction x
                   end) (go tl)
            end) items)
  end.

End NestInduction.

(** ** Example environments *)

(** An environment that counts its steps and never ends an episode: the
    observation is the number of steps since the reset, each reward is 1. *)
Definition counting_env : py_environment.Base nat unit Z nat unit unit unit :=
  {| py_environment.reset := fun _ => (mkTimeStep FIRST 0%Z 1%Z 0, 0);
     py_environment.step := fun _ n => (mkTimeStep MID 1%Z 1%Z (S n), S n);
     py_environment.observation_spec := fun _ => tt;
     py_environment.action_spec := fun _ => tt;
     py_environment.render := fun _ n => (tt, n) |}.

(** An environment whose episodes end with their first step. *)
Definition one_step_env : py_environment.Base unit unit Z unit unit unit unit :=
  {| py_environment.reset := fun s => (mkTimeStep FIRST 0%Z 1%Z tt, s);
     py_environment.step := fun _ s => (mkTimeStep LAST 1%Z 0%Z tt, s);
     py_environment.observation_spec := fun _ => tt;
     py_environment.action_spec := fun _ => tt;
     py_environment.render := fun _ s => (tt, s) |}.



(** The same spec and environment with float elements that may be
    infinite or [nan]. *)
Definition float_interval_spec : array_spec.BoundedArraySpec np_float :=
  array_spec.mkBoundedArraySpec
    (array_spec.mkArraySpec [2] float32 (Some "action"%string))
    (Some (scalar (Number (-1)))) (Some (scalar (Number 1))).

Definition clipping_env
    : py_environment.Base unit (nest (ndarray np_float)) Z unit
        (nest (array_spec.spec np_float)) unit unit :=
  {| py_environment.reset := fun s => (mkTimeStep FIRST 0%Z 1%Z tt, s);
     py_environment.step := fun _ s => (mkTimeStep MID 1%Z 1%Z tt, s);
     py_environment.observation_spec := fun _ => tt;
     py_environment.action_spec :=
       fun _ => leaf (array_spec.Bounded float_interval_spec);
     py_environment.render := fun _ s => (tt, s) |}.

(** An environment with one discrete action spec: two components, each
    between -1 and 1. *)
Definition signed_spec : array_spec.BoundedArraySpec Z :=
  array_spec.mkBoundedArraySpec
    (array_spec.mkArraySpec [2] int32 (Some "action"%string))
    (Some (scalar (-1)%Z)) (Some (scalar 1%Z)).

Definition discrete_env
    : py_environment.Base unit (ndarray Z) Z unit
        (nest (array_spec.spec Z)) unit unit :=
  {| py_environment.reset := fun s => (mkTimeStep FIRST 0%Z 1%Z tt, s);
     py_environment.step := fun _ s => (mkTimeStep MID 1%Z 1%Z tt, s);
     py_environment.observation_spec := fun _ => tt;
     py_environment.action_spec := fun _ => leaf (array_spec.Bounded signed_spec);
     py_environment.render := fun _ s => (tt, s) |}.

(** An environment that always observes [obs] and announces the
    observation spec [spec]. *)
Definition observing_env (spec : nest array_spec.ArraySpec)
    (obs : nest (ndarray Z))
    : py_environment.Base unit unit Z (nest (ndarray Z)) unit
        (nest array_spec.ArraySpec) unit :=
  {| py_environment.reset := fun s => (mkTimeStep FIRST 0%Z 1%Z obs, s);
     py_environment.step := fun _ s => (mkTimeStep MID 1%Z 1%Z obs, s);
     py_environment.observation_spec := fun _ => spec;
     py_environment.action_spec := fun _ => tt;
     py_environment.render := fun _ s => (tt, s) |}.

(** The observation spec and an observation of the docstring of
    [FlattenObservationsWrapper]. *)
Definition position_target_spec : list (string * array_spec.ArraySpec) :=
  [("target"%string, array_spec.mkArraySpec [5] float32 None);
   ("position"%string, array_spec.mkArraySpec [4] float32 None)].

Definition position_target_obs : list (string * ndarray Z) :=
  [("target"%string, mkArray [5] [5; 6; 7; 8; 9]%Z);
   ("position"%string, mkArray [4] [1; 2; 3; 4]%Z)].

(** An observation spec whose two entries differ in dtype. *)
Definition mixed_dtype_spec : list (string * array_spec.ArraySpec) :=
  [("a"%string, array_spec.mkArraySpec [2] float32 None);
   ("b"%string, array_spec.mkArraySpec [3] int32 None)].

(** ** Discounted returns as a right fold

    The returns of a trajectory, from its end: the return of a step is its
    reward plus its discount times the return of the next step, the return
    after the last step being [v]. [discounted_returns] is the fold of the
    exact values; [stored_returns] converts each return with [store] as it
    is computed, and fails where a conversion fails. *)

Section ReturnsFold.

Variable num : Type.
Variables add mul : num -> num -> num.
Variable store : num -> result num.

Fixpoint discounted_returns (rewards discounts : list num) (v : num) : list num :=
  match rewards, discounts with
  | r :: rewards', d :: discounts' =>
      let rest := discounted_returns rewards' discounts' v in
      add r (mul d (hd v rest)) :: rest
  | _, _ => []
  end.

Fixpoint stored_returns (rewards discounts : list num) (v : num)
    : result (list num) :=
  match rewards, discounts with
  | r :: rewards', d :: discounts' =>
      rest <- stored_returns rewards' discounts' v ;;
      x <- store (add r (mul d (hd v rest))) ;;
      Ok (x :: rest)
  | _, _ => Ok []
  end.

End ReturnsFold.

(** ** [class RunStats] *)

Module RunStats.
Section Wrapper.

Context {St action num obs aspec ospec img : Type}.
Variable env : py_environment.Base St action num obs aspec ospec img.

Record state : Type := {
  _env : St;
  _episodes : Z;
  _resets : Z;
  _episode_steps : Z;
  _total_steps : Z
}.

Definition __init__ (e : St) : state :=
  {| _env := e;
     _episodes := 0;
     _resets := 0;
     _episode_steps := 0;
     _total_steps := 0 |}.

Definition episodes (self : state) : Z := _episodes self.
Definition episode_steps (self : state) : Z := _episode_steps self.
Definition total_steps (self : state) : Z := _total_steps self.
Definition resets (self : state) : Z := _resets self.

Definition reset (self : state) : TimeStep num obs * state :=
  let (time_step, e) := py_environment.reset env (_env self) in
  (time_step,
   {| _env := e;
      _episodes := _episodes self;
      _resets := (_resets self + 1)%Z;
      _episode_steps := 0;
      _total_steps := _total_steps self |}).

Definition step (a : action) (self : state) : TimeStep num obs * state :=
  let (time_step, e) := py_environment.step env a (_env self) in
  let first := is_first time_step in
  (time_step,
   {| _env := e;
      _episodes :=
        if is_last time_step then (_episodes self + 1)%Z else _episodes self;
      _resets := if first then (_resets self + 1)%Z else _resets self;
      _episode_steps := if first then 0%Z else (_episode_steps self + 1)%Z;
      _total_steps :=
        if first then _total_steps self else (_total_steps self + 1)%Z |}).

(** The wrapper as an environment; the methods it does not define are those
    of [PyEnvironmentBaseWrapper]. *)
Definition as_env : py_environment.Base state action num obs aspec ospec img :=
  {| py_environment.reset := reset;
     py_environment.step := step;
     py_environment.observation_spec :=
       fun self => py_environment.observation_spec env (_env self);
     py_environment.action_spec :=
       fun self => py_environment.action_spec env (_env self);
     py_environment.render :=
       fun m self =>
         let (image, e) := py_environment.render env m (_env self) in
         (image,
          {| _env := e;
             _episodes := _episodes self;
             _resets := _resets self;
             _episode_steps := _episode_steps self;
             _total_steps := _total_steps self |}) |}.

End Wrapper.

Arguments state : clear implicits.

End RunStats.

(** ** [TimeLimit] as an environment

    [TimeLimit] defines [reset] and [step]; its other methods are those of
    [PyEnvironmentBaseWrapper]. *)

Definition TimeLimit_env {St action num obs aspec ospec img : Type}
    (env : py_environment.Base St action num obs aspec ospec img)
    : py_environment.Base (TimeLimit.state St) action num obs aspec ospec img :=
  {| py_environment.reset := TimeLimit.reset env;
     py_environment.step := fun a => TimeLimit.step env a;
     py_environment.observation_spec :=
       fun self => py_environment.observation_spec env (TimeLimit._env self);
     py_environment.action_spec :=
       fun self => py_environment.action_spec env (TimeLimit._env self);
     py_environment.render :=
       fun m self =>
         let (image, e) := py_environment.render env m (TimeLimit._env self) in
         (image,
          {| TimeLimit._env := e;
             TimeLimit._duration := TimeLimit._duration self;
             TimeLimit._step := TimeLimit._step self |}) |}.

(** ** Episodes: sequences of [reset] and [step] calls and their time steps *)

Inductive episode_call (action : Type) : Type :=
| Reset
| Step (a : action).

Arguments Reset {action}.
Arguments Step {action} a.

Section Play.

Context {St action num obs aspec ospec img : Type}.
Variable env : py_environment.Base St action num obs aspec ospec img.

(** The calls with the time steps they return, and the state they leave. *)
Fixpoint play (calls : list (episode_call action)) (s : St)
    : list (episode_call action * TimeStep num obs) * St :=
  match calls with
  | [] => ([], s)
  | c :: rest =>
      let (time_step, s') :=
        match c with
        | Reset => py_environment.reset env s
        | Step a => py_environment.step env a s
        end in
      let (trace, s'') := play rest s' in
      ((c, time_step) :: trace, s'')
  end.

End Play.

(** The number of time steps of step type [st] that calls of [step]
    returned, the number of those of another step type, the number of
    [reset] calls, and the number of all time steps of step type [st]. *)
Definition step_type_eqb (s1 s2 : StepType) : bool :=
  match s1, s2 with
  | FIRST, FIRST | MID, MID | LAST, LAST => true
  | _, _ => false
  end.

Definition stepped {action num obs : Type} (st : StepType)
    (trace : list (episode_call action * TimeStep num obs)) : Z :=
  Z.of_nat
    (length
       (filter
          (fun ct =>
             match fst ct with
             | Reset => false
             | Step _ => step_type_eqb (step_type (snd ct)) st
             end) trace)).

Definition stepped_not {action num obs : Type} (st : StepType)
    (trace : list (episode_call action * TimeStep num obs)) : Z :=
  Z.of_nat
    (length
       (filter
          (fun ct =>
             match fst ct with
             | Reset => false
             | Step _ => negb (step_type_eqb (step_type (snd ct)) st)
             end) trace)).

Definition reset_calls {action num obs : Type}
    (trace : list (episode_call action * TimeStep num obs)) : Z :=
  Z.of_nat
    (length
       (filter (fun ct => match fst ct with Reset => true | Step _ => false end)
          trace)).

Definition returned {action num obs : Type} (st : StepType)
    (trace : list (episode_call action * TimeStep num obs)) : Z :=
  Z.of_nat
    (length (filter (fun ct => step_type_eqb (step_type (snd ct)) st) trace)).

(** The counter of a wrapper with a duration of at least 1 is unset or
    counts less than the duration. *)
Definition TimeLimit_counter_ok {St : Type} (self : TimeLimit.state St) : Prop :=
  match TimeLimit._step self with
  | None => True
  | Some n => (0 <= n < TimeLimit._duration self)%Z
  end.


(** An environment that announces the action spec [spec], takes any action
    and never ends an episode. *)
Definition acting_env {action aspec : Type} (spec : aspec)
    : py_environment.Base unit action Z unit aspec unit unit :=
  {| py_environment.reset := fun s => (mkTimeStep FIRST 0%Z 1%Z tt, s);
     py_environment.step := fun _ s => (mkTimeStep MID 1%Z 1%Z tt, s);
     py_environment.observation_spec := fun _ => tt;
     py_environment.action_spec := fun _ => spec;
     py_environment.render := fun _ s => (tt, s) |}.


(** A discrete spec that spans the whole of its dtype. *)
Definition full_int8_spec : array_spec.BoundedArraySpec Z :=
  array_spec.mkBoundedArraySpec
    (array_spec.mkArraySpec [1] int8 None)
    (Some (scalar (-128)%Z)) (Some (scalar 127%Z)).

(** ** [class TFEnvironmentMock] of [tf_environment_test.py]

    The mock keeps its state and three counters in TensorFlow variables.
    An operation that [reset] or [step] builds is modelled by what one
    evaluation of it does to the variables, in the order that its control
    dependencies fix, together with the time step it yields. [_state] is a
    variable of the integer dtype [_dtype] and the counters are [int32]
    variables (the default of [tf.Variable(0)]); additions wrap around.
    [tf.mod] rounds towards minus infinity, as [Z.modulo] does for the
    divisor 3. The step types [FIRST], [MID] and [LAST] are the integers 0,
    1 and 2; rewards and discounts are the constants [0.0] and [1.0].
    [tf.case] with [exclusive=True] and no default fails at run time when
    none of its predicates holds ([None]). The action only orders the
    evaluation. *)

Module TFEnvironmentMock.

Record state : Type := {
  _dtype : dtype;
  _initial_state : Z;
  _state : Z;
  steps : Z;
  episodes : Z;
  resets : Z
}.

Definition __init__ (initial_state : Z) (dt : dtype) : state :=
  {| _dtype := dt;
     _initial_state := initial_state;
     _state := initial_state;
     steps := 0;
     episodes := 0;
     resets := 0 |}.

Definition current_time_step (self : state) : option (TimeStep Q Z) :=
  let state_value := (_state self mod 3)%Z in
  if (state_value =? 0)%Z then Some (mkTimeStep FIRST 0%Q 1%Q state_value)
  else if (state_value =? 1)%Z then Some (mkTimeStep MID 0%Q 1%Q state_value)
  else if (state_value =? 2)%Z then Some (mkTimeStep LAST 1%Q 0%Q state_value)
  else None.

Definition reset (self : state) : option (TimeStep Q Z) * state :=
  let self' :=
    {| _dtype := _dtype self;
       _initial_state := _initial_state self;
       _state := _initial_state self;
       steps := steps self;
       episodes := episodes self;
       resets := wrap int32 (resets self + 1) |} in
  (current_time_step self', self').

Definition step (action : Z) (self : state) : option (TimeStep Q Z) * state :=
  let state_value := wrap (_dtype self) (_state self + 1) in
  let self' :=
    {| _dtype := _dtype self;
       _initial_state := _initial_state self;
       _state := state_value;
       steps :=
         if (state_value mod 3 =? 0)%Z then steps self
         else wrap int32 (steps self + 1);
       episodes :=
         if (state_value mod 3 =? 2)%Z then wrap int32 (episodes self + 1)
         else episodes self;
       resets := resets self |} in
  (current_time_step self', self').

(** One evaluation of the step operation per action, in order. *)
Fixpoint run_steps (actions : list Z) (self : state)
    : list (option (TimeStep Q Z)) * state :=
  match actions with
  | [] => ([], self)
  | a :: rest =>
      let (time_step, self') := step a self in
      let (more, self'') := run_steps rest self' in
      (time_step :: more, self'')
  end.

End TFEnvironmentMock.

(** A time step of the mock's cycle for the state value [v]: the
    observation is [v mod 3], which fixes step type, reward and discount. *)
Definition cycle_time_step (v : Z) (time_step : TimeStep Q Z) : Prop :=
  observation time_step = (v mod 3)%Z /\
  ((observation time_step = 0%Z /\ step_type time_step = FIRST /\
    reward time_step = 0%Q /\ discount time_step = 1%Q) \/
   (observation time_step = 1%Z /\ step_type time_step = MID /\
    reward time_step = 0%Q /\ discount time_step = 1%Q) \/
   (observation time_step = 2%Z /\ step_type time_step = LAST /\
    reward time_step = 1%Q /\ discount time_step = 0%Q)).

(** ** Facts about sequences *)

Lemma getitem_nth {A : Type} (l : list A) (i : nat) (d : A) :
  i < length l -> getitem l i = Ok (nth i l d).
Proof.
  intros Hi. unfold getitem.
  rewrite (nth_error_nth' l d Hi). reflexivity.
Qed.

Lemma setitem_ok {A : Type} (l : list A) (i : nat) (v : A) :
  i < length l ->
  exists l', setitem l i v = Ok l' /\ length l' = length l /\
    nth_error l' i = Some v /\
    (forall j, j <> i -> nth_error l' j = nth_error l j).
Proof.
  revert i. induction l as [|x tl IH]; intros i Hi; simpl in Hi; [lia|].
  destruct i as [|j].
  - exists (v :: tl). simpl. repeat split.
    intros [|j] Hj; [congruence | reflexivity].
  - destruct (IH j ltac:(lia)) as (tl' & E & Hlen & Hget & Hother).
    exists (x :: tl'). simpl. rewrite E. simpl. repeat split.
    + now rewrite Hlen.
    + exact Hget.
    + intros [|j'] Hj'; [reflexivity|]. simpl. apply Hother. congruence.
Qed.

(** ** Discounted returns *)

Lemma setitem_firstn_skipn {A : Type} (l : list A) (v : A) :
  forall i, i < length l -> setitem l i v = Ok (firstn i l ++ v :: skipn (S i) l).
Proof.
  induction l as [|x tl IH]; intros i Hi; simpl in Hi; [lia|].
  destruct i as [|j]; [reflexivity|].
  cbn [setitem]. rewrite IH by lia. reflexivity.
Qed.

Lemma firstn_succ_nth_error {A : Type} (l : list A) :
  forall t x, nth_error l t = Some x -> firstn (S t) l = firstn t l ++ [x].
Proof.
  induction l as [|y tl IH]; intros [|t] x Hx; simpl in Hx; try discriminate.
  - injection Hx as ->. reflexivity.
  - rewrite !firstn_cons, (IH t x Hx). reflexivity.
Qed.

Section ReturnsFacts.

Variable num : Type.
Variable zero : num.
Variables add mul : num -> num -> num.
Variable store : num -> result num.

(** The fold over a trajectory, from its last step. *)
Lemma stored_returns_last (pre_r : list num) :
  forall (pre_d : list num) (r d v : num),
    length pre_r = length pre_d ->
    stored_returns add mul store (pre_r ++ [r]) (pre_d ++ [d]) v =
    (x <- store (add r (mul d v)) ;;
     pre <- stored_returns add mul store pre_r pre_d x ;;
     Ok (pre ++ [x])).
Proof.
  induction pre_r as [|r0 rs IH]; intros [|d0 ds] r d v Hlen; simpl in Hlen;
    try discriminate.
  - cbn. now destruct (store (add r (mul d v))).
  - cbn [app stored_returns]. rewrite (IH ds r d v) by lia.
    destruct (store (add r (mul d v))) as [x|e]; cbn [bind]; [|reflexivity].
    destruct (stored_returns add mul store rs ds x) as [pre|e]; cbn [bind];
      [|reflexivity].
    replace (hd v (pre ++ [x])) with (hd x pre) by (now destruct pre).
    now destruct (store (add r0 (mul d0 (hd x pre)))).
Qed.

(** The loop over the first [k] indices is the fold over them. *)
Lemma returns_loop_fold (rewards discounts : list num) :
  forall (k : nat) (returns : list num) (v : num),
    k <= length rewards -> k <= length discounts -> k <= length returns ->
    ppo_agent_test.returns_loop add mul store k rewards discounts returns v =
    (pre <- stored_returns add mul store (firstn k rewards) (firstn k discounts) v ;;
     Ok (pre ++ skipn k returns)).
Proof.
  induction k as [|t IH]; intros returns v Hr Hd Hret.
  - reflexivity.
  - cbn [ppo_agent_test.returns_loop].
    destruct (nth_error rewards t) as [r|] eqn:Er;
      [|apply nth_error_None in Er; lia].
    destruct (nth_error discounts t) as [d|] eqn:Ed;
      [|apply nth_error_None in Ed; lia].
    unfold getitem at 1 2. rewrite Er, Ed. cbn [bind].
    rewrite (firstn_succ_nth_error _ _ Er), (firstn_succ_nth_error _ _ Ed).
    rewrite stored_returns_last by (rewrite !length_firstn; lia).
    destruct (store (add r (mul d v))) as [x|e]; cbn [bind]; [|reflexivity].
    rewrite setitem_firstn_skipn by lia. cbn [bind].
    assert (Hget : getitem (firstn t returns ++ x :: skipn (S t) returns) t = Ok x).
    { unfold getitem. rewrite nth_error_app2 by (rewrite length_firstn; lia).
      rewrite length_firstn.
      replace (t - Nat.min t (length returns)) with 0 by lia. reflexivity. }
    rewrite Hget. cbn [bind].
    rewrite IH by (try lia; rewrite length_app, length_firstn; simpl; lia).
    destruct (stored_returns add mul store (firstn t rewards) (firstn t discounts) x)
      as [pre|e]; cbn [bind]; [|reflexivity].
    f_equal. rewrite <- app_assoc. f_equal.
    rewrite skipn_app, length_firstn.
    replace (t - Nat.min t (length returns)) with 0 by lia.
    rewrite skipn_firstn_comm. replace (t - t) with 0 by lia. reflexivity.
Qed.

(** The fold reads the discounts of the indices of [rewards] only. *)
Lemma stored_returns_firstn (rewards : list num) :
  forall (discounts : list num) (v : num),
    stored_returns add mul store rewards (firstn (length rewards) discounts) v =
    stored_returns add mul store rewards discounts v.
Proof.
  induction rewards as [|r rs IH]; intros [|d ds] v; try reflexivity.
  cbn [length firstn stored_returns]. now rewrite IH.
Qed.

(** [_compute_returns_fn] is the fold, whenever [discounts] is long enough. *)
Lemma compute_returns_stored (rewards discounts : list num) (v : num) :
  length rewards <= length discounts ->
  ppo_agent_test._compute_returns_fn zero add mul store rewards discounts v =
  stored_returns add mul store rewards discounts v.
Proof.
  intros Hlen. unfold ppo_agent_test._compute_returns_fn.
  assert (Hz : length (ppo_agent_test.zeros_like zero rewards) = length rewards).
  { unfold ppo_agent_test.zeros_like. apply length_map. }
  rewrite Hz, returns_loop_fold by lia.
  rewrite firstn_all, stored_returns_firstn.
  destruct (stored_returns add mul store rewards discounts v) as [pre|e];
    cbn [bind]; [|reflexivity].
  rewrite <- Hz, skipn_all, app_nil_r. reflexivity.
Qed.

(** What the fold returns: the sequence whose elements are the converted
    values of the recurrence, [R[t+1]] read as [v] after the last index. *)
Lemma stored_returns_spec (rewards : list num) :
  forall (discounts R : list num) (v : num),
    length rewards = length discounts ->
    (stored_returns add mul store rewards discounts v = Ok R <->
     length R = length rewards /\
     forall t, t < length rewards ->
       store (add (nth t rewards zero)
                (mul (nth t discounts zero) (nth (S t) R v))) =
       Ok (nth t R zero)).
Proof.
  induction rewards as [|r rs IH]; intros [|d ds] R v Hlen; simpl in Hlen;
    try discriminate.
  - cbn. split.
    + intros E. injection E as <-. split; [reflexivity | intros t Ht; lia].
    + intros [HR _]. destruct R; [reflexivity | discriminate].
  - cbn [stored_returns]. split.
    + intros E.
      destruct (stored_returns add mul store rs ds v) as [rest|e] eqn:Erest;
        cbn [bind] in E; [|discriminate].
      destruct (store (add r (mul d (hd v rest)))) as [x|e] eqn:Ex;
        cbn [bind] in E; [|discriminate].
      injection E as <-.
      destruct (proj1 (IH ds rest v ltac:(lia)) Erest) as [Hl Hrec].
      split; [simpl; now rewrite Hl|].
      intros [|t] Ht.
      * cbn [nth]. replace (nth 0 rest v) with (hd v rest) by (now destruct rest).
        exact Ex.
      * cbn [nth]. apply Hrec. simpl in Ht. lia.
    + intros [HR Hrec].
      destruct R as [|x rest]; [discriminate|].
      assert (Erest : stored_returns add mul store rs ds v = Ok rest).
      { apply (IH ds rest v ltac:(lia)). split; [simpl in HR; lia|].
        intros t Ht. apply (Hrec (S t)). simpl. lia. }
      rewrite Erest. cbn [bind].
      pose proof (Hrec 0 ltac:(simpl; lia)) as H0. cbn [nth] in H0.
      replace (nth 0 rest v) with (hd v rest) in H0 by (now destruct rest).
      rewrite H0. reflexivity.
Qed.

(** With a store that keeps every number as it is, the fold of the exact
    values. *)
Lemma stored_returns_exact (rewards : list num) :
  (forall x, store x = Ok x) ->
  forall (discounts : list num) (v : num),
    stored_returns add mul store rewards discounts v =
    Ok (discounted_returns add mul rewards discounts v).
Proof.
  intros Hexact. induction rewards as [|r rs IH]; intros [|d ds] v;
    try reflexivity.
  cbn [stored_returns discounted_returns]. rewrite IH. cbn [bind].
  rewrite Hexact. reflexivity.
Qed.

(** C1, amended. For equal-length [rewards] and [discounts] of length [n]
    and any initial [next_state_return] [v], [_compute_returns_fn] returns
    [R] exactly when [R] is the sequence of length [n] with
    [R[n-1] = conv(rewards[n-1] + discounts[n-1] * v)] and
    [R[t] = conv(rewards[t] + discounts[t] * R[t+1])] for every [t < n-1],
    where [conv] is the conversion to the dtype of [rewards] that the
    assignment into [returns] applies (every such assignment succeeding).
    When the dtype holds every number computed ([conv] is the identity),
    the function returns and these are the equations
    [R[n-1] = rewards[n-1] + discounts[n-1] * v] and
    [R[t] = rewards[t] + discounts[t] * R[t+1]]. For [n = 0] it returns
    the empty sequence. *)
Theorem compute_returns_recurrence (rewards discounts : list num) (v : num) :
  length rewards = length discounts ->
  (forall R,
     ppo_agent_test._compute_returns_fn zero add mul store rewards discounts v =
       Ok R <->
     length R = length rewards /\
     (forall t, S t = length rewards ->
        store (add (nth t rewards zero) (mul (nth t discounts zero) v)) =
        Ok (nth t R zero)) /\
     (forall t, S t < length rewards ->
        store (add (nth t rewards zero)
                 (mul (nth t discounts zero) (nth (S t) R zero))) =
        Ok (nth t R zero))) /\
  ((forall x, store x = Ok x) ->
   exists R,
     ppo_agent_test._compute_returns_fn zero add mul store rewards discounts v =
       Ok R /\
     length R = length rewards /\
     (forall t, S t = length rewards ->
        nth t R zero = add (nth t rewards zero) (mul (nth t discounts zero) v)) /\
     (forall t, S t < length rewards ->
        nth t R zero =
        add (nth t rewards zero) (mul (nth t discounts zero) (nth (S t) R zero)))) /\
  (length rewards = 0 ->
   ppo_agent_test._compute_returns_fn zero add mul store rewards discounts v =
     Ok []).
Proof.
  intros Hlen.
  assert (Hnext : forall R t,
             length R = length rewards ->
             (S t = length rewards -> nth (S t) R v = v) /\
             (S t < length rewards -> nth (S t) R v = nth (S t) R zero)).
  { intros R t HR. split; intros Ht.
    - apply nth_overflow. lia.
    - apply nth_indep. lia. }
  assert (Hiff : forall R,
             ppo_agent_test._compute_returns_fn zero add mul store
               rewards discounts v = Ok R <->
             length R = length rewards /\
             (forall t, S t = length rewards ->
                store (add (nth t rewards zero) (mul (nth t discounts zero) v)) =
                Ok (nth t R zero)) /\
             (forall t, S t < length rewards ->
                store (add (nth t rewards zero)
                         (mul (nth t discounts zero) (nth (S t) R zero))) =
                Ok (nth t R zero))).
  { intros R. rewrite compute_returns_stored by lia.
    rewrite (stored_returns_spec rewards discounts R v Hlen).
    split.
    - intros [HR Hrec]. split; [exact HR|]. split; intros t Ht.
      + rewrite <- (proj1 (Hnext R t HR) Ht). apply Hrec. lia.
      + rewrite <- (proj2 (Hnext R t HR) Ht). apply Hrec. lia.
    - intros (HR & Hlast & Hrec). split; [exact HR|].
      intros t Ht. destruct (Nat.eq_dec (S t) (length rewards)) as [He|Hne].
      + rewrite (proj1 (Hnext R t HR) He). now apply Hlast.
      + rewrite (proj2 (Hnext R t HR) ltac:(lia)). apply Hrec. lia. }
  split; [exact Hiff|]. split.
  - intros Hexact.
    exists (discounted_returns add mul rewards discounts v).
    assert (E : ppo_agent_test._compute_returns_fn zero add mul store
                  rewards discounts v =
                Ok (discounted_returns add mul rewards discounts v)).
    { rewrite compute_returns_stored by lia. now apply stored_returns_exact. }
    split; [exact E|].
    destruct (proj1 (Hiff _) E) as (HR & Hlast & Hrec).
    split; [exact HR|]. split; intros t Ht.
    + pose proof (Hlast t Ht) as H. rewrite Hexact in H. now injection H.
    + pose proof (Hrec t Ht) as H. rewrite Hexact in H. now injection H.
  - intros Hn. apply Hiff. destruct rewards; [|discriminate].
    split; [reflexivity|]. split; intros t Ht; simpl in Ht; lia.
Qed.

End ReturnsFacts.

(** The returns of rewards [1, 1, 1] under discounts [1, 0, 2] from a
    next-state return of [5], all integers in an array that holds them. *)
Lemma compute_returns_recurrence_witness :
  exists R,
    ppo_agent_test._compute_returns_fn 0%Z Z.add Z.mul ppo_agent_test.store_exact
      [1; 1; 1]%Z [1; 0; 2]%Z 5%Z = Ok R /\
    length R = 3 /\
    (forall t, S t = 3 ->
       nth t R 0%Z = (nth t [1; 1; 1] 0 + nth t [1; 0; 2] 0 * 5)%Z) /\
    (forall t, S t < 3 ->
       nth t R 0%Z = (nth t [1; 1; 1] 0 + nth t [1; 0; 2] 0 * nth (S t) R 0)%Z).
Proof.
  destruct (@compute_returns_recurrence Z 0%Z Z.add Z.mul
              ppo_agent_test.store_exact [1; 1; 1]%Z [1; 0; 2]%Z 5%Z eq_refl)
    as (_ & Hexact & _).
  apply Hexact. intros x. reflexivity.
Defined.

(** C1, counterexample. Integer rewards [1, 1, 1] under discounts
    [1/2, 1/2, 1/2]: [returns] is an [int64] array, the return [3/2] of
    the second step is stored as [1], and the result does not satisfy
    [R[1] = rewards[1] + discounts[1] * R[2]]. *)
Lemma compute_returns_integer_rewards_truncate :
  ppo_agent_test._compute_returns_fn 0%Q Qplus Qmult ppo_agent_test.store_int64
    [1; 1; 1]%Q [1 # 2; 1 # 2; 1 # 2]%Q 0%Q = Ok [1; 1; 1]%Q /\
  ~ (nth 1 [1; 1; 1] 0 ==
     nth 1 [1; 1; 1] 0 + nth 1 [1 # 2; 1 # 2; 1 # 2] 0 * nth 2 [1; 1; 1] 0)%Q.
Proof.
  split; [reflexivity|].
  simpl. intros H. unfold Qeq in H. simpl in H. lia.
Qed.

(** Lists of Python integers: the return [2^63] of the only step does not
    fit the [int64] array [returns], and the assignment raises. *)
Example compute_returns_python_int_overflow :
  ppo_agent_test._compute_returns_fn 0%Z Z.add Z.mul
    ppo_agent_test.store_int64_int [1]%Z [1]%Z 9223372036854775807%Z =
  Raise OverflowError.
Proof. reflexivity. Qed.

Example compute_returns_example :
  ppo_agent_test._compute_returns_fn 0%Z Z.add Z.mul ppo_agent_test.store_exact
    [1; 1; 1]%Z [1; 0; 2]%Z 5%Z = Ok [2; 1; 11]%Z.
Proof. reflexivity. Qed.

(** ** The base wrapper forwards every call *)

Section BaseWrapperFacts.

Context {St action num obs aspec ospec img : Type}.
Variable env : py_environment.Base St action num obs aspec ospec img.

Lemma invoke_as_env (c : call action) (s : St) :
  invoke (PyEnvironmentBaseWrapper.as_env env) c
    (PyEnvironmentBaseWrapper.__init__ s) =
  (fst (invoke env c s), PyEnvironmentBaseWrapper.__init__ (snd (invoke env c s))).
Proof.
  destruct c; simpl;
    unfold PyEnvironmentBaseWrapper.reset, PyEnvironmentBaseWrapper.step,
      PyEnvironmentBaseWrapper.render, PyEnvironmentBaseWrapper.observation_spec,
      PyEnvironmentBaseWrapper.action_spec; simpl.
  - now destruct (py_environment.reset env s).
  - now destruct (py_environment.step env a s).
  - reflexivity.
  - reflexivity.
  - now destruct (py_environment.render env mode s).
Qed.

Lemma run_as_env (calls : list (call action)) :
  forall s : St,
    run (PyEnvironmentBaseWrapper.as_env env) calls
      (PyEnvironmentBaseWrapper.__init__ s) =
    run env calls s.
Proof.
  induction calls as [|c rest IH]; intros s; [reflexivity|].
  cbn [run]. rewrite invoke_as_env.
  destruct (invoke env c s) as [r s']. simpl. now rewrite IH.
Qed.

(** C9. [PyEnvironmentBaseWrapper] preserves behaviour: [reset], [step],
    [observation_spec], [action_spec] and [render] return the values of the
    wrapped environment's methods (a [render] without [mode] passes
    ['rgb_array'] on) and leave the wrapper around the wrapped environment's
    next state; hence a client sees the same responses to every sequence of
    calls from the wrapper and from the environment it wraps. *)
Theorem base_wrapper_is_identity :
  (forall s,
     PyEnvironmentBaseWrapper.reset env (PyEnvironmentBaseWrapper.__init__ s) =
     (fst (py_environment.reset env s),
      PyEnvironmentBaseWrapper.__init__ (snd (py_environment.reset env s)))) /\
  (forall a s,
     PyEnvironmentBaseWrapper.step env a (PyEnvironmentBaseWrapper.__init__ s) =
     (fst (py_environment.step env a s),
      PyEnvironmentBaseWrapper.__init__ (snd (py_environment.step env a s)))) /\
  (forall s,
     PyEnvironmentBaseWrapper.observation_spec env
       (PyEnvironmentBaseWrapper.__init__ s) =
     py_environment.observation_spec env s) /\
  (forall s,
     PyEnvironmentBaseWrapper.action_spec env
       (PyEnvironmentBaseWrapper.__init__ s) =
     py_environment.action_spec env s) /\
  (forall mode s,
     PyEnvironmentBaseWrapper.render env mode
       (PyEnvironmentBaseWrapper.__init__ s) =
     let m := match mode with Some m => m | None => "rgb_array"%string end in
     (fst (py_environment.render env m s),
      PyEnvironmentBaseWrapper.__init__ (snd (py_environment.render env m s)))) /\
  (forall self : PyEnvironmentBaseWrapper.state St,
     PyEnvironmentBaseWrapper.__init__
       (PyEnvironmentBaseWrapper.wrapped_env self) = self) /\
  (forall calls s,
     run (PyEnvironmentBaseWrapper.as_env env) calls
       (PyEnvironmentBaseWrapper.__init__ s) =
     run env calls s).
Proof.
  repeat split.
  - intros s. unfold PyEnvironmentBaseWrapper.reset. simpl.
    now destruct (py_environment.reset env s).
  - intros a s. unfold PyEnvironmentBaseWrapper.step. simpl.
    now destruct (py_environment.step env a s).
  - intros mode s. unfold PyEnvironmentBaseWrapper.render. simpl.
    now destruct (py_environment.render env _ s).
  - now intros [e].
  - intros calls s. apply run_as_env.
Qed.

End BaseWrapperFacts.

(** ** [TimeLimit] *)

Section TimeLimitFacts.

Context {St action num obs aspec ospec img : Type}.
Variable env : py_environment.Base St action num obs aspec ospec img.

Lemma TimeLimit_reset_state (self : TimeLimit.state St) :
  TimeLimit._step (snd (TimeLimit.reset env self)) = Some 0%Z /\
  TimeLimit._duration (snd (TimeLimit.reset env self)) = TimeLimit._duration self.
Proof.
  unfold TimeLimit.reset.
  now destruct (py_environment.reset env (TimeLimit._env self)).
Qed.

(** One step of a running episode. *)
Lemma TimeLimit_step_running (a : action) (self : TimeLimit.state St) (n : Z) :
  TimeLimit._step self = Some n ->
  let r := TimeLimit.step env a self in
  TimeLimit._duration (snd r) = TimeLimit._duration self /\
  ((n + 1 >= TimeLimit._duration self)%Z -> step_type (fst r) = LAST) /\
  (is_last (fst r) = true -> TimeLimit._step (snd r) = None) /\
  (is_last (fst r) = false ->
     TimeLimit._step (snd r) = Some (n + 1)%Z /\
     (n + 1 < TimeLimit._duration self)%Z).
Proof.
  intros Hn. unfold TimeLimit.step. rewrite Hn.
  destruct (py_environment.step env a (TimeLimit._env self)) as [ts e].
  destruct (Z.geb_spec (n + 1) (TimeLimit._duration self)) as [Hge|Hlt]; simpl.
  - unfold is_last. simpl. split; [reflexivity|]. split; [reflexivity|].
    split; [reflexivity | discriminate].
  - split; [reflexivity|]. split; [lia|].
    split; intros Hl; rewrite Hl; [reflexivity | split; [reflexivity | lia]].
Qed.

(** From a running episode that has taken [n] steps, a [LAST] time step is
    returned within the calls that bring the count to the duration. *)
Lemma TimeLimit_steps_reach_last (actions : list action) :
  forall (self : TimeLimit.state St) (n : Z),
    TimeLimit._step self = Some n ->
    actions <> [] ->
    (n + Z.of_nat (length actions) >= TimeLimit._duration self)%Z ->
    exists i ts,
      nth_error (fst (TimeLimit.steps env actions self)) i = Some ts /\
      step_type ts = LAST /\
      (forall j tj,
         j < i ->
         nth_error (fst (TimeLimit.steps env actions self)) j = Some tj ->
         is_last tj = false).
Proof.
  induction actions as [|a rest IH]; intros self n Hn Hne Hlen; [congruence|].
  cbn [TimeLimit.steps].
  pose proof (TimeLimit_step_running a self Hn) as Hstep. cbv zeta in Hstep.
  destruct (TimeLimit.step env a self) as [ts self'] eqn:E. simpl in Hstep.
  destruct Hstep as (Hdur & Hforce & Hend & Hrun).
  destruct (TimeLimit.steps env rest self') as [more self''] eqn:E'.
  destruct (is_last ts) eqn:Hl.
  - exists 0, ts. simpl. repeat split.
    + unfold is_last in Hl. now destruct (step_type ts).
    + intros j tj Hj. lia.
  - destruct (Hrun eq_refl) as [Hn' Hlt].
    assert (Hrest : rest <> []).
    { intros ->. simpl in Hlen. lia. }
    destruct (IH self' (n + 1)%Z Hn' Hrest) as (i & ti & Hi & Hti & Hbefore).
    { rewrite Hdur. simpl length in Hlen. lia. }
    rewrite E' in Hi, Hbefore. simpl in Hi, Hbefore.
    exists (S i), ti. simpl. repeat split; auto.
    intros [|j] tj Hj Htj; simpl in Htj.
    + now injection Htj as <-.
    + apply (Hbefore j tj); [lia | exact Htj].
Qed.

Lemma TimeLimit_steps_length (actions : list action) :
  forall self : TimeLimit.state St,
    length (fst (TimeLimit.steps env actions self)) = length actions.
Proof.
  induction actions as [|a rest IH]; intros self; [reflexivity|].
  cbn [TimeLimit.steps].
  destruct (TimeLimit.step env a self) as [ts self'].
  specialize (IH self').
  destruct (TimeLimit.steps env rest self') as [more self'']. simpl in *.
  now rewrite IH.
Qed.

(** C2, amended. For a duration [d >= 1] and [d] consecutive calls of [step]
    after a [reset]: one of the returned time steps is [LAST], so an episode
    has at most [d] steps; and when none of the first [d - 1] calls returned
    [LAST] (the episode is still running), the [d]-th call returns [LAST]. *)
Theorem TimeLimit_episode_at_most_duration
    (self : TimeLimit.state St) (actions : list action) :
  (1 <= TimeLimit._duration self)%Z ->
  length actions = Z.to_nat (TimeLimit._duration self) ->
  let after_reset := snd (TimeLimit.reset env self) in
  let time_steps := fst (TimeLimit.steps env actions after_reset) in
  (exists i ts,
     nth_error time_steps i = Some ts /\ step_type ts = LAST /\
     (forall j tj, j < i -> nth_error time_steps j = Some tj -> is_last tj = false)) /\
  ((forall j tj,
      S j < length actions -> nth_error time_steps j = Some tj -> is_last tj = false) ->
   exists ts,
     nth_error time_steps (length actions - 1) = Some ts /\ step_type ts = LAST).
Proof.
  intros Hd Hlen after_reset time_steps.
  destruct (TimeLimit_reset_state self) as [H0 Hdur].
  fold after_reset in H0, Hdur.
  assert (Hne : actions <> []).
  { intros ->. simpl in Hlen. lia. }
  destruct (@TimeLimit_steps_reach_last actions after_reset 0%Z H0 Hne)
    as (i & ts & Hi & Hts & Hbefore).
  { rewrite Hdur, Hlen. lia. }
  fold time_steps in Hi, Hbefore.
  split; [now exists i, ts|].
  intros Hrunning.
  assert (Hbound : i < length actions).
  { rewrite <- (TimeLimit_steps_length actions after_reset).
    apply nth_error_Some. fold time_steps. congruence. }
  destruct (Nat.eq_dec (S i) (length actions)) as [Heq|Hneq].
  - exists ts. replace (length actions - 1) with i by lia. now split.
  - assert (Hfalse : is_last ts = false) by (apply (Hrunning i ts); [lia | exact Hi]).
    unfold is_last in Hfalse. rewrite Hts in Hfalse. discriminate.
Qed.

(** C10. When no episode is running (before any reset, or after a [step]
    returned [LAST], forced by the limit or reported by the wrapped
    environment), [step] ignores its action and is [reset]: it resets the
    wrapped environment, returns the time step of that reset and starts
    counting at 0. *)
Theorem TimeLimit_step_resets_when_idle
    (self : TimeLimit.state St) (a : action) :
  TimeLimit.no_episode env self ->
  TimeLimit._step self = None /\
  TimeLimit.step env a self = TimeLimit.reset env self /\
  TimeLimit.step env a self =
    (fst (py_environment.reset env (TimeLimit._env self)),
     {| TimeLimit._env := snd (py_environment.reset env (TimeLimit._env self));
        TimeLimit._duration := TimeLimit._duration self;
        TimeLimit._step := Some 0%Z |}).
Proof.
  intros Hidle.
  assert (Hnone : TimeLimit._step self = None).
  { destruct Hidle as [e d | prev b Hrun Hlast]; [reflexivity|].
    destruct (TimeLimit._step prev) as [n|] eqn:Hn; [|congruence].
    pose proof (TimeLimit_step_running b prev Hn) as Hstep. cbv zeta in Hstep.
    now apply Hstep. }
  split; [exact Hnone|].
  unfold TimeLimit.step. rewrite Hnone. split; [reflexivity|].
  unfold TimeLimit.reset.
  now destruct (py_environment.reset env (TimeLimit._env self)).
Qed.

End TimeLimitFacts.

(** ** [ActionRepeat] *)

Section ActionRepeatFacts.

Context {St action num obs aspec ospec img : Type}.
Variable env : py_environment.Base St action num obs aspec ospec img.
Variable zero : num.
Variable add : num -> num -> num.

(** The loop takes [k] inner steps, [1 <= k <= n]: all but the last are not
    [LAST], and the loop stops at [k < n] only on a [LAST] one. It adds the
    rewards of these steps to the running total, in order. *)
Lemma ActionRepeat_step_loop_spec (n : nat) :
  forall (a : action) (total : num) (bound : option (TimeStep num obs)) (e : St),
    1 <= n ->
    exists (before : list (TimeStep num obs)) (final : TimeStep num obs) (e' : St),
      ActionRepeat.inner_steps env (S (length before)) a e = (before ++ [final], e') /\
      S (length before) <= n /\
      Forall (fun ts => is_last ts = false) before /\
      (S (length before) = n \/ is_last final = true) /\
      ActionRepeat.step_loop env add n a total bound e =
        (fold_left add (map (@reward num obs) (before ++ [final])) total,
         Some final, e').
Proof.
  induction n as [|n IH]; intros a total bound e Hn; [lia|].
  cbn [ActionRepeat.step_loop].
  destruct (py_environment.step env a e) as [ts e1] eqn:E.
  destruct (is_last ts) eqn:Hl.
  - exists [], ts, e1. simpl. rewrite E. repeat split; auto; lia.
  - destruct n as [|n'].
    + exists [], ts, e1. simpl. rewrite E. repeat split; auto.
    + destruct (IH a (add total (reward ts)) (Some ts) e1 ltac:(lia))
        as (before & final & e' & Hin & Hle & Hall & Hstop & Hloop).
      exists (ts :: before), final, e'.
      split.
      { change (length (ts :: before)) with (S (length before)).
        cbn [ActionRepeat.inner_steps]. rewrite E.
        cbn [ActionRepeat.inner_steps] in Hin. rewrite Hin. reflexivity. }
      split; [simpl; lia|].
      split; [constructor; assumption|].
      split; [simpl; destruct Hstop; [left; lia | right; assumption]|].
      rewrite Hloop. reflexivity.
Qed.

(** C4. With a repeat count [times >= 2], [step] applies its action to the
    wrapped environment [k] consecutive times, [1 <= k <= times], stopping
    before [times] only when an inner time step is [LAST]; it returns the
    step type, discount and observation of the last inner time step, with
    the sum of the rewards of the [k] inner steps as reward, and leaves the
    wrapped environment in the state after these [k] steps. *)
Theorem ActionRepeat_step_spec (self : ActionRepeat.state St) (a : action) :
  (2 <= ActionRepeat._times self)%Z ->
  exists (before : list (TimeStep num obs)) (final : TimeStep num obs) (e' : St),
    ActionRepeat.inner_steps env (S (length before)) a (ActionRepeat._env self) =
      (before ++ [final], e') /\
    (Z.of_nat (S (length before)) <= ActionRepeat._times self)%Z /\
    Forall (fun ts => is_last ts = false) before /\
    (Z.of_nat (S (length before)) = ActionRepeat._times self \/
     is_last final = true) /\
    ActionRepeat.step env zero add a self =
      Ok (mkTimeStep (step_type final)
            (fold_left add (map (@reward num obs) (before ++ [final])) zero)
            (discount final) (observation final),
          {| ActionRepeat._env := e';
             ActionRepeat._times := ActionRepeat._times self |}).
Proof.
  intros Htimes. unfold ActionRepeat.step.
  destruct (@ActionRepeat_step_loop_spec (Z.to_nat (ActionRepeat._times self))
              a zero None (ActionRepeat._env self) ltac:(lia))
    as (before & final & e' & Hin & Hle & Hall & Hstop & Hloop).
  exists before, final, e'. rewrite Hloop.
  split; [exact Hin|]. split; [lia|]. split; [exact Hall|].
  split; [destruct Hstop; [left; lia | right; assumption] | reflexivity].
Qed.

(** C8. The constructor raises [ValueError] exactly when [times] is not
    greater than 1; for [times >= 2] it succeeds and stores [times]
    unchanged. *)
Theorem ActionRepeat_init_spec (e : St) (times : Z) :
  (ActionRepeat.__init__ e times = Raise ValueError <-> ~ (times > 1)%Z) /\
  (ActionRepeat.__init__ e times =
     Ok {| ActionRepeat._env := e; ActionRepeat._times := times |} <->
   (times >= 2)%Z).
Proof.
  unfold ActionRepeat.__init__.
  destruct (Z.leb_spec times 1) as [Hle|Hgt]; split; split;
    try discriminate; try reflexivity; intros; lia.
Qed.

End ActionRepeatFacts.

(** ** Elementwise operations and broadcasting *)

Lemma shape_eqb_true (s1 s2 : list nat) : shape_eqb s1 s2 = true <-> s1 = s2.
Proof.
  unfold shape_eqb. destruct (list_eq_dec Nat.eq_dec s1 s2); split; congruence.
Qed.

Lemma shape_eqb_refl (s : list nat) : shape_eqb s s = true.
Proof. now apply shape_eqb_true. Qed.

Lemma shape_eqb_false (s1 s2 : list nat) : s1 <> s2 -> shape_eqb s1 s2 = false.
Proof.
  intros H. unfold shape_eqb. now destruct (list_eq_dec Nat.eq_dec s1 s2).
Qed.

Lemma map2_length {A B C : Type} (f : A -> B -> C) (l : list A) :
  forall l' : list B, length l = length l' -> length (map2 f l l') = length l.
Proof.
  induction l as [|a tl IH]; intros [|b tl'] H; simpl in *; try discriminate; auto.
Qed.

Lemma map2_nth_error {A B C : Type} (f : A -> B -> C) (l : list A) :
  forall (l' : list B) (i : nat) (a : A) (b : B),
    nth_error l i = Some a -> nth_error l' i = Some b ->
    nth_error (map2 f l l') i = Some (f a b).
Proof.
  induction l as [|x tl IH]; intros [|y tl'] [|i] a b Ha Hb; simpl in *;
    try discriminate.
  - congruence.
  - eauto.
Qed.

Lemma has_shape_scalar_data {A : Type} (x : ndarray A) :
  has_shape [] x -> exists a, arr_data x = [a].
Proof.
  intros [_ Hlen]. simpl in Hlen.
  destruct (arr_data x) as [|a [|b tl]]; simpl in Hlen; try discriminate.
  now exists a.
Qed.

Lemma item_scalar {A : Type} (x : ndarray A) (i : nat) :
  has_shape [] x -> exists a, arr_data x = [a] /\ item x i = Some a.
Proof.
  intros H. destruct (has_shape_scalar_data H) as [a Ha].
  exists a. split; [exact Ha|]. unfold item. destruct H as [-> _].
  now rewrite Ha.
Qed.

Lemma item_full {A : Type} (shape : list nat) (x : ndarray A) (i : nat) :
  has_shape shape x -> i < size shape -> item x i = nth_error (arr_data x) i.
Proof.
  intros [Hs Hlen] Hi. unfold item. rewrite Hs.
  destruct shape; [|reflexivity].
  simpl in Hi. now replace i with 0 by lia.
Qed.

Lemma item_fits {A : Type} (shape : list nat) (x : ndarray A) (i : nat) :
  fits shape x -> i < size shape -> exists a, item x i = Some a.
Proof.
  intros [Hfull|Hscalar] Hi.
  - rewrite (item_full Hfull Hi).
    destruct (nth_error (arr_data x) i) eqn:E; [eauto|].
    apply nth_error_None in E. destruct Hfull as [_ Hlen]. lia.
  - destruct (item_scalar i Hscalar) as (a & _ & Ha). eauto.
Qed.

(** An elementwise operation on an array of the full shape and an operand
    that fits it gives an array of the full shape, element by element. *)
Lemma elementwise_full {A B C : Type} (f : A -> B -> C) (shape : list nat)
    (x : ndarray A) (y : ndarray B) :
  has_shape shape x -> fits shape y ->
  exists z,
    elementwise f x y = Ok z /\ has_shape shape z /\
    forall i a b,
      nth_error (arr_data x) i = Some a -> item y i = Some b ->
      nth_error (arr_data z) i = Some (f a b).
Proof.
  intros Hx [Hy|Hy].
  - destruct Hx as [Hsx Hlx], Hy as [Hsy Hly].
    exists (mkArray (arr_shape x) (map2 f (arr_data x) (arr_data y))).
    unfold elementwise. rewrite Hsx, Hsy, shape_eqb_refl.
    split; [reflexivity|]. split.
    + split; [reflexivity|]. simpl. rewrite map2_length; congruence.
    + intros i a b Ha Hb. simpl. apply map2_nth_error; [exact Ha|].
      assert (Hi : i < size shape).
      { rewrite <- Hlx. apply nth_error_Some. congruence. }
      now rewrite <- (item_full (conj Hsy Hly) Hi).
  - destruct (has_shape_scalar_data Hy) as [b Hb].
    destruct (list_eq_dec Nat.eq_dec shape []) as [->|Hne].
    + destruct Hx as [Hsx Hlx], Hy as [Hsy Hly].
      exists (mkArray (arr_shape x) (map2 f (arr_data x) (arr_data y))).
      unfold elementwise. rewrite Hsx, Hsy, shape_eqb_refl.
      split; [reflexivity|]. split.
      * split; [reflexivity|]. simpl in *. rewrite map2_length; congruence.
      * intros i a0 b0 Ha0 Hb0. simpl. apply map2_nth_error; [exact Ha0|].
        unfold item in Hb0. rewrite Hsy in Hb0.
        assert (Hi : i < 1).
        { simpl in Hlx. rewrite <- Hlx. apply nth_error_Some. congruence. }
        now replace i with 0 by lia.
    + destruct Hx as [Hsx Hlx], Hy as [Hsy Hly].
      exists (mkArray (arr_shape x) (map (fun a => f a b) (arr_data x))).
      unfold elementwise. rewrite Hsx, Hsy, (shape_eqb_false Hne), Hb.
      destruct shape as [|n shape']; [congruence|].
      split; [reflexivity|]. split.
      * split; [reflexivity|]. simpl. now rewrite length_map.
      * intros i a0 b0 Ha0 Hb0. simpl.
        unfold item in Hb0. rewrite Hsy, Hb in Hb0. simpl in Hb0.
        injection Hb0 as <-. now rewrite nth_error_map, Ha0.
Qed.

(** An elementwise operation on two operands that fit a shape gives an
    array that fits it, element by element. *)
Lemma elementwise_fits {A B C : Type} (f : A -> B -> C) (shape : list nat)
    (x : ndarray A) (y : ndarray B) :
  fits shape x -> fits shape y ->
  exists z,
    elementwise f x y = Ok z /\ fits shape z /\
    forall i a b,
      i < size shape -> item x i = Some a -> item y i = Some b ->
      item z i = Some (f a b).
Proof.
  intros [Hx|Hx] Hy.
  - destruct (elementwise_full f Hx Hy) as (z & Ez & Hz & Hitem).
    exists z. split; [exact Ez|]. split; [now left|].
    intros i a b Hi Ha Hb.
    rewrite (item_full Hz Hi). rewrite (item_full Hx Hi) in Ha. now apply Hitem.
  - destruct Hy as [Hy|Hy].
    + destruct (has_shape_scalar_data Hx) as [a Ha].
      destruct (list_eq_dec Nat.eq_dec shape []) as [->|Hne].
      * destruct (elementwise_full f Hx (or_introl Hy)) as (z & Ez & Hz & Hitem).
        exists z. split; [exact Ez|]. split; [now left|].
        intros i a0 b0 Hi Ha0 Hb0.
        rewrite (item_full Hz Hi). rewrite (item_full Hx Hi) in Ha0.
        now apply Hitem.
      * destruct Hx as [Hsx Hlx], Hy as [Hsy Hly].
        exists (mkArray (arr_shape y) (map (f a) (arr_data y))).
        unfold elementwise. rewrite Hsx, Hsy.
        rewrite (shape_eqb_false (fun H => Hne (eq_sym H))), Ha.
        split; [reflexivity|]. split.
        { left. split; [reflexivity|]. simpl. now rewrite length_map. }
        intros i a0 b0 Hi Ha0 Hb0.
        unfold item in Ha0. rewrite Hsx, Ha in Ha0. simpl in Ha0.
        injection Ha0 as <-.
        rewrite (item_full (conj Hsy Hly) Hi) in Hb0.
        assert (Hz : has_shape shape (mkArray shape (map (f a) (arr_data y)))).
        { split; [reflexivity|]. simpl. now rewrite length_map. }
        rewrite (item_full Hz Hi). simpl. now rewrite nth_error_map, Hb0.
    + destruct (elementwise_full f Hx (or_introl Hy)) as (z & Ez & Hz & Hitem).
      exists z. split; [exact Ez|]. split; [now right|].
      intros i a b Hi Ha Hb.
      destruct (item_scalar i Hx) as (a' & Hda & Ha').
      destruct (item_scalar i Hz) as (c & Hdc & Hc).
      rewrite Hc. rewrite Ha' in Ha. injection Ha as <-.
      specialize (Hitem 0 a' b). rewrite Hda, Hdc in Hitem. simpl in Hitem.
      rewrite <- Hitem; [reflexivity | reflexivity |].
      destruct (item_scalar i Hy) as (b' & Hdb & Hb').
      destruct (item_scalar 0 Hy) as (b'' & Hdb' & Hb'').
      congruence.
Qed.

Lemma broadcast_to_fits {A : Type} (shape : list nat) (x : ndarray A) :
  fits shape x ->
  exists l,
    broadcast_to x shape = Ok l /\ length l = size shape /\
    forall i, i < size shape -> nth_error l i = item x i.
Proof.
  intros [Hfull|Hscalar].
  - exists (arr_data x). unfold broadcast_to.
    destruct Hfull as [Hs Hlen]. rewrite Hs, shape_eqb_refl.
    split; [reflexivity|]. split; [exact Hlen|].
    intros i Hi. symmetry. now apply (item_full (conj Hs Hlen)).
  - destruct (list_eq_dec Nat.eq_dec shape []) as [->|Hne].
    + exists (arr_data x). unfold broadcast_to.
      destruct Hscalar as [Hs Hlen]. rewrite Hs, shape_eqb_refl.
      split; [reflexivity|]. split; [exact Hlen|].
      intros i Hi. symmetry. now apply (item_full (conj Hs Hlen)).
    + destruct (has_shape_scalar_data Hscalar) as [a Ha].
      exists (repeat a (size shape)). unfold broadcast_to.
      destruct Hscalar as [Hs Hlen].
      rewrite Hs, (shape_eqb_false (fun H => Hne (eq_sym H))), Ha.
      split; [reflexivity|]. split; [apply repeat_length|].
      intros i Hi. rewrite nth_error_repeat by exact Hi.
      unfold item. now rewrite Hs, Ha.
Qed.



Lemma existsb_id_false (l : list bool) :
  (forall i, nth_error l i = Some true -> False) ->
  existsb (fun b : bool => b) l = false.
Proof.
  intros Hall. destruct (existsb (fun b : bool => b) l) eqn:E; [|reflexivity].
  apply existsb_exists in E. destruct E as (b & Hin & ->).
  destruct (In_nth_error _ _ Hin) as [i Hi]. now elim (Hall i).
Qed.

Lemma existsb_id_true (l : list bool) (i : nat) :
  nth_error l i = Some true -> existsb (fun b : bool => b) l = true.
Proof.
  intros Hi. apply existsb_exists. exists true.
  split; [exact (nth_error_In _ _ Hi) | reflexivity].
Qed.

Lemma in_rangeb_spec (dt : dtype) (z : Z) :
  in_rangeb dt z = true <-> in_range dt z.
Proof.
  unfold in_rangeb, in_range. destruct (int_range dt) as [[lo hi]|].
  - rewrite andb_true_iff, !Z.leb_le. tauto.
  - tauto.
Qed.

Lemma forallb_in_range (dt : dtype) (l : list Z) :
  Forall (in_range dt) l -> forallb (in_rangeb dt) l = true.
Proof.
  intros Hall. apply forallb_forall. intros z Hz. apply in_rangeb_spec.
  exact (proj1 (Forall_forall _ _) Hall z Hz).
Qed.

(** Every element of the result of an elementwise operation is the result
    of the operation on two elements. *)
Lemma elementwise_Forall {A B C : Type} (f : A -> B -> C) (P : C -> Prop)
    (x : ndarray A) (y : ndarray B) (z : ndarray C) :
  (forall a b, P (f a b)) ->
  elementwise f x y = Ok z -> Forall P (arr_data z).
Proof.
  intros HP. unfold elementwise.
  assert (Hmap2 : forall l l', Forall P (map2 f l l')).
  { induction l as [|a l IH]; intros [|b l']; simpl; constructor; auto. }
  destruct (shape_eqb (arr_shape x) (arr_shape y)).
  - intros E. injection E as <-. apply Hmap2.
  - assert (Hleft : forall a l, Forall P (map (f a) l)).
    { intros a l. apply Forall_forall. intros c Hc.
      apply in_map_iff in Hc. destruct Hc as (b & <- & _). apply HP. }
    assert (Hright : forall b l, Forall P (map (fun a => f a b) l)).
    { intros b l. apply Forall_forall. intros c Hc.
      apply in_map_iff in Hc. destruct Hc as (a & <- & _). apply HP. }
    destruct (arr_shape x) as [|n sx], (arr_data x) as [|a [|a' dx]],
             (arr_shape y) as [|m sy], (arr_data y) as [|b [|b' dy]];
      intros E; try discriminate; injection E as <-; simpl;
      repeat (constructor; [apply HP|]);
      first [apply Hleft | apply (Hright b) | constructor].
Qed.


(** The constructor of a bounded integer spec, for a minimum of the shape
    of the spec and bounds that the dtype holds: it succeeds exactly when
    no element of the minimum lies above the maximum of its position. *)
Lemma new_BoundedArraySpec_Z (shape : list nat) (dt : dtype)
    (minimum maximum : ndarray Z) (name : option string) :
  has_shape shape minimum -> fits shape maximum ->
  Forall (in_range dt) (arr_data minimum) ->
  Forall (in_range dt) (arr_data maximum) ->
  ((forall i a b,
      nth_error (arr_data minimum) i = Some a -> item maximum i = Some b ->
      (a <= b)%Z) ->
   array_spec.new_BoundedArraySpec Z.gtb (in_rangeb dt) shape dt
     minimum maximum name =
     Ok (array_spec.mkBoundedArraySpec (array_spec.mkArraySpec shape dt name)
           (Some minimum) (Some maximum))) /\
  ((exists i a b,
      nth_error (arr_data minimum) i = Some a /\ item maximum i = Some b /\
      (b < a)%Z) ->
   array_spec.new_BoundedArraySpec Z.gtb (in_rangeb dt) shape dt
     minimum maximum name =
     Raise ValueError).
Proof.
  intros Hmin Hmax Rmin Rmax.
  destruct (broadcast_to_fits (or_introl Hmin)) as (l1 & E1 & _).
  destruct (broadcast_to_fits Hmax) as (l2 & E2 & _).
  destruct (elementwise_full Z.gtb Hmin Hmax) as (z & Ez & Hz & Hat).
  unfold array_spec.new_BoundedArraySpec. rewrite E1, E2. cbn [bind].
  rewrite (forallb_in_range Rmin), (forallb_in_range Rmax). cbn [andb negb].
  rewrite Ez. cbn [bind].
  split.
  - intros Hle. rewrite existsb_id_false; [reflexivity|].
    intros i Hi.
    assert (Hlt : i < size shape).
    { destruct Hz as [_ Hlen]. rewrite <- Hlen. apply nth_error_Some. congruence. }
    destruct (nth_error (arr_data minimum) i) as [a|] eqn:Ha.
    2:{ apply nth_error_None in Ha. destruct Hmin as [_ Hlen]. lia. }
    destruct (item_fits Hmax Hlt) as [b Hb].
    rewrite (Hat i a b Ha Hb) in Hi. injection Hi as Hgt.
    pose proof (Hle i a b Ha Hb). apply Z.gtb_lt in Hgt. lia.
  - intros (i & a & b & Ha & Hb & Hlt).
    rewrite (@existsb_id_true (arr_data z) i); [reflexivity|].
    rewrite (Hat i a b Ha Hb). f_equal. apply Z.gtb_lt. exact Hlt.
Qed.


(** ** [ActionOffsetWrapper] *)

Lemma wrap_in_range (dt : dtype) (z : Z) : in_range dt z -> wrap dt z = z.
Proof.
  unfold in_range, wrap.
  destruct (int_range dt) as [[lo hi]|]; [|reflexivity].
  intros Hz. rewrite Z.mod_small; lia.
Qed.

Lemma int_range_sign (dt : dtype) (lo hi : Z) :
  int_range dt = Some (lo, hi) -> (lo <= 0 <= hi)%Z.
Proof.
  destruct dt; simpl; intros H; try discriminate;
    injection H as <- <-; lia.
Qed.

(** A wrapped value is a value of the dtype, and so is 0. *)
Lemma wrap_range (dt : dtype) (z : Z) : in_range dt (wrap dt z).
Proof.
  unfold in_range, wrap. destruct (int_range dt) as [[lo hi]|] eqn:Hr; [|exact I].
  pose proof (int_range_sign dt Hr) as Hsign.
  pose proof (Z.mod_pos_bound (z - lo) (hi - lo + 1) ltac:(lia)). lia.
Qed.

Lemma zero_in_range (dt : dtype) : in_range dt 0.
Proof.
  unfold in_range. destruct (int_range dt) as [[lo hi]|] eqn:Hr; [|exact I].
  exact (int_range_sign dt Hr).
Qed.

(** An action between 0 and the (wrapped) width of the original interval,
    shifted by the original minimum, lands in the original interval, and the
    addition does not wrap. *)
Lemma offset_action_in_bounds (dt : dtype) (l h a : Z) :
  int_range dt <> None ->
  in_range dt l -> in_range dt h -> (l <= h)%Z ->
  (0 <= a <= wrap dt (h - l))%Z ->
  wrap dt (a + l) = (a + l)%Z /\ (l <= a + l <= h)%Z.
Proof.
  intros Hint Hl Hh Hle Ha.
  assert (Hbound : (a <= h - l)%Z).
  { unfold wrap, in_range in *.
    destruct (int_range dt) as [[lo hi]|] eqn:Hr; [|congruence].
    pose proof (int_range_sign dt Hr) as Hsign.
    destruct (Z_le_gt_dec (h - l) hi) as [Hsmall|Hbig].
    - rewrite Z.mod_small in Ha; lia.
    - assert (Hmod : ((h - l - lo) mod (hi - lo + 1) = h - l - lo - (hi - lo + 1))%Z).
      { symmetry. apply Z.mod_unique with (q := 1%Z); lia. }
      rewrite Hmod in Ha. lia. }
  split; [|lia].
  apply wrap_in_range. unfold in_range in *.
  destruct (int_range dt) as [[lo hi]|]; [lia | exact I].
Qed.

Lemma item_zeros (shape : list nat) (i : nat) :
  i < size shape -> item (ActionOffsetWrapper.zeros shape) i = Some 0%Z.
Proof.
  intros Hi.
  assert (Hz : has_shape shape (ActionOffsetWrapper.zeros shape)).
  { split; [reflexivity|]. simpl. apply repeat_length. }
  rewrite (item_full Hz Hi). simpl.
  now rewrite nth_error_repeat.
Qed.

Section ActionOffsetFacts.

Context {St num obs ospec img : Type}.
Variable env :
  py_environment.Base St (ndarray Z) num obs (nest (array_spec.spec Z)) ospec img.

(** [action_spec()] for a single bounded spec whose bounds fit its shape:
    the maximum is the difference of the bounds computed in the dtype, and
    the constructor of the new spec refuses it when it is negative in some
    position. *)
Lemma ActionOffset_action_spec_cases
    (e : St) (spec : array_spec.BoundedArraySpec Z) (lo hi : ndarray Z) :
  let shape := array_spec.shape (array_spec.array_spec_of spec) in
  let dt := array_spec.dtype_of (array_spec.array_spec_of spec) in
  py_environment.action_spec env e = leaf (array_spec.Bounded spec) ->
  array_spec.minimum spec = Some lo ->
  array_spec.maximum spec = Some hi ->
  fits shape lo -> fits shape hi ->
  exists offset_maximum,
    ActionOffsetWrapper.np_subtract dt hi lo = Ok offset_maximum /\
    fits shape offset_maximum /\
    (forall i l h,
       i < size shape -> item lo i = Some l -> item hi i = Some h ->
       item offset_maximum i = Some (wrap dt (h - l))) /\
    ((forall i l h,
        i < size shape -> item lo i = Some l -> item hi i = Some h ->
        (0 <= wrap dt (h - l))%Z) ->
     ActionOffsetWrapper.action_spec env {| ActionOffsetWrapper._env := e |} =
       Ok (array_spec.mkBoundedArraySpec (array_spec.mkArraySpec shape dt None)
             (Some (ActionOffsetWrapper.zeros shape)) (Some offset_maximum))) /\
    ((exists i l h,
        i < size shape /\ item lo i = Some l /\ item hi i = Some h /\
        (wrap dt (h - l) < 0)%Z) ->
     ActionOffsetWrapper.action_spec env {| ActionOffsetWrapper._env := e |} =
       Raise ValueError).
Proof.
  intros shape dt Hspec Hlo Hhi Hfl Hfh.
  destruct (elementwise_fits (fun a b => wrap dt (a - b)) Hfh Hfl)
    as (offmax & Eoff & Hfo & Hoff).
  exists offmax. split; [exact Eoff|]. split; [exact Hfo|].
  split; [intros i l h Hi Hl Hh; now apply Hoff|].
  assert (Hzeros : has_shape shape (ActionOffsetWrapper.zeros shape)).
  { split; [reflexivity|]. simpl. apply repeat_length. }
  assert (Hunfold :
            ActionOffsetWrapper.action_spec env {| ActionOffsetWrapper._env := e |} =
            array_spec.new_BoundedArraySpec Z.gtb (in_rangeb dt) shape dt
              (ActionOffsetWrapper.zeros shape) offmax None).
  { unfold ActionOffsetWrapper.action_spec.
    cbn [ActionOffsetWrapper._env]. rewrite Hspec. simpl.
    rewrite Hhi, Hlo. fold dt shape.
    unfold ActionOffsetWrapper.np_subtract. rewrite Eoff. reflexivity. }
  rewrite Hunfold.
  assert (Rzeros : Forall (in_range dt)
                     (arr_data (ActionOffsetWrapper.zeros shape))).
  { apply Forall_forall. intros z Hz. simpl in Hz.
    apply repeat_spec in Hz. subst z. apply zero_in_range. }
  assert (Roff : Forall (in_range dt) (arr_data offmax)).
  { apply (elementwise_Forall (fun a b => wrap dt (a - b)) (in_range dt) hi lo);
      [intros a b; apply wrap_range | exact Eoff]. }
  destruct (@new_BoundedArraySpec_Z shape dt (ActionOffsetWrapper.zeros shape)
              offmax None Hzeros Hfo Rzeros Roff) as [Hok Hcrossed].
  split.
  - intros Hpos. apply Hok. intros i a b Ha Hb.
    assert (Hi : i < size shape).
    { destruct Hzeros as [_ Hlen]. rewrite <- Hlen. apply nth_error_Some. congruence. }
    rewrite <- (item_full Hzeros Hi), (@item_zeros shape i Hi) in Ha.
    injection Ha as <-.
    destruct (item_fits Hfl Hi) as [l Hl]. destruct (item_fits Hfh Hi) as [h Hh].
    rewrite (Hoff i h l Hi Hh Hl) in Hb. injection Hb as <-.
    now apply (Hpos i l h).
  - intros (i & l & h & Hi & Hl & Hh & Hneg). apply Hcrossed.
    exists i, 0%Z, (wrap dt (h - l)).
    split; [now rewrite <- (item_full Hzeros Hi), (@item_zeros shape i Hi)|].
    split; [now apply Hoff | exact Hneg].
Qed.

(** C5, amended. For an environment whose action spec is a single bounded
    discrete spec (bounds of the spec's dtype, the minimum not above the
    maximum) whose dtype holds the difference of the bounds in every
    position, [action_spec()] has the shape and dtype of the original spec,
    minimum all zeros and maximum the original maximum minus the original
    minimum, and [step] forwards the action plus the original minimum: an
    action valid under the offset spec is forwarded as an action valid
    under the original spec, 0 as the original minimum. *)
Theorem ActionOffset_spec_and_step
    (e : St) (spec : array_spec.BoundedArraySpec Z) (lo hi : ndarray Z) :
  let shape := array_spec.shape (array_spec.array_spec_of spec) in
  let dt := array_spec.dtype_of (array_spec.array_spec_of spec) in
  py_environment.action_spec env e = leaf (array_spec.Bounded spec) ->
  array_spec.minimum spec = Some lo ->
  array_spec.maximum spec = Some hi ->
  array_spec.is_discrete (array_spec.Bounded spec) = true ->
  ordered_bounds Z.le shape lo hi ->
  (forall i l, item lo i = Some l -> in_range dt l) ->
  (forall i h, item hi i = Some h -> in_range dt h) ->
  (forall i l h,
     i < size shape -> item lo i = Some l -> item hi i = Some h ->
     in_range dt (h - l)) ->
  exists offset_maximum,
    ActionOffsetWrapper.__init__ env e = Ok {| ActionOffsetWrapper._env := e |} /\
    ActionOffsetWrapper.action_spec env {| ActionOffsetWrapper._env := e |} =
      Ok (array_spec.mkBoundedArraySpec (array_spec.mkArraySpec shape dt None)
            (Some (ActionOffsetWrapper.zeros shape)) (Some offset_maximum)) /\
    (forall i z,
       nth_error (arr_data (ActionOffsetWrapper.zeros shape)) i = Some z -> z = 0%Z) /\
    fits shape offset_maximum /\
    (forall i l h,
       i < size shape -> item lo i = Some l -> item hi i = Some h ->
       item offset_maximum i = Some (h - l)%Z) /\
    (forall action,
       within Z.le shape (ActionOffsetWrapper.zeros shape) offset_maximum action ->
       exists forwarded,
         ActionOffsetWrapper.step env action {| ActionOffsetWrapper._env := e |} =
           Ok (fst (py_environment.step env forwarded e),
               {| ActionOffsetWrapper._env :=
                    snd (py_environment.step env forwarded e) |}) /\
         within Z.le shape lo hi forwarded /\
         (forall i a l,
            nth_error (arr_data action) i = Some a -> item lo i = Some l ->
            nth_error (arr_data forwarded) i = Some (a + l)%Z) /\
         (forall i l,
            nth_error (arr_data action) i = Some 0%Z -> item lo i = Some l ->
            nth_error (arr_data forwarded) i = Some l)).
Proof.
  intros shape dt Hspec Hlo Hhi Hdisc (Hfl & Hfh & Hord) Hrl Hrh Hdiff.
  assert (Hint : int_range dt <> None).
  { unfold array_spec.is_discrete in Hdisc. simpl in Hdisc. fold dt in Hdisc.
    destruct (int_range dt); [discriminate | discriminate]. }
  destruct (@ActionOffset_action_spec_cases e spec lo hi Hspec Hlo Hhi Hfl Hfh)
    as (offmax & Eoff & Hfo & Hoff & Hok & _).
  fold shape dt in Eoff, Hfo, Hoff, Hok.
  assert (Hexact : forall i l h,
             i < size shape -> item lo i = Some l -> item hi i = Some h ->
             wrap dt (h - l) = (h - l)%Z /\ (0 <= h - l)%Z).
  { intros i l h Hi Hl Hh. split.
    - apply wrap_in_range. now apply (Hdiff i).
    - pose proof (Hord i l h Hi Hl Hh). lia. }
  exists offmax.
  split.
  { unfold ActionOffsetWrapper.__init__. rewrite Hspec. simpl. fold dt.
    rewrite Hdisc. reflexivity. }
  split.
  { apply Hok. intros i l h Hi Hl Hh.
    destruct (Hexact i l h Hi Hl Hh) as [-> ?]. assumption. }
  split.
  { intros i z Hz. simpl in Hz. apply nth_error_In in Hz.
    now apply repeat_spec in Hz. }
  split; [exact Hfo|].
  split.
  { intros i l h Hi Hl Hh. rewrite (Hoff i l h Hi Hl Hh).
    now destruct (Hexact i l h Hi Hl Hh) as [-> _]. }
  intros action [Hsa Hwa].
  destruct (elementwise_full (fun a b => wrap dt (a + b)) Hsa Hfl)
    as (fwd & Efwd & Hsf & Hfwd).
  assert (Hkey : forall i a l,
             nth_error (arr_data action) i = Some a -> item lo i = Some l ->
             nth_error (arr_data fwd) i = Some (a + l)%Z /\
             forall h, item hi i = Some h -> (l <= a + l <= h)%Z).
  { intros i a l Ha Hl.
    assert (Hi : i < size shape).
    { destruct Hsa as [_ Hlen]. rewrite <- Hlen. apply nth_error_Some. congruence. }
    destruct (item_fits Hfh Hi) as [h Hh].
    destruct (Hwa i a 0%Z (wrap dt (h - l)) Ha (@item_zeros shape i Hi)) as [H0 Hmax].
    { now apply Hoff. }
    destruct (@offset_action_in_bounds dt l h a Hint (Hrl i l Hl) (Hrh i h Hh)
                (Hord i l h Hi Hl Hh) (conj H0 Hmax)) as [Hw Hin].
    split.
    - rewrite <- Hw. now apply Hfwd.
    - intros h' Hh'. congruence. }
  exists fwd. split.
  { unfold ActionOffsetWrapper.step.
    cbn [ActionOffsetWrapper._env]. rewrite Hspec. simpl. rewrite Hlo.
    fold dt. unfold ActionOffsetWrapper.np_add. rewrite Efwd. simpl.
    now destruct (py_environment.step env fwd e). }
  split.
  { split; [exact Hsf|].
    intros i x l h Hx Hl Hh.
    assert (Hi : i < length (arr_data action)).
    { destruct Hsa as [_ Hlen], Hsf as [_ Hlen']. rewrite Hlen, <- Hlen'.
      apply nth_error_Some. congruence. }
    destruct (nth_error (arr_data action) i) as [a|] eqn:Ha;
      [|apply nth_error_None in Ha; lia].
    destruct (Hkey i a l Ha Hl) as [Hv Hb].
    rewrite Hv in Hx. injection Hx as <-. now apply Hb. }
  split.
  - intros i a l Ha Hl. now apply Hkey.
  - intros i l Ha Hl. apply (Hkey i 0%Z l Ha Hl).
Qed.

End ActionOffsetFacts.

(** ** Nested structures, leaf by leaf *)

(** [map_structure_up_to f] succeeds on structures whose leaves [f] accepts,
    and relates the three structures leaf by leaf. *)
Lemma map_structure_up_to_rel {A B C : Type} (f : A -> B -> result C)
    (Q : A -> B -> Prop) (P : A -> B -> C -> Prop) :
  (forall a b, Q a b -> exists c, f a b = Ok c /\ P a b c) ->
  forall (shallow : nest A) (deep : nest B),
    nest_rel2 Q shallow deep ->
    exists out,
      map_structure_up_to f shallow deep = Ok out /\
      nest_rel3 P shallow deep out.
Proof.
  intros Hf shallow.
  induction shallow as [a|items IH|items IH] using nest_induction; intros deep Hrel.
  - destruct deep as [b| |]; simpl in Hrel; try contradiction.
    destruct (Hf a b Hrel) as (c & E & Hc).
    exists (leaf c). simpl. rewrite E. now split.
  - destruct deep as [|items'|]; simpl in Hrel; try contradiction.
    assert (Hgo : exists cs,
               zip_results (map_structure_up_to f) items items' = Ok cs /\
               all3 (nest_rel3 P) items items' cs).
    { revert items' Hrel.
      induction IH as [|x tl Hx _ IHtl]; intros [|y tl'] Hrel; simpl in Hrel;
        try contradiction.
      - exists []. now split.
      - destruct Hrel as [Hxy Hrest].
        destruct (Hx y Hxy) as (c & Ec & Hc).
        destruct (IHtl tl' Hrest) as (cs & Ecs & Hcs).
        exists (c :: cs). simpl. rewrite Ec. simpl. rewrite Ecs. now split. }
    destruct Hgo as (cs & Ecs & Hcs).
    exists (nseq cs). simpl. rewrite Ecs. now split.
  - destruct deep as [| |items']; simpl in Hrel; try contradiction.
    destruct Hrel as [Hlen Hrel].
    assert (Hgo : exists cs,
               dict_results (map_structure_up_to f) items' items = Ok cs /\
               all_items3 (nest_rel3 P) items' items cs).
    { clear Hlen.
      induction IH as [|[k x] tl Hx _ IHtl]; simpl in Hrel.
      - exists []. now split.
      - destruct Hrel as [(y & Hy & Hxy) Hrest]. simpl in Hx.
        destruct (Hx y Hxy) as (c & Ec & Hc).
        destruct (IHtl Hrest) as (cs & Ecs & Hcs).
        exists ((k, c) :: cs). simpl. rewrite Hy, Ec. simpl. rewrite Ecs.
        split; [reflexivity|]. simpl. split; [reflexivity|].
        split; [now exists y | exact Hcs]. }
    destruct Hgo as (cs & Ecs & Hcs).
    exists (ndict cs). simpl. rewrite Hlen, Nat.eqb_refl. simpl. rewrite Ecs.
    now split.
Qed.

(** ** [ActionClipWrapper] *)

Ltac float_cases :=
  cbn;
  repeat match goal with
         | |- context [Qlt_le_dec ?a ?b] => destruct (Qlt_le_dec a b); cbn
         end.

(** A clipped value lies within bounds that describe an interval unless the
    value is [nan], which stays [nan]; a value within the bounds is its own
    clipped value. *)
Lemma clip_value_spec (lo hi : option np_float) (x : np_float) :
  (interval lo hi -> np_isnan x = false ->
   above lo (clip_value lo hi x) /\ below hi (clip_value lo hi x)) /\
  (np_isnan x = true -> clip_value lo hi x = NaN) /\
  (above lo x -> below hi x -> clip_value lo hi x = x).
Proof.
  unfold clip_value, interval, above, below, float_le,
    ActionClipWrapper.np_maximum, ActionClipWrapper.np_minimum.
  destruct lo as [[l| | |]|], hi as [[h| | |]|], x as [x| | |];
    float_cases; repeat split; intros;
    try reflexivity; try discriminate; try (exfalso; lra).
Qed.

(** [_clip_to_spec] accepts an action array that matches the spec and clips
    it element by element. *)
Lemma clip_to_spec_spec (act_spec : array_spec.spec np_float)
    (act : ndarray np_float) :
  matches_spec act_spec act ->
  exists out,
    ActionClipWrapper._clip_to_spec act_spec act = Ok out /\
    clipped_to_spec act_spec act out.
Proof.
  destruct act_spec as [s|s]; simpl; [contradiction|].
  set (shape := array_spec.shape (array_spec.array_spec_of s)).
  intros (Hact & Hlo & Hhi & Hint).
  assert (Hidx : forall i x, nth_error (arr_data act) i = Some x -> i < size shape).
  { intros i x Hx. destruct Hact as [_ Hlen]. rewrite <- Hlen.
    apply nth_error_Some. congruence. }
  assert (Hfinish : forall out,
             has_shape shape out ->
             (forall i x,
                nth_error (arr_data act) i = Some x ->
                nth_error (arr_data out) i =
                Some (clip_value (bound_at (array_spec.minimum s) i)
                        (bound_at (array_spec.maximum s) i) x)) ->
             arr_shape out = arr_shape act /\
             length (arr_data out) = length (arr_data act) /\
             forall i x,
               nth_error (arr_data act) i = Some x ->
               let lo := bound_at (array_spec.minimum s) i in
               let hi := bound_at (array_spec.maximum s) i in
               exists y,
                 nth_error (arr_data out) i = Some y /\
                 y = clip_value lo hi x /\
                 (np_isnan x = false -> above lo y /\ below hi y) /\
                 (np_isnan x = true -> y = NaN) /\
                 (above lo x -> below hi x -> y = x)).
  { intros out [Hso Hlen] Hout. destruct Hact as [Hsa Hla].
    split; [congruence|]. split; [congruence|].
    intros i x Hx lo hi. exists (clip_value lo hi x).
    split; [now apply Hout|]. split; [reflexivity|].
    destruct (clip_value_spec lo hi x) as (Hin & Hnan & Hid).
    split; [exact (Hin (Hint i (Hidx i x Hx)))|].
    split; [exact Hnan | exact Hid]. }
  clearbody shape. clear Hint.
  unfold ActionClipWrapper._clip_to_spec. simpl.
  destruct (array_spec.minimum s) as [lo|] eqn:Emin,
           (array_spec.maximum s) as [hi|] eqn:Emax; simpl.
  - destruct (elementwise_full ActionClipWrapper.np_maximum Hact (Hlo lo eq_refl))
      as (mid & Emid & Hmid & Hmid_at).
    destruct (elementwise_full ActionClipWrapper.np_minimum Hmid (Hhi hi eq_refl))
      as (out & Eout & Hout & Hout_at).
    exists out. rewrite Emid. simpl. split; [exact Eout|].
    apply Hfinish; [exact Hout|].
    intros i x Hx. pose proof (Hidx i x Hx) as Hi.
    destruct (item_fits (Hlo lo eq_refl) Hi) as [l Hl].
    destruct (item_fits (Hhi hi eq_refl) Hi) as [h Hh].
    cbn [bound_at]. rewrite Hl, Hh. unfold clip_value.
    apply Hout_at; [|exact Hh]. now apply Hmid_at.
  - destruct (elementwise_full ActionClipWrapper.np_maximum Hact (Hlo lo eq_refl))
      as (out & Eout & Hout & Hout_at).
    exists out. split; [exact Eout|].
    apply Hfinish; [exact Hout|].
    intros i x Hx. pose proof (Hidx i x Hx) as Hi.
    destruct (item_fits (Hlo lo eq_refl) Hi) as [l Hl].
    cbn [bound_at]. rewrite Hl. unfold clip_value.
    now apply Hout_at.
  - destruct (elementwise_full ActionClipWrapper.np_minimum Hact (Hhi hi eq_refl))
      as (out & Eout & Hout & Hout_at).
    exists out. split; [exact Eout|].
    apply Hfinish; [exact Hout|].
    intros i x Hx. pose proof (Hidx i x Hx) as Hi.
    destruct (item_fits (Hhi hi eq_refl) Hi) as [h Hh].
    cbn [bound_at]. rewrite Hh. unfold clip_value.
    now apply Hout_at.
  - exists act. split; [reflexivity|].
    apply Hfinish; [exact Hact|]. intros i x Hx.
    exact Hx.
Qed.

Section ActionClipFacts.

Context {St num obs ospec img : Type}.
Variable env :
  py_environment.Base St (nest (ndarray np_float)) num obs
    (nest (array_spec.spec np_float)) ospec img.

(** C6, amended. For an action whose arrays match the bounded specs of the
    wrapped environment's action spec (they have the shapes of the specs,
    whose bounds fit those shapes, are not [nan] and have the minimum not
    above the maximum), [step] forwards the structure of the clipped
    arrays: each forwarded array is the action's array clipped element by
    element to the bounds of its spec (unchanged where both bounds are
    [None]); each forwarded element that comes from an element other than
    [nan] lies within the bounds, a [nan] element is forwarded as [nan],
    and an element already within the bounds is forwarded as it is. *)
Theorem ActionClip_step_spec (self : ActionClipWrapper.state St)
    (action : nest (ndarray np_float)) :
  nest_rel2 matches_spec
    (py_environment.action_spec env (ActionClipWrapper._env self)) action ->
  exists clipped_actions,
    map_structure_up_to ActionClipWrapper._clip_to_spec
      (py_environment.action_spec env (ActionClipWrapper._env self)) action =
      Ok clipped_actions /\
    ActionClipWrapper.step env action self =
      Ok (fst (py_environment.step env clipped_actions (ActionClipWrapper._env self)),
          {| ActionClipWrapper._env :=
               snd (py_environment.step env clipped_actions
                      (ActionClipWrapper._env self)) |}) /\
    nest_rel3 clipped_to_spec
      (py_environment.action_spec env (ActionClipWrapper._env self))
      action clipped_actions.
Proof.
  intros Hmatch.
  destruct (map_structure_up_to_rel ActionClipWrapper._clip_to_spec
              matches_spec clipped_to_spec clip_to_spec_spec _ _ Hmatch)
    as (clipped & Eclip & Hclip).
  exists clipped. split; [exact Eclip|]. split; [|exact Hclip].
  unfold ActionClipWrapper.step. rewrite Eclip. simpl.
  now destruct (py_environment.step env clipped (ActionClipWrapper._env self)).
Qed.

End ActionClipFacts.

(** ** [ActionDiscretizeWrapper] *)






Section ActionDiscretizeFacts.

Context {St num obs ospec img : Type}.
Variable env :
  py_environment.Base St (nest (ndarray Q)) num obs
    (nest (array_spec.spec Q)) ospec img.


End ActionDiscretizeFacts.

(** ** [FlattenObservationsWrapper] *)

Lemma insert_by_key_map {V W : Type} (g : V -> W) (k : string) (v : V)
    (l : list (string * V)) :
  insert_by_key (k, g v) (map (fun kv => (fst kv, g (snd kv))) l) =
  map (fun kv => (fst kv, g (snd kv))) (insert_by_key (k, v) l).
Proof.
  induction l as [|[k' v'] tl IH]; [reflexivity|].
  simpl. destruct (String.leb k k'); [reflexivity|].
  simpl. now rewrite IH.
Qed.

Lemma sort_by_key_map {V W : Type} (g : V -> W) (l : list (string * V)) :
  sort_by_key (map (fun kv => (fst kv, g (snd kv))) l) =
  map (fun kv => (fst kv, g (snd kv))) (sort_by_key l).
Proof.
  induction l as [|[k v] tl IH]; [reflexivity|].
  unfold sort_by_key in *. cbn [map fold_right fst snd].
  rewrite IH. apply insert_by_key_map.
Qed.

Lemma filter_whitelisted_map {V W : Type} (g : V -> W) (whitelist : list string)
    (l : list (string * V)) :
  filter (FlattenObservationsWrapper.whitelisted whitelist)
    (map (fun kv => (fst kv, g (snd kv))) l) =
  map (fun kv => (fst kv, g (snd kv)))
    (filter (FlattenObservationsWrapper.whitelisted whitelist) l).
Proof.
  induction l as [|[k v] tl IH]; [reflexivity|].
  cbn [map filter]. rewrite IH.
  unfold FlattenObservationsWrapper.whitelisted. cbn [fst snd].
  now destruct (existsb (String.eqb k) whitelist).
Qed.

(** The leaves of a dict of leaves, in flattening order, are its values in
    the order of the sorted keys. *)
Lemma flatten_dict_of {V : Type} (items : list (string * V)) :
  flatten (dict_of items) = map snd (sort_by_key items).
Proof.
  unfold dict_of. cbn [flatten]. rewrite map_map. cbn [fst snd flatten].
  rewrite (sort_by_key_map (fun v => [v]) items), map_map. cbn [snd].
  induction (sort_by_key items) as [|kv tl IH]; [reflexivity|].
  simpl. now rewrite IH.
Qed.

Lemma map_structure_dict_of {V W : Type} (g : V -> W) (items : list (string * V)) :
  map_structure g (dict_of items) = dict_of (map (fun kv => (fst kv, g (snd kv))) items).
Proof.
  unfold dict_of. cbn [map_structure]. now rewrite !map_map.
Qed.

Lemma filter_dict_of {V : Type} (whitelist : list string) (items : list (string * V)) :
  FlattenObservationsWrapper._filter_observations whitelist (dict_of items) =
  Ok (dict_of (filter (FlattenObservationsWrapper.whitelisted whitelist) items)).
Proof.
  unfold FlattenObservationsWrapper._filter_observations, dict_of.
  now rewrite (filter_whitelisted_map (@leaf V)).
Qed.

Lemma sort_by_key_nil {V : Type} (l : list (string * V)) :
  sort_by_key l = [] -> l = [].
Proof.
  destruct l as [|kv tl]; [reflexivity|].
  unfold sort_by_key. cbn [fold_right].
  destruct (fold_right insert_by_key [] tl) as [|kv' tl']; cbn [insert_by_key].
  - discriminate.
  - destruct (String.leb (fst kv) (fst kv')); discriminate.
Qed.

Lemma sequence_results_Ok {A B : Type} (f : A -> result B) (g : A -> B)
    (l : list A) :
  (forall x, In x l -> f x = Ok (g x)) ->
  FlattenObservationsWrapper.sequence_results (map f l) = Ok (map g l).
Proof.
  induction l as [|x tl IH]; intros H; [reflexivity|].
  simpl. rewrite (H x (or_introl eq_refl)). simpl.
  rewrite IH by (intros y Hy; apply H; now right). reflexivity.
Qed.

Lemma nodup_constant (dt : dtype) (l : list dtype) :
  l <> [] -> Forall (fun d => d = dt) l -> nodup dtype_eq_dec l = [dt].
Proof.
  induction l as [|d tl IH]; intros Hne Hall; [congruence|].
  inversion Hall as [|? ? Hd Htl]; subst. simpl.
  destruct tl as [|d' tl'].
  - simpl. reflexivity.
  - rewrite IH by (congruence || assumption).
    destruct (in_dec dtype_eq_dec dt (d' :: tl')) as [_|Hnot]; [reflexivity|].
    exfalso. apply Hnot. inversion Htl; subst. now left.
Qed.

Lemma length_concat_map {X Y : Type} (f : X -> list Y) (l : list X) :
  length (concat (map f l)) = list_sum (map (fun x => length (f x)) l).
Proof.
  induction l as [|x tl IH]; [reflexivity|].
  simpl. now rewrite length_app, IH.
Qed.

Lemma length_flat_map_constant {X Y : Type} (f : X -> list Y) (n : nat)
    (l : list X) :
  (forall x, In x l -> length (f x) = n) ->
  length (flat_map f l) = length l * n.
Proof.
  induction l as [|x tl IH]; intros H; [reflexivity|].
  simpl. rewrite length_app, (H x (or_introl eq_refl)).
  rewrite IH by (intros y Hy; apply H; now right). reflexivity.
Qed.

Lemma list_sum_map_ext {X : Type} (f g : X -> nat) (l : list X) :
  (forall x, In x l -> f x = g x) ->
  list_sum (map f l) = list_sum (map g l).
Proof.
  induction l as [|x tl IH]; intros H; [reflexivity|].
  simpl. rewrite (H x (or_introl eq_refl)).
  rewrite IH by (intros y Hy; apply H; now right). reflexivity.
Qed.

Lemma row_length {A : Type} (b rows n : nat) (data : list A) :
  b < rows -> length data = rows * n ->
  length (FlattenObservationsWrapper.row b n data) = n.
Proof.
  intros Hb Hlen. unfold FlattenObservationsWrapper.row.
  rewrite length_firstn, length_skipn, Hlen. nia.
Qed.

(** Observation arrays that conform to their specs have the sizes the specs
    announce. *)
Lemma conforms_unbatched_sizes {A : Type}
    (obs : list (string * ndarray A)) (specs : list (string * array_spec.ArraySpec)) :
  Forall2 (conforms []) obs specs ->
  list_sum (map (fun kv => size (arr_shape (snd kv))) obs) =
    list_sum (map (fun kv => size (array_spec.shape (snd kv))) specs) /\
  list_sum (map (fun kv => length (arr_data (snd kv))) obs) =
    list_sum (map (fun kv => size (array_spec.shape (snd kv))) specs).
Proof.
  induction 1 as [|o s obs specs [_ [Hs Hlen]] _ [IH1 IH2]]; [now split|].
  simpl in *. rewrite IH1, IH2, Hlen, Hs. now split.
Qed.

Lemma conforms_batched_sizes {A : Type} (rows : nat)
    (obs : list (string * ndarray A)) (specs : list (string * array_spec.ArraySpec)) :
  Forall2 (conforms [rows]) obs specs ->
  list_sum (map (fun kv => size (tl (arr_shape (snd kv)))) obs) =
    list_sum (map (fun kv => size (array_spec.shape (snd kv))) specs) /\
  forall kv,
    In kv obs ->
    arr_shape (snd kv) = rows :: tl (arr_shape (snd kv)) /\
    length (arr_data (snd kv)) = rows * size (tl (arr_shape (snd kv))).
Proof.
  induction 1 as [|o s obs specs [_ [Hs Hlen]] _ [IH1 IH2]].
  - split; [reflexivity | intros kv []].
  - simpl in Hs, Hlen. split.
    + simpl. rewrite IH1, Hs. reflexivity.
    + intros kv [<-|Hin]; [|now apply IH2].
      rewrite Hs. simpl. split; [reflexivity | exact Hlen].
Qed.

(** Packing the kept observations of an environment that is not batched. *)
Lemma pack_unbatched {A : Type}
    (obs : list (string * ndarray A)) (specs : list (string * array_spec.ArraySpec)) :
  obs <> [] ->
  Forall2 (conforms []) obs specs ->
  exists packed,
    FlattenObservationsWrapper.concatenate
      (map (@FlattenObservationsWrapper.reshape_flat A) (map snd obs)) 0 = Ok packed /\
    packed_observation []
      (list_sum (map (fun kv => size (array_spec.shape (snd kv))) specs))
      obs packed.
Proof.
  intros Hne Hconf.
  destruct (conforms_unbatched_sizes Hconf) as [Hsizes Hlens].
  set (arrays := map (@FlattenObservationsWrapper.reshape_flat A) (map snd obs)).
  assert (H1d : forallb (fun x => Nat.eqb (length (arr_shape x)) 1) arrays = true).
  { apply forallb_forall. intros x Hx. unfold arrays in Hx.
    apply in_map_iff in Hx. destruct Hx as (a & <- & _). reflexivity. }
  exists (mkArray [list_sum (map (fun x => nth 0 (arr_shape x) 0) arrays)]
            (concat (map (@arr_data A) arrays))).
  split.
  { unfold FlattenObservationsWrapper.concatenate.
    destruct arrays as [|first rest] eqn:E.
    - destruct obs; [congruence | discriminate].
    - now rewrite H1d. }
  assert (Hdata : concat (map (@arr_data A) arrays) =
                  concat (map (fun kv => arr_data (snd kv)) obs)).
  { unfold arrays. now rewrite !map_map. }
  assert (Htotal : list_sum (map (fun x => nth 0 (arr_shape x) 0) arrays) =
                   list_sum (map (fun kv => size (array_spec.shape (snd kv))) specs)).
  { unfold arrays. rewrite !map_map. exact Hsizes. }
  unfold packed_observation. cbn [arr_shape arr_data app].
  rewrite Htotal, Hdata. split; [reflexivity|]. split; [|reflexivity].
  rewrite length_concat_map, Hlens. simpl. lia.
Qed.

(** Packing the kept observations of a batched environment. *)
Lemma pack_batched {A : Type} (rows : nat)
    (obs : list (string * ndarray A)) (specs : list (string * array_spec.ArraySpec)) :
  rows <> 0 ->
  obs <> [] ->
  Forall2 (conforms [rows]) obs specs ->
  exists flat packed,
    FlattenObservationsWrapper.sequence_results
      (map (@FlattenObservationsWrapper.reshape_batch A) (map snd obs)) = Ok flat /\
    FlattenObservationsWrapper.concatenate flat 1 = Ok packed /\
    packed_observation [rows]
      (list_sum (map (fun kv => size (array_spec.shape (snd kv))) specs))
      obs packed.
Proof.
  intros Hrows Hne Hconf.
  destruct (conforms_batched_sizes Hconf) as [Hsizes Hshape].
  set (g := fun a : ndarray A => mkArray [rows; size (tl (arr_shape a))] (arr_data a)).
  set (flat := map g (map snd obs)).
  assert (Eflat : FlattenObservationsWrapper.sequence_results
                    (map (@FlattenObservationsWrapper.reshape_batch A) (map snd obs)) =
                  Ok flat).
  { apply sequence_results_Ok. intros a Ha.
    apply in_map_iff in Ha. destruct Ha as (kv & <- & Hkv).
    destruct (Hshape kv Hkv) as [Hs _].
    unfold FlattenObservationsWrapper.reshape_batch. rewrite Hs.
    destruct (Nat.eqb_spec rows 0) as [?|_]; [congruence|]. reflexivity. }
  assert (H2d : forallb (fun x => Nat.eqb (length (arr_shape x)) 2) flat = true).
  { apply forallb_forall. intros x Hx. unfold flat in Hx.
    apply in_map_iff in Hx. destruct Hx as (a & <- & _). reflexivity. }
  assert (Hsame : forallb (fun x => Nat.eqb (nth 0 (arr_shape x) 0) rows) flat = true).
  { apply forallb_forall. intros x Hx. unfold flat in Hx.
    apply in_map_iff in Hx. destruct Hx as (a & <- & _). simpl.
    apply Nat.eqb_refl. }
  set (total := list_sum (map (fun kv => size (array_spec.shape (snd kv))) specs)).
  set (data :=
         flat_map
           (fun b =>
              concat
                (map (fun kv =>
                        FlattenObservationsWrapper.row b
                          (size (tl (arr_shape (snd kv)))) (arr_data (snd kv)))
                   obs))
           (seq 0 rows)).
  exists flat, (mkArray [rows; total] data).
  split; [exact Eflat|]. split.
  { unfold FlattenObservationsWrapper.concatenate.
    destruct flat as [|first rest] eqn:E.
    - destruct obs; [congruence | discriminate].
    - rewrite H2d.
      assert (Hfirst : nth 0 (arr_shape first) 0 = rows).
      { simpl in Hsame. apply andb_true_iff in Hsame. destruct Hsame as [H _].
        now apply Nat.eqb_eq. }
      rewrite Hfirst, Hsame, <- E.
      assert (Hcols : list_sum (map (fun x => nth 1 (arr_shape x) 0) flat) = total).
      { unfold flat. rewrite !map_map. cbn [g arr_shape nth]. exact Hsizes. }
      assert (Hdata :
                flat_map
                  (fun b =>
                     flat_map
                       (fun x =>
                          FlattenObservationsWrapper.row b (nth 1 (arr_shape x) 0)
                            (arr_data x)) flat)
                  (seq 0 rows) = data).
      { unfold data. apply flat_map_ext. intros b.
        unfold flat. rewrite flat_map_concat_map, !map_map. reflexivity. }
      now rewrite Hcols, Hdata. }
  unfold packed_observation. cbn [arr_shape arr_data app].
  split; [reflexivity|]. split; [|reflexivity].
  unfold data. rewrite length_flat_map_constant with (n := total).
  - rewrite length_seq. simpl. lia.
  - intros b Hb. apply in_seq in Hb.
    rewrite length_concat_map. unfold total. rewrite <- Hsizes.
    apply list_sum_map_ext. intros kv Hkv.
    destruct (Hshape kv Hkv) as [_ Hlen].
    apply row_length with (rows := rows); [lia | exact Hlen].
Qed.

Lemma flatten_map_structure_dict_of {V W : Type} (g : V -> W)
    (items : list (string * V)) :
  flatten (map_structure g (dict_of items)) = map g (map snd (sort_by_key items)).
Proof.
  rewrite map_structure_dict_of, flatten_dict_of, sort_by_key_map, !map_map.
  reflexivity.
Qed.

Section FlattenObservationsFacts.

Context {St action num A aspec img : Type}.
Variable env :
  py_environment.Base St action num (nest (ndarray A)) aspec
    (nest array_spec.ArraySpec) img.
Variable batched : St -> bool.

(** The observation of a time step whose kept arrays conform to the kept
    specs is packed into one array. *)
Lemma pack_and_filter_spec
    (self : FlattenObservationsWrapper.state St) (e' : St)
    (timestep : TimeStep num (nest (ndarray A)))
    (obs_items : list (string * ndarray A))
    (spec_items : list (string * array_spec.ArraySpec)) (batch : list nat) :
  let whitelist := FlattenObservationsWrapper._observations_whitelist self in
  observation timestep = dict_of obs_items ->
  Forall2 (conforms batch) (kept whitelist obs_items) (kept whitelist spec_items) ->
  batch_dims (batched e') batch ->
  kept whitelist spec_items <> [] ->
  exists packed,
    FlattenObservationsWrapper._pack_and_filter_timestep_observation
      batched self e' timestep =
      Ok (mkTimeStep (step_type timestep) (reward timestep) (discount timestep)
            packed) /\
    packed_observation batch
      (list_sum (map (fun kv => size (array_spec.shape (snd kv)))
                   (kept whitelist spec_items)))
      (kept whitelist obs_items) packed.
Proof.
  intros whitelist Hobs Hconf Hbatch Hne.
  assert (Hobs_ne : kept whitelist obs_items <> []).
  { intros Hnil. rewrite Hnil in Hconf. inversion Hconf. congruence. }
  assert (Hflat : exists observations,
             match whitelist with
             | None => Ok (observation timestep)
             | Some w =>
                 FlattenObservationsWrapper._filter_observations w
                   (observation timestep)
             end = Ok observations /\
             forall is_batched,
               flatten (map_structure
                          (FlattenObservationsWrapper.np_flatten is_batched)
                          observations) =
               map (FlattenObservationsWrapper.np_flatten is_batched)
                 (map snd (kept whitelist obs_items))).
  { rewrite Hobs. destruct whitelist as [w|].
    - exists (dict_of (filter (FlattenObservationsWrapper.whitelisted w) obs_items)).
      split; [apply filter_dict_of|].
      intros is_batched. apply flatten_map_structure_dict_of.
    - exists (dict_of obs_items). split; [reflexivity|].
      intros is_batched. apply flatten_map_structure_dict_of. }
  destruct Hflat as (observations & Efilter & Hflatten).
  unfold FlattenObservationsWrapper._pack_and_filter_timestep_observation.
  fold whitelist. rewrite Efilter. cbn [bind].
  unfold FlattenObservationsWrapper._flatten_nested_observations.
  rewrite Hflatten.
  destruct (batched e') eqn:Eb; destruct batch as [|rows [|? ?]];
    simpl in Hbatch; try contradiction.
  - destruct (pack_batched Hbatch Hobs_ne Hconf)
      as (flat & packed & Eflat & Epacked & Hpacked).
    exists packed. split; [|exact Hpacked].
    unfold FlattenObservationsWrapper.np_flatten.
    replace (map (fun x : ndarray A => FlattenObservationsWrapper.reshape_batch x)
               (map snd (kept whitelist obs_items)))
      with (map (@FlattenObservationsWrapper.reshape_batch A)
              (map snd (kept whitelist obs_items))) by reflexivity.
    rewrite Eflat. cbn [bind]. rewrite Epacked. reflexivity.
  - destruct (pack_unbatched Hobs_ne Hconf) as (packed & Epacked & Hpacked).
    exists packed. split; [|exact Hpacked].
    rewrite (sequence_results_Ok
               (FlattenObservationsWrapper.np_flatten false)
               (@FlattenObservationsWrapper.reshape_flat A)
               (map snd (kept whitelist obs_items)))
      by (intros x _; reflexivity).
    cbn [bind]. rewrite Epacked. reflexivity.
Qed.

(** C7, amended. For an environment whose observation spec is a dict of
    array specs that all share one dtype (kept or not), with at least one of
    them kept and, when a whitelist is given, every key of the whitelist a
    key of that dict: the wrapper is constructed and [observation_spec()] is the
    1-d spec named ['packed_observations'] of that dtype whose length is the
    sum, over the kept specs, of the product of their dimensions; and every
    time step that [step] or [reset] returns for a time step of the wrapped
    environment whose kept observation arrays conform to the kept specs
    carries the step type, reward and discount of that time step and, as
    observation, the kept arrays flattened and concatenated in flattening
    order into one array of that length (per item of the batch, along the
    second axis, when the environment is batched). *)
Theorem FlattenObservations_spec_and_step
    (e : St) (observations_whitelist : option (list string))
    (spec_items : list (string * array_spec.ArraySpec)) (dt : dtype) :
  py_environment.observation_spec env e = dict_of spec_items ->
  Forall (fun kv => array_spec.dtype_of (snd kv) = dt) spec_items ->
  match observations_whitelist with
  | None => True
  | Some whitelist => incl whitelist (map fst spec_items)
  end ->
  kept observations_whitelist spec_items <> [] ->
  let total :=
    list_sum (map (fun kv => size (array_spec.shape (snd kv)))
                (kept observations_whitelist spec_items)) in
  exists self,
    FlattenObservationsWrapper.__init__ env e observations_whitelist = Ok self /\
    FlattenObservationsWrapper.with_env self e = self /\
    FlattenObservationsWrapper.observation_spec self =
      array_spec.mkArraySpec [total] dt (Some "packed_observations"%string) /\
    (forall (e0 : St) (a : action) obs_items batch,
       let timestep := fst (py_environment.step env a e0) in
       let e' := snd (py_environment.step env a e0) in
       observation timestep = dict_of obs_items ->
       Forall2 (conforms batch) (kept observations_whitelist obs_items)
         (kept observations_whitelist spec_items) ->
       batch_dims (batched e') batch ->
       exists packed,
         FlattenObservationsWrapper.step env batched a
           (FlattenObservationsWrapper.with_env self e0) =
           Ok (mkTimeStep (step_type timestep) (reward timestep)
                 (discount timestep) packed,
               FlattenObservationsWrapper.with_env self e') /\
         packed_observation batch total
           (kept observations_whitelist obs_items) packed) /\
    (forall (e0 : St) obs_items batch,
       let timestep := fst (py_environment.reset env e0) in
       let e' := snd (py_environment.reset env e0) in
       observation timestep = dict_of obs_items ->
       Forall2 (conforms batch) (kept observations_whitelist obs_items)
         (kept observations_whitelist spec_items) ->
       batch_dims (batched e') batch ->
       exists packed,
         FlattenObservationsWrapper.reset env batched
           (FlattenObservationsWrapper.with_env self e0) =
           Ok (mkTimeStep (step_type timestep) (reward timestep)
                 (discount timestep) packed,
               FlattenObservationsWrapper.with_env self e') /\
         packed_observation batch total
           (kept observations_whitelist obs_items) packed).
Proof.
  intros Hspec Hdt Hincl Hkept total.
  set (self :=
         {| FlattenObservationsWrapper._env := e;
            FlattenObservationsWrapper._observation_spec_dtype := dt;
            FlattenObservationsWrapper._observations_whitelist :=
              observations_whitelist;
            FlattenObservationsWrapper._flattened_observation_spec :=
              array_spec.mkArraySpec [total] dt
                (Some "packed_observations"%string) |}).
  exists self.
  assert (Hitems : spec_items <> []).
  { intros ->. apply Hkept. unfold kept.
    now destruct observations_whitelist. }
  split.
  { unfold FlattenObservationsWrapper.__init__. rewrite Hspec.
    unfold dict_of at 1 2. rewrite !map_map. cbn [fst snd].
    assert (Hcheck :
              match observations_whitelist with
              | None => Ok tt
              | Some whitelist =>
                  if forallb
                       (fun k => existsb (String.eqb k) (map fst spec_items))
                       whitelist
                  then Ok tt else Raise ValueError
              end = Ok tt).
    { destruct observations_whitelist as [w|]; [|reflexivity].
      assert (Hall : forallb
                       (fun k => existsb (String.eqb k) (map fst spec_items)) w =
                     true).
      { apply forallb_forall. intros k Hk. apply existsb_exists.
        exists k. split; [now apply Hincl | apply String.eqb_refl]. }
      now rewrite Hall. }
    replace (map (fun x : string * array_spec.ArraySpec => fst x) spec_items)
      with (map fst spec_items) by reflexivity.
    rewrite Hcheck. cbn [bind].
    rewrite (sequence_results_Ok
               (fun kv : string * array_spec.ArraySpec =>
                  Ok (array_spec.dtype_of (snd kv)))
               (fun kv => array_spec.dtype_of (snd kv)) spec_items)
      by reflexivity.
    cbn [bind].
    rewrite (@nodup_constant dt).
    2:{ destruct spec_items; [congruence | discriminate]. }
    2:{ apply Forall_forall. intros d Hd. apply in_map_iff in Hd.
        destruct Hd as (kv & <- & Hkv).
        exact (proj1 (Forall_forall _ _) Hdt kv Hkv). }
    assert (Hfiltered : exists specs,
               match observations_whitelist with
               | None => Ok (dict_of spec_items)
               | Some w =>
                   FlattenObservationsWrapper._filter_observations w
                     (dict_of spec_items)
               end = Ok specs /\
               flatten specs = map snd (kept observations_whitelist spec_items)).
    { destruct observations_whitelist as [w|].
      - exists (dict_of (filter (FlattenObservationsWrapper.whitelisted w) spec_items)).
        split; [apply filter_dict_of | apply flatten_dict_of].
      - exists (dict_of spec_items). split; [reflexivity | apply flatten_dict_of]. }
    destruct Hfiltered as (specs & Especs & Hflatten).
    replace (ndict (map (fun x => (fst x, leaf (snd x))) spec_items))
      with (dict_of spec_items) by reflexivity.
    rewrite Especs. cbn [bind].
    unfold FlattenObservationsWrapper._flatten_nested_specs. rewrite Hflatten.
    destruct (map snd (kept observations_whitelist spec_items)) as [|s0 rest] eqn:E.
    { destruct (kept observations_whitelist spec_items); [congruence | discriminate]. }
    cbn [bind]. unfold self, total. rewrite <- E, map_map. reflexivity. }
  split; [reflexivity|]. split; [reflexivity|].
  split.
  - intros e0 a obs_items batch timestep e' Hobs Hconf Hbatch.
    destruct (@pack_and_filter_spec (FlattenObservationsWrapper.with_env self e0)
                e' timestep obs_items spec_items batch Hobs Hconf Hbatch Hkept)
      as (packed & Epack & Hpacked).
    exists packed. split; [|exact Hpacked].
    unfold FlattenObservationsWrapper.step.
    cbn [FlattenObservationsWrapper.with_env FlattenObservationsWrapper._env].
    fold (FlattenObservationsWrapper.with_env self e0).
    destruct (py_environment.step env a e0) as [ts e1] eqn:Estep.
    subst timestep e'. simpl in Epack |- *. rewrite Epack. reflexivity.
  - intros e0 obs_items batch timestep e' Hobs Hconf Hbatch.
    destruct (@pack_and_filter_spec (FlattenObservationsWrapper.with_env self e0)
                e' timestep obs_items spec_items batch Hobs Hconf Hbatch Hkept)
      as (packed & Epack & Hpacked).
    exists packed. split; [|exact Hpacked].
    unfold FlattenObservationsWrapper.reset.
    cbn [FlattenObservationsWrapper.with_env FlattenObservationsWrapper._env].
    fold (FlattenObservationsWrapper.with_env self e0).
    destruct (py_environment.reset env e0) as [ts e1] eqn:Ereset.
    subst timestep e'. simpl in Epack |- *. rewrite Epack. reflexivity.
Qed.

End FlattenObservationsFacts.

(** ** The theorems at concrete environments *)

Lemma TimeLimit_episode_at_most_duration_witness :
  (1 <= TimeLimit._duration (TimeLimit.__init__ 0 3))%Z /\
  length [tt; tt; tt] = Z.to_nat (TimeLimit._duration (TimeLimit.__init__ 0 3)) /\
  exists ts,
    nth_error
      (fst (TimeLimit.steps counting_env [tt; tt; tt]
              (snd (TimeLimit.reset counting_env (TimeLimit.__init__ 0 3))))) 2 =
      Some ts /\
    step_type ts = LAST.
Proof.
  split; [simpl; lia|]. split; [reflexivity|].
  destruct (@TimeLimit_episode_at_most_duration _ _ _ _ _ _ _ counting_env
              (TimeLimit.__init__ 0 3) [tt; tt; tt]
              ltac:(simpl; lia) eq_refl) as [_ Hlast].
  apply Hlast. intros j tj Hj Hnth.
  destruct j as [|[|j]]; simpl in Hj, Hnth.
  - injection Hnth as <-. reflexivity.
  - injection Hnth as <-. reflexivity.
  - lia.
Defined.

(** C2, counterexample. Where the wrapped environment ends the episode
    before the limit, the [d]-th call of [step] after a [reset] need not
    return [LAST]: with duration 2 over an environment whose every step is
    [LAST], the first call of [step] after the [reset] returns [LAST] and
    the second one, which resets, returns [FIRST]. *)
Lemma TimeLimit_dth_step_after_reset_not_last :
  map (@step_type Z unit)
    (fst (TimeLimit.steps one_step_env [tt; tt]
            (snd (TimeLimit.reset one_step_env (TimeLimit.__init__ tt 2))))) =
    [LAST; FIRST] /\
  ~ (exists ts,
       nth_error
         (fst (TimeLimit.steps one_step_env [tt; tt]
                 (snd (TimeLimit.reset one_step_env (TimeLimit.__init__ tt 2)))))
         1 = Some ts /\
       step_type ts = LAST).
Proof.
  split; [reflexivity|].
  intros (ts & Hnth & Hlast). simpl in Hnth. injection Hnth as <-.
  discriminate.
Qed.

Lemma TimeLimit_step_resets_when_idle_witness :
  let running := snd (TimeLimit.reset counting_env (TimeLimit.__init__ 0 1)) in
  let idle := snd (TimeLimit.step counting_env tt running) in
  TimeLimit.no_episode counting_env idle /\
  TimeLimit.step counting_env tt idle = TimeLimit.reset counting_env idle.
Proof.
  intros running idle.
  assert (Hidle : TimeLimit.no_episode counting_env idle).
  { apply TimeLimit.no_episode_ended; [discriminate | reflexivity]. }
  split; [exact Hidle|].
  apply (@TimeLimit_step_resets_when_idle _ _ _ _ _ _ _ counting_env idle tt Hidle).
Defined.

Lemma ActionRepeat_step_spec_witness :
  let self := {| ActionRepeat._env := 0; ActionRepeat._times := 2 |} in
  (2 <= ActionRepeat._times self)%Z /\
  exists before final e',
    ActionRepeat.step counting_env 0%Z Z.add tt self =
      Ok (mkTimeStep (step_type final)
            (fold_left Z.add (map (@reward Z nat) (before ++ [final])) 0%Z)
            (discount final) (observation final),
          {| ActionRepeat._env := e'; ActionRepeat._times := 2 |}).
Proof.
  intros self. split; [simpl; lia|].
  destruct (@ActionRepeat_step_spec _ _ _ _ _ _ _ counting_env 0%Z Z.add self tt
              ltac:(simpl; lia))
    as (before & final & e' & _ & _ & _ & _ & Hstep).
  now exists before, final, e'.
Defined.

Example ActionRepeat_step_example :
  ActionRepeat.step counting_env 0%Z Z.add tt
    {| ActionRepeat._env := 0; ActionRepeat._times := 3 |} =
  Ok (mkTimeStep MID 3%Z 1%Z 3,
      {| ActionRepeat._env := 3; ActionRepeat._times := 3 |}).
Proof. reflexivity. Qed.

Example ActionRepeat_stops_at_last :
  ActionRepeat.step one_step_env 0%Z Z.add tt
    {| ActionRepeat._env := tt; ActionRepeat._times := 3 |} =
  Ok (mkTimeStep LAST 1%Z 0%Z tt,
      {| ActionRepeat._env := tt; ActionRepeat._times := 3 |}).
Proof. reflexivity. Qed.





Lemma ActionOffset_spec_and_step_witness :
  py_environment.action_spec discrete_env tt =
    leaf (array_spec.Bounded signed_spec) /\
  array_spec.is_discrete (array_spec.Bounded signed_spec) = true /\
  ordered_bounds Z.le [2] (scalar (-1)%Z) (scalar 1%Z) /\
  exists offset_maximum,
    ActionOffsetWrapper.action_spec discrete_env {| ActionOffsetWrapper._env := tt |} =
      Ok (array_spec.mkBoundedArraySpec (array_spec.mkArraySpec [2] int32 None)
            (Some (ActionOffsetWrapper.zeros [2])) (Some offset_maximum)) /\
    item offset_maximum 0 = Some 2%Z.
Proof.
  assert (Hscalar : forall v : Z, fits [2] (scalar v)).
  { intros v. right. split; reflexivity. }
  assert (Hord : ordered_bounds Z.le [2] (scalar (-1)%Z) (scalar 1%Z)).
  { split; [apply Hscalar|]. split; [apply Hscalar|].
    intros i l h _ Hl Hh. simpl in Hl, Hh.
    injection Hl as <-. injection Hh as <-. lia. }
  split; [reflexivity|]. split; [reflexivity|]. split; [exact Hord|].
  destruct (@ActionOffset_spec_and_step _ _ _ _ _ discrete_env tt signed_spec
              (scalar (-1)%Z) (scalar 1%Z) eq_refl eq_refl eq_refl eq_refl Hord)
    as (offset_maximum & _ & Hspec & _ & _ & Hmax & _).
  - intros i l Hl. simpl in Hl. injection Hl as <-. unfold in_range. simpl. lia.
  - intros i h Hh. simpl in Hh. injection Hh as <-. unfold in_range. simpl. lia.
  - intros i l h _ Hl Hh. simpl in Hl, Hh. injection Hl as <-.
    injection Hh as <-. unfold in_range. simpl. lia.
  - exists offset_maximum. split; [exact Hspec|].
    apply (Hmax 0 (-1)%Z 1%Z); [simpl; lia | reflexivity | reflexivity].
Defined.

(** C5, counterexample. The [int8] spec from -128 to 127: the wrapper is
    constructed, the difference of the bounds computed in [int8] is -1, and
    [action_spec()] raises [ValueError] instead of returning a spec with
    maximum 255. *)
Lemma ActionOffset_int8_range_raises :
  py_environment.action_spec
    (@acting_env (ndarray Z) _ (leaf (array_spec.Bounded full_int8_spec))) tt =
    leaf (array_spec.Bounded full_int8_spec) /\
  array_spec.is_discrete (array_spec.Bounded full_int8_spec) = true /\
  ordered_bounds Z.le [1] (scalar (-128)%Z) (scalar 127%Z) /\
  ActionOffsetWrapper.__init__
    (@acting_env (ndarray Z) _ (leaf (array_spec.Bounded full_int8_spec))) tt =
    Ok {| ActionOffsetWrapper._env := tt |} /\
  ActionOffsetWrapper.np_subtract int8 (scalar 127%Z) (scalar (-128)%Z) =
    Ok (scalar (-1)%Z) /\
  ActionOffsetWrapper.action_spec
    (@acting_env (ndarray Z) _ (leaf (array_spec.Bounded full_int8_spec)))
    {| ActionOffsetWrapper._env := tt |} = Raise ValueError.
Proof.
  split; [reflexivity|]. split; [reflexivity|].
  split.
  { split; [right; split; reflexivity|]. split; [right; split; reflexivity|].
    intros i l h _ Hl Hh. simpl in Hl, Hh.
    injection Hl as <-. injection Hh as <-. lia. }
  split; [reflexivity|]. split; [reflexivity|]. reflexivity.
Qed.

Example ActionOffset_step_example :
  ActionOffsetWrapper.action_spec discrete_env {| ActionOffsetWrapper._env := tt |} =
    Ok (array_spec.mkBoundedArraySpec (array_spec.mkArraySpec [2] int32 None)
          (Some (mkArray [2] [0; 0]%Z)) (Some (scalar 2%Z))) /\
  ActionOffsetWrapper.np_add int32 (mkArray [2] [0; 2]%Z) (scalar (-1)%Z) =
    Ok (mkArray [2] [-1; 1]%Z).
Proof. split; reflexivity. Qed.

Lemma ActionClip_step_spec_witness :
  let action := leaf (mkArray [2] [Number 2; Number (- (1 # 2))]) in
  nest_rel2 matches_spec
    (py_environment.action_spec clipping_env tt) action /\
  exists clipped_actions,
    ActionClipWrapper.step clipping_env action {| ActionClipWrapper._env := tt |} =
      Ok (fst (py_environment.step clipping_env clipped_actions tt),
          {| ActionClipWrapper._env :=
               snd (py_environment.step clipping_env clipped_actions tt) |}) /\
    nest_rel3 clipped_to_spec
      (py_environment.action_spec clipping_env tt) action clipped_actions.
Proof.
  intros action.
  assert (Hmatch : nest_rel2 matches_spec
                     (py_environment.action_spec clipping_env tt) action).
  { simpl. split; [split; reflexivity|].
    split; [intros lo Hlo; injection Hlo as <-; right; split; reflexivity|].
    split; [intros hi Hhi; injection Hhi as <-; right; split; reflexivity|].
    intros i _. reflexivity. }
  split; [exact Hmatch|].
  destruct (@ActionClip_step_spec _ _ _ _ _ clipping_env
              {| ActionClipWrapper._env := tt |} action Hmatch)
    as (clipped & _ & Hstep & Hrel).
  now exists clipped.
Defined.

Example ActionClip_clips :
  map_structure_up_to ActionClipWrapper._clip_to_spec
    (py_environment.action_spec clipping_env tt)
    (leaf (mkArray [2] [Number 2; Number (- (1 # 2))])) =
  Ok (leaf (mkArray [2] [Number 1; Number (- (1 # 2))])).
Proof. reflexivity. Qed.

(** C6, counterexample. An action with a [nan] element: [step] forwards
    the [nan], which does not lie within the bounds -1 and 1 of the
    spec. *)
Lemma ActionClip_forwards_nan :
  let action := leaf (mkArray [2] [NaN; Number 0]) in
  map_structure_up_to ActionClipWrapper._clip_to_spec
    (py_environment.action_spec clipping_env tt) action = Ok action /\
  ActionClipWrapper.step clipping_env action {| ActionClipWrapper._env := tt |} =
    Ok (fst (py_environment.step clipping_env action tt),
        {| ActionClipWrapper._env :=
             snd (py_environment.step clipping_env action tt) |}) /\
  bound_at (array_spec.minimum float_interval_spec) 0 = Some (Number (-1)) /\
  bound_at (array_spec.maximum float_interval_spec) 0 = Some (Number 1) /\
  ~ (above (Some (Number (-1))) NaN /\ below (Some (Number 1)) NaN).
Proof.
  intros action. split; [reflexivity|]. split; [reflexivity|].
  split; [reflexivity|]. split; [reflexivity|].
  intros [Habove _]. discriminate Habove.
Qed.

Lemma FlattenObservations_spec_and_step_witness :
  py_environment.observation_spec
    (observing_env (dict_of position_target_spec) (dict_of position_target_obs)) tt =
    dict_of position_target_spec /\
  Forall (fun kv => array_spec.dtype_of (snd kv) = float32) position_target_spec /\
  kept None position_target_spec <> [] /\
  exists self,
    FlattenObservationsWrapper.__init__
      (observing_env (dict_of position_target_spec) (dict_of position_target_obs)) tt None = Ok self /\
    FlattenObservationsWrapper.observation_spec self =
      array_spec.mkArraySpec [9] float32 (Some "packed_observations"%string).
Proof.
  assert (Hdt : Forall (fun kv => array_spec.dtype_of (snd kv) = float32)
                  position_target_spec).
  { repeat constructor. }
  assert (Hkept : kept None position_target_spec <> []).
  { vm_compute. discriminate. }
  split; [reflexivity|]. split; [exact Hdt|]. split; [exact Hkept|].
  destruct (@FlattenObservations_spec_and_step _ _ _ _ _ _
              (observing_env (dict_of position_target_spec) (dict_of position_target_obs))
              (fun _ => false) tt None position_target_spec float32
              eq_refl Hdt I Hkept)
    as (self & Einit & _ & Hspec & _).
  exists self. split; [exact Einit | exact Hspec].
Defined.

(** The example of the docstring: position [1, 2, 3, 4] and target
    [5, 6, 7, 8, 9] are packed into [1, ..., 9]. *)
Example FlattenObservations_docstring_example :
  exists self,
    FlattenObservationsWrapper.__init__
      (observing_env (dict_of position_target_spec) (dict_of position_target_obs)) tt None = Ok self /\
    FlattenObservationsWrapper.step
      (observing_env (dict_of position_target_spec) (dict_of position_target_obs))
      (fun _ => false) tt self =
    Ok (mkTimeStep MID 1%Z 1%Z (mkArray [9] [1; 2; 3; 4; 5; 6; 7; 8; 9]%Z), self).
Proof. eexists. split; reflexivity. Qed.

(** C7, counterexample. That the kept observations share one dtype is not
    enough: of the two observations [a] (float32) and [b] (int32) the
    whitelist keeps [a] alone, yet the constructor raises [ValueError],
    because it compares the dtypes of all observations of the environment.
    The constructor also raises when the whitelist keeps no observation
    (there is nothing to concatenate), when the observation spec is a
    single array spec and no dict, and when the whitelist names a key that
    the dict does not hold. *)
Lemma FlattenObservations_kept_dtype_not_enough :
  (Forall (fun kv => array_spec.dtype_of (snd kv) = float32)
     (kept (Some ["a"%string]) mixed_dtype_spec) /\
   kept (Some ["a"%string]) mixed_dtype_spec <> [] /\
   FlattenObservationsWrapper.__init__
     (observing_env (dict_of mixed_dtype_spec) (dict_of []))
     tt (Some ["a"%string]) = Raise ValueError) /\
  FlattenObservationsWrapper.__init__
    (observing_env (dict_of position_target_spec) (dict_of position_target_obs))
    tt (Some []) = Raise ValueError /\
  FlattenObservationsWrapper.__init__
    (observing_env (leaf (array_spec.mkArraySpec [4] float32 None))
       (leaf (mkArray [4] [1; 2; 3; 4]%Z)))
    tt None = Raise AttributeError /\
  (Forall (fun kv => array_spec.dtype_of (snd kv) = float32)
     position_target_spec /\
   kept (Some ["position"%string; "velocity"%string]) position_target_spec
     <> [] /\
   FlattenObservationsWrapper.__init__
     (observing_env (dict_of position_target_spec) (dict_of position_target_obs))
     tt (Some ["position"%string; "velocity"%string]) = Raise ValueError).
Proof.
  split; [split; [|split]|split; [|split; [|split; [|split]]]].
  - vm_compute. repeat constructor.
  - vm_compute. discriminate.
  - reflexivity.
  - reflexivity.
  - reflexivity.
  - repeat constructor.
  - vm_compute. discriminate.
  - reflexivity.
Qed.

(** * Further properties of the code *)

(** ** [_compute_returns_fn]: the loop and the fold *)

Section ReturnsFoldFacts.

Variable num : Type.
Variable zero : num.
Variables add mul : num -> num -> num.
Variable store : num -> result num.

(** The loop reads the discounts of the indices it visits only. *)
Lemma returns_loop_firstn (rewards discounts : list num) (n : nat) :
  forall (k : nat) (returns : list num) (v : num),
    k <= n ->
    ppo_agent_test.returns_loop add mul store k rewards discounts returns v =
    ppo_agent_test.returns_loop add mul store k rewards (firstn n discounts)
      returns v.
Proof.
  induction k as [|t IH]; intros returns v Hk; [reflexivity|].
  assert (Hget : getitem (firstn n discounts) t = getitem discounts t).
  { unfold getitem. rewrite nth_error_firstn.
    destruct (Nat.ltb_spec t n) as [_|?]; [reflexivity | lia]. }
  cbn [ppo_agent_test.returns_loop]. rewrite Hget.
  destruct (getitem rewards t) as [r|e]; cbn [bind]; [|reflexivity].
  destruct (getitem discounts t) as [d|e]; cbn [bind]; [|reflexivity].
  destruct (store (add r (mul d v))) as [x|e]; cbn [bind]; [|reflexivity].
  destruct (setitem returns t x) as [returns'|e]; cbn [bind]; [|reflexivity].
  destruct (getitem returns' t) as [y|e]; cbn [bind]; [|reflexivity].
  apply IH. lia.
Qed.

Lemma compute_returns_firstn (rewards discounts : list num) (v : num) :
  ppo_agent_test._compute_returns_fn zero add mul store rewards discounts v =
  ppo_agent_test._compute_returns_fn zero add mul store rewards
    (firstn (length rewards) discounts) v.
Proof.
  unfold ppo_agent_test._compute_returns_fn.
  assert (Hz : length (ppo_agent_test.zeros_like zero rewards) = length rewards).
  { unfold ppo_agent_test.zeros_like. apply length_map. }
  rewrite Hz. apply returns_loop_firstn. apply le_n.
Qed.

(** X1. When [discounts] is at least as long as [rewards],
    [_compute_returns_fn] is the right fold of the returns over the rewards
    and the discounts of the same indices, each return converted to the
    dtype of [rewards] as it is stored, and it fails where a conversion
    fails; further discounts are not read. When the dtype holds every
    number computed, the result is the fold of the exact values. *)
Theorem compute_returns_is_fold (rewards discounts : list num) (v : num) :
  length rewards <= length discounts ->
  ppo_agent_test._compute_returns_fn zero add mul store rewards discounts v =
    stored_returns add mul store rewards discounts v /\
  ppo_agent_test._compute_returns_fn zero add mul store rewards discounts v =
    ppo_agent_test._compute_returns_fn zero add mul store rewards
      (firstn (length rewards) discounts) v /\
  ((forall x, store x = Ok x) ->
   ppo_agent_test._compute_returns_fn zero add mul store rewards discounts v =
     Ok (discounted_returns add mul rewards discounts v)).
Proof.
  intros Hlen. split; [|split].
  - now apply compute_returns_stored.
  - apply compute_returns_firstn.
  - intros Hexact. rewrite compute_returns_stored by exact Hlen.
    now apply stored_returns_exact.
Qed.

(** X2. When [discounts] is shorter than [rewards], [_compute_returns_fn]
    raises [IndexError]: its first iteration reads the last index of
    [rewards] in [discounts]. *)
Theorem compute_returns_short_discounts (rewards discounts : list num) (v : num) :
  length discounts < length rewards ->
  ppo_agent_test._compute_returns_fn zero add mul store rewards discounts v =
    Raise IndexError.
Proof.
  intros Hlen. unfold ppo_agent_test._compute_returns_fn.
  assert (Hz : length (ppo_agent_test.zeros_like zero rewards) = length rewards).
  { unfold ppo_agent_test.zeros_like. apply length_map. }
  rewrite Hz.
  destruct (length rewards) as [|t] eqn:En; [lia|].
  simpl. rewrite (getitem_nth rewards zero) by lia. simpl.
  unfold getitem.
  assert (Hnone : nth_error discounts t = None) by (apply nth_error_None; lia).
  now rewrite Hnone.
Qed.

(** The fold over two trajectories one after the other: the first is
    folded from the first return of the second. *)
Lemma stored_returns_app (pre_r : list num) :
  forall (pre_d suf_r suf_d : list num) (v : num),
    length pre_r = length pre_d ->
    stored_returns add mul store (pre_r ++ suf_r) (pre_d ++ suf_d) v =
    (second <- stored_returns add mul store suf_r suf_d v ;;
     first <- stored_returns add mul store pre_r pre_d (hd v second) ;;
     Ok (first ++ second)).
Proof.
  induction pre_r as [|r0 rs IH]; intros [|d0 ds] suf_r suf_d v Hlen;
    simpl in Hlen; try discriminate.
  - cbn. now destruct (stored_returns add mul store suf_r suf_d v).
  - cbn [app stored_returns]. rewrite (IH ds suf_r suf_d v) by lia.
    destruct (stored_returns add mul store suf_r suf_d v) as [second|e];
      cbn [bind]; [|reflexivity].
    destruct (stored_returns add mul store rs ds (hd v second)) as [first|e];
      cbn [bind]; [|reflexivity].
    replace (hd v (first ++ second)) with (hd (hd v second) first)
      by (now destruct first).
    now destruct (store (add r0 (mul d0 (hd (hd v second) first)))).
Qed.

(** X3. Returns do not cross an episode boundary. The returns of a
    trajectory up to a step depend on what follows only through the value
    computed at that step: when the returns [second] of the steps after it
    are such that the reward plus the discount times the next return is the
    same for the first of [second] as for [v'] (as for a discount 0 and
    finite returns), the returns of the whole trajectory are the returns of
    the steps up to that one, computed on their own from the next-state
    return [v'], followed by [second]. When the steps after it fail, the
    whole fails alike. *)
Theorem compute_returns_episode_boundary
    (pre_r pre_d : list num) (r d : num) (suf_r suf_d : list num) (v v' : num) :
  length pre_r = length pre_d ->
  length suf_r = length suf_d ->
  (forall second,
     ppo_agent_test._compute_returns_fn zero add mul store suf_r suf_d v =
       Ok second ->
     add r (mul d (hd v second)) = add r (mul d v') ->
     ppo_agent_test._compute_returns_fn zero add mul store
       (pre_r ++ r :: suf_r) (pre_d ++ d :: suf_d) v =
     (first <- ppo_agent_test._compute_returns_fn zero add mul store
                 (pre_r ++ [r]) (pre_d ++ [d]) v' ;;
      Ok (first ++ second))) /\
  (forall e,
     ppo_agent_test._compute_returns_fn zero add mul store suf_r suf_d v =
       Raise e ->
     ppo_agent_test._compute_returns_fn zero add mul store
       (pre_r ++ r :: suf_r) (pre_d ++ d :: suf_d) v = Raise e).
Proof.
  intros Hpre Hsuf.
  assert (Hwhole :
            ppo_agent_test._compute_returns_fn zero add mul store
              (pre_r ++ r :: suf_r) (pre_d ++ d :: suf_d) v =
            (second <- stored_returns add mul store suf_r suf_d v ;;
             first <- stored_returns add mul store (pre_r ++ [r]) (pre_d ++ [d])
                        (hd v second) ;;
             Ok (first ++ second))).
  { rewrite compute_returns_stored by (rewrite !length_app; simpl; lia).
    replace (pre_r ++ r :: suf_r) with ((pre_r ++ [r]) ++ suf_r)
      by (now rewrite <- app_assoc).
    replace (pre_d ++ d :: suf_d) with ((pre_d ++ [d]) ++ suf_d)
      by (now rewrite <- app_assoc).
    apply stored_returns_app. rewrite !length_app. simpl. lia. }
  rewrite Hwhole.
  rewrite (@compute_returns_stored num zero add mul store suf_r suf_d v) by lia.
  split.
  - intros second Esecond Hcut. rewrite Esecond. cbn [bind].
    rewrite compute_returns_stored by (rewrite !length_app; simpl; lia).
    rewrite !stored_returns_last by exact Hpre.
    now rewrite Hcut.
  - intros e Esecond. now rewrite Esecond.
Qed.

End ReturnsFoldFacts.

(** ** [RunStats]: what the counters count *)

Lemma count_cons {X : Type} (p : X -> bool) (x : X) (l : list X) :
  Z.of_nat (length (filter p (x :: l))) =
  ((if p x then 1 else 0) + Z.of_nat (length (filter p l)))%Z.
Proof.
  simpl. destruct (p x); simpl length; lia.
Qed.

Section RunStatsFacts.

Context {St action num obs aspec ospec img : Type}.
Variable env : py_environment.Base St action num obs aspec ospec img.

(** From any state of the wrapper: the time steps are those of the wrapped
    environment, and each counter grows by what it counts. *)
Lemma RunStats_play (calls : list (episode_call action)) :
  forall self : RunStats.state St,
    let trace := fst (play (RunStats.as_env env) calls self) in
    let self' := snd (play (RunStats.as_env env) calls self) in
    trace = fst (play env calls (RunStats._env self)) /\
    RunStats._env self' = snd (play env calls (RunStats._env self)) /\
    RunStats._episodes self' = (RunStats._episodes self + stepped LAST trace)%Z /\
    RunStats._total_steps self' =
      (RunStats._total_steps self + stepped_not FIRST trace)%Z /\
    RunStats._resets self' =
      (RunStats._resets self + reset_calls trace + stepped FIRST trace)%Z /\
    ((0 <= RunStats._episode_steps self <= RunStats._total_steps self)%Z ->
     (0 <= RunStats._episode_steps self' <= RunStats._total_steps self')%Z).
Proof.
  induction calls as [|c rest IH]; intros self.
  - simpl. unfold stepped, stepped_not, reset_calls. simpl.
    repeat split; try lia.
  - cbn [play]. destruct c as [|a].
    + cbn [py_environment.reset RunStats.as_env]. unfold RunStats.reset.
      destruct (py_environment.reset env (RunStats._env self)) as [ts e].
      match goal with
      | |- context [play (RunStats.as_env env) rest ?s] => specialize (IH s)
      end.
      cbv zeta in IH. cbn [RunStats._env RunStats._episodes RunStats._resets
                             RunStats._episode_steps RunStats._total_steps] in IH.
      destruct (play (RunStats.as_env env) rest _) as [trace self'].
      destruct (play env rest e) as [trace0 e0].
      cbn [fst snd] in IH |- *.
      destruct IH as (Htr & Henv & Hep & Htot & Hres & Hinv).
      unfold stepped, stepped_not, reset_calls in *.
      rewrite !count_cons. cbn [fst snd].
      split; [now rewrite Htr|]. split; [exact Henv|].
      split; [lia|]. split; [lia|]. split; [lia|].
      intros H0. apply Hinv. lia.
    + cbn [py_environment.step RunStats.as_env]. unfold RunStats.step.
      destruct (py_environment.step env a (RunStats._env self)) as [ts e].
      match goal with
      | |- context [play (RunStats.as_env env) rest ?s] => specialize (IH s)
      end.
      cbv zeta in IH. cbn [RunStats._env RunStats._episodes RunStats._resets
                             RunStats._episode_steps RunStats._total_steps] in IH.
      destruct (play (RunStats.as_env env) rest _) as [trace self'].
      destruct (play env rest e) as [trace0 e0].
      cbn [fst snd] in IH |- *.
      destruct IH as (Htr & Henv & Hep & Htot & Hres & Hinv).
      unfold stepped, stepped_not, reset_calls in *.
      rewrite !count_cons. cbn [fst snd].
      unfold is_first, is_last in *.
      split; [now rewrite Htr|]. split; [exact Henv|].
      destruct (step_type ts); cbn [step_type_eqb negb] in *;
        (split; [lia|]; split; [lia|]; split; [lia|];
         intros H0; apply Hinv; lia).
Qed.

(** X4. [RunStats] does not change what the environment returns, and from
    its construction on, over any sequence of [reset] and [step] calls:
    [episodes] is the number of [LAST] time steps that [step] returned,
    [total_steps] the number of time steps other than [FIRST] that [step]
    returned, [resets] the number of [reset] calls plus the number of
    [FIRST] time steps that [step] returned, and [episode_steps] never
    exceeds [total_steps]. *)
Theorem RunStats_counters (e : St) (calls : list (episode_call action)) :
  let trace := fst (play (RunStats.as_env env) calls (RunStats.__init__ e)) in
  let self := snd (play (RunStats.as_env env) calls (RunStats.__init__ e)) in
  trace = fst (play env calls e) /\
  RunStats._env self = snd (play env calls e) /\
  RunStats.episodes self = stepped LAST trace /\
  RunStats.total_steps self = stepped_not FIRST trace /\
  RunStats.resets self = (reset_calls trace + stepped FIRST trace)%Z /\
  (0 <= RunStats.episode_steps self <= RunStats.total_steps self)%Z.
Proof.
  intros trace self.
  destruct (RunStats_play calls (RunStats.__init__ e))
    as (Htr & Henv & Hep & Htot & Hres & Hinv).
  fold trace self in Htr, Henv, Hep, Htot, Hres, Hinv.
  unfold RunStats.episodes, RunStats.total_steps, RunStats.resets,
    RunStats.episode_steps.
  simpl in Htr, Henv, Hep, Htot, Hres, Hinv.
  repeat split; try assumption; try lia.
Qed.

Lemma reset_calls_first (calls : list (episode_call action)) :
  (forall s, step_type (fst (py_environment.reset env s)) = FIRST) ->
  forall s : St,
    let trace := fst (play env calls s) in
    returned FIRST trace = (reset_calls trace + stepped FIRST trace)%Z /\
    returned LAST trace = stepped LAST trace.
Proof.
  intros Hreset. induction calls as [|c rest IH]; intros s.
  - simpl. unfold returned, reset_calls, stepped. simpl. lia.
  - cbn [play]. destruct c as [|a].
    + pose proof (Hreset s) as Hs.
      destruct (py_environment.reset env s) as [ts s']. simpl in Hs.
      specialize (IH s'). cbv zeta in IH.
      destruct (play env rest s') as [trace s'']. cbn [fst snd] in IH |- *.
      unfold returned, reset_calls, stepped in *.
      rewrite !count_cons. cbn [fst snd]. rewrite Hs. cbn [step_type_eqb]. lia.
    + destruct (py_environment.step env a s) as [ts s'].
      specialize (IH s'). cbv zeta in IH.
      destruct (play env rest s') as [trace s'']. cbn [fst snd] in IH |- *.
      unfold returned, reset_calls, stepped in *.
      rewrite !count_cons. cbn [fst snd].
      destruct (step_type ts); cbn [step_type_eqb]; lia.
Qed.

(** X5. For an environment whose [reset] returns [FIRST] time steps, the
    summary of the docstring holds from the construction of the wrapper on:
    [episodes] is the number of [LAST] time steps and [resets] the number
    of [FIRST] time steps that the wrapper returned. *)
Theorem RunStats_docstring_summary (e : St) (calls : list (episode_call action)) :
  (forall s, step_type (fst (py_environment.reset env s)) = FIRST) ->
  let trace := fst (play (RunStats.as_env env) calls (RunStats.__init__ e)) in
  let self := snd (play (RunStats.as_env env) calls (RunStats.__init__ e)) in
  RunStats.episodes self = returned LAST trace /\
  RunStats.resets self = returned FIRST trace.
Proof.
  intros Hreset trace self.
  destruct (RunStats_play calls (RunStats.__init__ e))
    as (Htr & _ & Hep & _ & Hres & _).
  fold trace self in Htr, Hep, Hres.
  destruct (reset_calls_first calls Hreset e) as [Hfirst Hlast].
  simpl in Htr. rewrite <- Htr in Hfirst, Hlast.
  unfold RunStats.episodes, RunStats.resets.
  simpl in Hep, Hres. lia.
Qed.

End RunStatsFacts.

(** ** [TimeLimit]: the counter and the limit *)

Section TimeLimitMoreFacts.

Context {St action num obs aspec ospec img : Type}.
Variable env : py_environment.Base St action num obs aspec ospec img.

Lemma TimeLimit_reset_counter_ok (self : TimeLimit.state St) :
  (1 <= TimeLimit._duration self)%Z ->
  TimeLimit_counter_ok (snd (TimeLimit.reset env self)) /\
  TimeLimit._duration (snd (TimeLimit.reset env self)) = TimeLimit._duration self.
Proof.
  intros Hd. unfold TimeLimit.reset, TimeLimit_counter_ok.
  destruct (py_environment.reset env (TimeLimit._env self)). simpl. lia.
Qed.

Lemma TimeLimit_step_counter_ok (a : action) (self : TimeLimit.state St) :
  (1 <= TimeLimit._duration self)%Z ->
  TimeLimit_counter_ok self ->
  TimeLimit_counter_ok (snd (TimeLimit.step env a self)) /\
  TimeLimit._duration (snd (TimeLimit.step env a self)) = TimeLimit._duration self.
Proof.
  intros Hd Hok. destruct (TimeLimit._step self) as [n|] eqn:Hn.
  - pose proof (TimeLimit_step_running env a self Hn) as Hstep. cbv zeta in Hstep.
    destruct Hstep as (Hdur & _ & Hend & Hrun).
    split; [|exact Hdur].
    unfold TimeLimit_counter_ok in *. rewrite Hn in Hok. rewrite Hdur.
    destruct (is_last (fst (TimeLimit.step env a self))) eqn:Hl.
    + now rewrite (Hend eq_refl).
    + destruct (Hrun eq_refl) as [-> Hlt]. lia.
  - unfold TimeLimit.step. rewrite Hn. now apply TimeLimit_reset_counter_ok.
Qed.

(** X6. Over any sequence of [reset] and [step] calls on a [TimeLimit] with
    a duration [d >= 1], from its construction on, the duration stays [d]
    and the counter [_step] is unset or satisfies [0 <= _step < d]: it is
    never left at the limit. *)
Theorem TimeLimit_counter_below_duration
    (e : St) (d : Z) (calls : list (episode_call action)) :
  (1 <= d)%Z ->
  let self := snd (play (TimeLimit_env env) calls (TimeLimit.__init__ e d)) in
  TimeLimit._duration self = d /\
  match TimeLimit._step self with
  | None => True
  | Some n => (0 <= n < d)%Z
  end.
Proof.
  intros Hd.
  assert (Hgen : forall calls (self : TimeLimit.state St),
             (1 <= TimeLimit._duration self)%Z ->
             TimeLimit_counter_ok self ->
             TimeLimit._duration (snd (play (TimeLimit_env env) calls self)) =
               TimeLimit._duration self /\
             TimeLimit_counter_ok (snd (play (TimeLimit_env env) calls self))).
  { clear. induction calls as [|c rest IH]; intros self Hd Hok; [now split|].
    cbn [play].
    assert (Hnext : exists ts self',
               match c with
               | Reset => py_environment.reset (TimeLimit_env env) self
               | Step a => py_environment.step (TimeLimit_env env) a self
               end = (ts, self') /\
               TimeLimit_counter_ok self' /\
               TimeLimit._duration self' = TimeLimit._duration self).
    { destruct c as [|a]; cbn [TimeLimit_env py_environment.reset py_environment.step].
      - destruct (TimeLimit_reset_counter_ok self Hd) as [H1 H2].
        destruct (TimeLimit.reset env self) as [ts self']. now exists ts, self'.
      - destruct (TimeLimit_step_counter_ok a self Hd Hok) as [H1 H2].
        destruct (TimeLimit.step env a self) as [ts self']. now exists ts, self'. }
    destruct Hnext as (ts & self' & -> & Hok' & Hdur').
    destruct (IH self' ltac:(lia) Hok') as [H1 H2].
    destruct (play (TimeLimit_env env) rest self') as [trace self''].
    simpl in *. split; [congruence | exact H2]. }
  intros self.
  destruct (Hgen calls (TimeLimit.__init__ e d) Hd I) as [Hdur Hok].
  fold self in Hdur, Hok. simpl in Hdur. split; [exact Hdur|].
  unfold TimeLimit_counter_ok in Hok. rewrite Hdur in Hok. exact Hok.
Qed.

(** Below the limit and while the wrapped environment does not end the
    episode, the steps of the wrapper are those of the environment. *)
Lemma TimeLimit_steps_below_limit (actions : list action) :
  forall (self : TimeLimit.state St) (n : Z),
    TimeLimit._step self = Some n ->
    (n + Z.of_nat (length actions) < TimeLimit._duration self)%Z ->
    Forall (fun ct => is_last (snd ct) = false)
      (fst (play env (map Step actions) (TimeLimit._env self))) ->
    fst (play (TimeLimit_env env) (map Step actions) self) =
      fst (play env (map Step actions) (TimeLimit._env self)) /\
    snd (play (TimeLimit_env env) (map Step actions) self) =
      {| TimeLimit._env := snd (play env (map Step actions) (TimeLimit._env self));
         TimeLimit._duration := TimeLimit._duration self;
         TimeLimit._step := Some (n + Z.of_nat (length actions))%Z |}.
Proof.
  induction actions as [|a rest IH]; intros self n Hn Hlt Hrun.
  - simpl. split; [reflexivity|]. destruct self as [e d st]. simpl in *.
    rewrite Hn. now rewrite Z.add_0_r.
  - cbn [map play] in *.
    cbn [TimeLimit_env py_environment.step]. unfold TimeLimit.step. rewrite Hn.
    destruct (py_environment.step env a (TimeLimit._env self)) as [ts e1] eqn:E.
    destruct (Z.geb_spec (n + 1) (TimeLimit._duration self)) as [Hge|_].
    { simpl length in Hlt. lia. }
    destruct (play env (map Step rest) e1) as [trace0 e2] eqn:E0.
    cbn [fst snd] in Hrun. inversion Hrun as [|? ? Hts Hrest]; subst.
    cbn [snd] in Hts. rewrite Hts.
    match goal with
    | |- context [play (TimeLimit_env env) (map Step rest) ?s] =>
        specialize (IH s (n + 1)%Z eq_refl)
    end.
    cbn [TimeLimit._env TimeLimit._duration] in IH. rewrite E0 in IH.
    destruct IH as [Htr Hst].
    { simpl length in Hlt. lia. }
    { exact Hrest. }
    destruct (play (TimeLimit_env env) (map Step rest) _) as [trace self'].
    cbn [fst snd] in *. split; [now rewrite Htr|].
    rewrite Hst. f_equal. f_equal. simpl length. lia.
Qed.

(** X7. [TimeLimit] is invisible below its limit: for fewer than [d] calls
    of [step] after a [reset], during which the wrapped environment does not
    end the episode, the wrapper returns the time steps of the wrapped
    environment unchanged and leaves it in the same state. *)
Theorem TimeLimit_transparent_below_limit
    (self : TimeLimit.state St) (actions : list action) :
  (Z.of_nat (length actions) < TimeLimit._duration self)%Z ->
  let after_reset := snd (TimeLimit.reset env self) in
  let e := snd (py_environment.reset env (TimeLimit._env self)) in
  Forall (fun ct => is_last (snd ct) = false) (fst (play env (map Step actions) e)) ->
  fst (play (TimeLimit_env env) (map Step actions) after_reset) =
    fst (play env (map Step actions) e) /\
  TimeLimit._env (snd (play (TimeLimit_env env) (map Step actions) after_reset)) =
    snd (play env (map Step actions) e).
Proof.
  intros Hlen after_reset e Hrun.
  assert (Hafter : after_reset =
                   {| TimeLimit._env := e;
                      TimeLimit._duration := TimeLimit._duration self;
                      TimeLimit._step := Some 0%Z |}).
  { unfold after_reset, e, TimeLimit.reset.
    now destruct (py_environment.reset env (TimeLimit._env self)). }
  destruct (@TimeLimit_steps_below_limit actions after_reset 0%Z) as [Htr Hst].
  - now rewrite Hafter.
  - rewrite Hafter. simpl. lia.
  - rewrite Hafter. exact Hrun.
  - rewrite Hafter in Htr, Hst. cbn [TimeLimit._env] in Htr, Hst.
    rewrite <- Hafter in Htr, Hst. split; [exact Htr|]. now rewrite Hst.
Qed.

End TimeLimitMoreFacts.

(** ** [RunStats] around [TimeLimit] *)

Section RunStatsTimeLimitFacts.

Context {St action num obs aspec ospec img : Type}.
Variable env : py_environment.Base St action num obs aspec ospec img.

Lemma play_steps_TimeLimit (actions : list action) :
  forall self : TimeLimit.state St,
    map snd (fst (play (TimeLimit_env env) (map Step actions) self)) =
    fst (TimeLimit.steps env actions self).
Proof.
  induction actions as [|a rest IH]; intros self; [reflexivity|].
  cbn [map play TimeLimit.steps TimeLimit_env py_environment.step].
  destruct (TimeLimit.step env a self) as [ts self'].
  specialize (IH self').
  destruct (play (TimeLimit_env env) (map Step rest) self') as [trace s''].
  destruct (TimeLimit.steps env rest self') as [more s'''].
  simpl in *. now rewrite IH.
Qed.

Lemma stepped_last_positive (trace : list (episode_call action * TimeStep num obs))
    (i : nat) (ts : TimeStep num obs) :
  Forall (fun ct => exists a, fst ct = Step a) trace ->
  nth_error (map snd trace) i = Some ts ->
  step_type ts = LAST ->
  (1 <= stepped LAST trace)%Z.
Proof.
  revert i. induction trace as [|[c t] rest IH]; intros i Hall Hnth Hlast.
  - destruct i; discriminate.
  - inversion Hall as [|? ? [a Ha] Hrest]; subst. simpl in Ha. subst c.
    unfold stepped in *. rewrite count_cons. cbn [fst snd].
    destruct i as [|i]; simpl in Hnth.
    + injection Hnth as Heq. subst t. rewrite Hlast. cbn [step_type_eqb]. lia.
    + specialize (IH i Hrest Hnth Hlast).
      destruct (step_type_eqb (step_type t) LAST); lia.
Qed.

Lemma play_steps_are_steps {S' : Type}
    (env' : py_environment.Base S' action num obs aspec ospec img)
    (actions : list action) :
  forall s : S',
    Forall (fun ct => exists a, fst ct = Step a)
      (fst (play env' (map Step actions) s)).
Proof.
  induction actions as [|a rest IH]; intros s; [constructor|].
  cbn [map play]. destruct (py_environment.step env' a s) as [ts s'].
  specialize (IH s'). destruct (play env' (map Step rest) s') as [trace s''].
  simpl in *. constructor; [now exists a | exact IH].
Qed.

(** X8. [RunStats] around a [TimeLimit] counts the episodes that the limit
    ends, as its docstring announces: over a [reset] and [d] calls of [step]
    on a [RunStats] that wraps a [TimeLimit] of duration [d >= 1], whatever
    the wrapped environment does, [episodes] grows by at least 1. *)
Theorem RunStats_counts_time_limited_episodes
    (self : RunStats.state (TimeLimit.state St)) (actions : list action) :
  let d := TimeLimit._duration (RunStats._env self) in
  (1 <= d)%Z ->
  length actions = Z.to_nat d ->
  let self' :=
    snd (play (RunStats.as_env (TimeLimit_env env))
           (Reset :: map Step actions) self) in
  (RunStats.episodes self + 1 <= RunStats.episodes self')%Z.
Proof.
  intros d Hd Hlen self'.
  unfold self'. cbn [play RunStats.as_env py_environment.reset].
  unfold RunStats.reset.
  cbn [TimeLimit_env py_environment.reset].
  destruct (TimeLimit_reset_state env (RunStats._env self)) as [H0 Hdur].
  destruct (TimeLimit.reset env (RunStats._env self)) as [ts0 tl] eqn:Ereset.
  cbn [snd] in H0, Hdur.
  match goal with
  | |- context [play (RunStats.as_env (TimeLimit_env env)) (map Step actions) ?s] =>
      pose proof (RunStats_play (TimeLimit_env env) (map Step actions) s) as Hplay;
      destruct (play (RunStats.as_env (TimeLimit_env env)) (map Step actions) s)
        as [trace final]
  end.
  cbv zeta in Hplay. cbn [fst snd RunStats._env RunStats._episodes] in Hplay.
  destruct Hplay as (Htr & _ & Hep & _).
  cbn [snd]. unfold RunStats.episodes. rewrite Hep.
  assert (Hne : actions <> []).
  { intros ->. simpl in Hlen. lia. }
  destruct (@TimeLimit_steps_reach_last _ _ _ _ _ _ _ env actions tl 0%Z H0 Hne)
    as (i & ts & Hi & Hts & _).
  { rewrite Hdur. fold d. lia. }
  rewrite <- play_steps_TimeLimit, <- Htr in Hi.
  assert (Hsteps : Forall (fun ct => exists a, fst ct = Step a) trace).
  { rewrite Htr. apply play_steps_are_steps. }
  pose proof (@stepped_last_positive trace i ts Hsteps Hi Hts). lia.
Qed.

End RunStatsTimeLimitFacts.

(** ** [ActionRepeat]: the unbound time step *)

Section ActionRepeatMoreFacts.

Context {St action num obs aspec ospec img : Type}.
Variable env : py_environment.Base St action num obs aspec ospec img.
Variable zero : num.
Variable add : num -> num -> num.

(** X9. [ActionRepeat.step] raises [UnboundLocalError] exactly for a count
    [_times <= 0], where the loop body never runs and [time_step] is never
    assigned; for every other count it returns, so a wrapper that the
    constructor accepted never raises it. *)
Theorem ActionRepeat_step_unbound (self : ActionRepeat.state St) (a : action) :
  (ActionRepeat.step env zero add a self = Raise UnboundLocalError <->
   (ActionRepeat._times self <= 0)%Z) /\
  ((1 <= ActionRepeat._times self)%Z <->
   exists r, ActionRepeat.step env zero add a self = Ok r) /\
  (forall e times,
     ActionRepeat.__init__ e times = Ok self ->
     exists r, ActionRepeat.step env zero add a self = Ok r).
Proof.
  assert (Hpos : (1 <= ActionRepeat._times self)%Z ->
                 exists r, ActionRepeat.step env zero add a self = Ok r).
  { intros Hge. unfold ActionRepeat.step.
    destruct (@ActionRepeat_step_loop_spec _ _ _ _ _ _ _ env add
                (Z.to_nat (ActionRepeat._times self))
                a zero None (ActionRepeat._env self) ltac:(lia))
      as (before & final & e' & _ & _ & _ & _ & Hloop).
    rewrite Hloop. eauto. }
  assert (Hneg : (ActionRepeat._times self <= 0)%Z ->
                 ActionRepeat.step env zero add a self = Raise UnboundLocalError).
  { intros Hle. unfold ActionRepeat.step.
    replace (Z.to_nat (ActionRepeat._times self)) with 0 by lia. reflexivity. }
  split; [|split].
  - split; [|exact Hneg].
    intros Hraise. destruct (Z_le_gt_dec (ActionRepeat._times self) 0) as [H|H];
      [exact H|].
    destruct (Hpos ltac:(lia)) as [r Hr]. congruence.
  - split; [exact Hpos|].
    intros [r Hr]. destruct (Z_le_gt_dec (ActionRepeat._times self) 0) as [H|H];
      [|lia].
    rewrite (Hneg H) in Hr. discriminate.
  - intros e times Hinit. apply Hpos.
    unfold ActionRepeat.__init__ in Hinit.
    destruct (Z.leb_spec times 1) as [?|Hgt]; [discriminate|].
    injection Hinit as <-. simpl. lia.
Qed.

End ActionRepeatMoreFacts.

(** ** [ActionDiscretizeWrapper]: the action map and its indices *)





Section ActionDiscretizeMoreFacts.

Context {St num obs ospec img : Type}.
Variable env :
  py_environment.Base St (nest (ndarray Q)) num obs
    (nest (array_spec.spec Q)) ospec img.



End ActionDiscretizeMoreFacts.


Section ActionDiscretizeEdgeFacts.

Context {St num obs ospec img : Type}.
Variable env :
  py_environment.Base St (nest (ndarray Q)) num obs
    (nest (array_spec.spec Q)) ospec img.



End ActionDiscretizeEdgeFacts.

Section ActionDiscretizeErrorFacts.

Context {St num obs ospec img : Type}.
Variable env :
  py_environment.Base St (nest (ndarray Q)) num obs
    (nest (array_spec.spec Q)) ospec img.



(** X14. The constructor raises [ValueError] when the action spec of the
    environment does not consist of exactly one spec, and when, for a
    single bounded spec with at least one element, one of the numbers of
    actions is below 2. *)
Theorem ActionDiscretize_init_errors (e : St) (num_actions : ndarray Z) :
  (length (flatten (py_environment.action_spec env e)) <> 1 ->
   ActionDiscretizeWrapper.__init__ env e num_actions = Raise ValueError) /\
  (forall spec n,
     let shape := array_spec.shape (array_spec.spec_base spec) in
     flatten (py_environment.action_spec env e) = [spec] ->
     fits shape num_actions ->
     0 < size shape ->
     In n (arr_data num_actions) -> (n < 2)%Z ->
     ActionDiscretizeWrapper.__init__ env e num_actions = Raise ValueError).
Proof.
  split.
  - intros Hlen. unfold ActionDiscretizeWrapper.__init__.
    destruct (flatten (py_environment.action_spec env e)) as [|x [|y rest]];
      try reflexivity.
    simpl in Hlen. congruence.
  - intros spec n shape Hflat Hna Hsize Hin Hn.
    destruct (broadcast_to_fits Hna) as (limits & Elim & Hllen & Hlim).
    assert (Hin' : In n limits).
    { destruct Hna as [Hfull|Hscalar].
      - destruct (In_nth_error _ _ Hin) as [i Hi].
        assert (Hlt : i < size shape).
        { destruct Hfull as [_ Hlen]. rewrite <- Hlen.
          apply nth_error_Some. congruence. }
        apply nth_error_In with (n := i).
        rewrite (Hlim i Hlt), (item_full Hfull Hlt). exact Hi.
      - destruct (item_scalar 0 Hscalar) as (a & Ha & Hitem).
        rewrite Ha in Hin. destruct Hin as [<-|[]].
        apply nth_error_In with (n := 0). now rewrite (Hlim 0 Hsize). }
    unfold ActionDiscretizeWrapper.__init__. rewrite Hflat.
    fold shape. rewrite Elim. cbn [bind arr_shape].
    rewrite shape_eqb_refl. cbn [negb].
    unfold ActionDiscretizeWrapper._discretize_spec. cbn [arr_data].
    assert (Hb : forallb (fun n => (2 <=? n)%Z) limits = false).
    { destruct (forallb (fun n => (2 <=? n)%Z) limits) eqn:E; [|reflexivity].
      rewrite forallb_forall in E. specialize (E n Hin').
      apply Z.leb_le in E. lia. }
    now rewrite Hb.
Qed.

End ActionDiscretizeErrorFacts.

(** ** [ActionClipWrapper]: clipping twice, infinities and [nan] *)

(** Clipping a clipped value changes nothing, whatever the bounds. *)
Lemma clip_value_idempotent (lo hi : option np_float) (x : np_float) :
  clip_value lo hi (clip_value lo hi x) = clip_value lo hi x.
Proof.
  unfold clip_value, ActionClipWrapper.np_maximum, ActionClipWrapper.np_minimum.
  destruct lo as [[l| | |]|], hi as [[h| | |]|], x as [x| | |];
    float_cases; try reflexivity; exfalso; lra.
Qed.

(** With both bounds and the minimum not above the maximum, an infinity is
    clipped to the bound on its side, [nan] stays [nan], and every other
    value lands between the bounds. *)
Lemma clip_value_infinite (l h x : np_float) :
  float_le l h ->
  (x = PosInf -> clip_value (Some l) (Some h) x = h) /\
  (x = NegInf -> clip_value (Some l) (Some h) x = l) /\
  (x = NaN -> clip_value (Some l) (Some h) x = NaN) /\
  (np_isnan x = false ->
   float_le l (clip_value (Some l) (Some h) x) /\
   float_le (clip_value (Some l) (Some h) x) h).
Proof.
  unfold clip_value, float_le,
    ActionClipWrapper.np_maximum, ActionClipWrapper.np_minimum.
  destruct l as [l| | |], h as [h| | |], x as [x| | |];
    float_cases; repeat split; intros;
    try reflexivity; try discriminate; try (exfalso; lra).
Qed.

(** Two arrays of one shape with the same elements are equal. *)
Lemma ndarray_ext {A : Type} (shape : list nat) (x y : ndarray A) :
  has_shape shape x -> has_shape shape y ->
  (forall i a, nth_error (arr_data x) i = Some a ->
               nth_error (arr_data y) i = Some a) ->
  x = y.
Proof.
  intros [Hsx Hlx] [Hsy Hly] Hat.
  destruct x as [sx dx], y as [sy dy]. simpl in *. subst sx sy. f_equal.
  apply nth_error_ext. intros i.
  destruct (nth_error dx i) as [a|] eqn:E.
  - symmetry. now apply Hat.
  - symmetry. apply nth_error_None. apply nth_error_None in E. lia.
Qed.

(** [_clip_to_spec] on an array of the spec's shape, for bounds that fit the
    shape: every element is clipped with the bounds of its position. *)
Lemma clip_to_spec_values (s : array_spec.BoundedArraySpec np_float)
    (act : ndarray np_float) :
  let shape := array_spec.shape (array_spec.array_spec_of s) in
  has_shape shape act ->
  (forall lo, array_spec.minimum s = Some lo -> fits shape lo) ->
  (forall hi, array_spec.maximum s = Some hi -> fits shape hi) ->
  exists out,
    ActionClipWrapper._clip_to_spec (array_spec.Bounded s) act = Ok out /\
    has_shape shape out /\
    forall i x,
      nth_error (arr_data act) i = Some x ->
      nth_error (arr_data out) i =
      Some (clip_value (bound_at (array_spec.minimum s) i)
              (bound_at (array_spec.maximum s) i) x).
Proof.
  intros shape Hact Hlo Hhi.
  assert (Hidx : forall i x, nth_error (arr_data act) i = Some x -> i < size shape).
  { intros i x Hx. destruct Hact as [_ Hlen]. rewrite <- Hlen.
    apply nth_error_Some. congruence. }
  clearbody shape.
  unfold ActionClipWrapper._clip_to_spec. simpl.
  destruct (array_spec.minimum s) as [lo|] eqn:Emin,
           (array_spec.maximum s) as [hi|] eqn:Emax; simpl.
  - destruct (elementwise_full ActionClipWrapper.np_maximum Hact (Hlo lo eq_refl))
      as (mid & Emid & Hmid & Hmid_at).
    destruct (elementwise_full ActionClipWrapper.np_minimum Hmid (Hhi hi eq_refl))
      as (out & Eout & Hout & Hout_at).
    exists out. rewrite Emid. simpl. split; [exact Eout|]. split; [exact Hout|].
    intros i x Hx. pose proof (Hidx i x Hx) as Hi.
    destruct (item_fits (Hlo lo eq_refl) Hi) as [l Hl].
    destruct (item_fits (Hhi hi eq_refl) Hi) as [h Hh].
    rewrite Hl, Hh. unfold clip_value.
    apply Hout_at; [|exact Hh]. now apply Hmid_at.
  - destruct (elementwise_full ActionClipWrapper.np_maximum Hact (Hlo lo eq_refl))
      as (out & Eout & Hout & Hout_at).
    exists out. split; [exact Eout|]. split; [exact Hout|].
    intros i x Hx. pose proof (Hidx i x Hx) as Hi.
    destruct (item_fits (Hlo lo eq_refl) Hi) as [l Hl].
    rewrite Hl. unfold clip_value. now apply Hout_at.
  - destruct (elementwise_full ActionClipWrapper.np_minimum Hact (Hhi hi eq_refl))
      as (out & Eout & Hout & Hout_at).
    exists out. split; [exact Eout|]. split; [exact Hout|].
    intros i x Hx. pose proof (Hidx i x Hx) as Hi.
    destruct (item_fits (Hhi hi eq_refl) Hi) as [h Hh].
    rewrite Hh. unfold clip_value. now apply Hout_at.
  - exists act. split; [reflexivity|]. split; [exact Hact|].
    intros i x Hx. exact Hx.
Qed.

Section ActionClipMoreFacts.

Context {St num obs ospec img : Type}.
Variable env :
  py_environment.Base St (nest (ndarray np_float)) num obs
    (nest (array_spec.spec np_float)) ospec img.

(** [step] on a single array, for a single bounded spec. *)
Lemma ActionClip_step_leaf (self : ActionClipWrapper.state St)
    (s : array_spec.BoundedArraySpec np_float) (act out : ndarray np_float) :
  py_environment.action_spec env (ActionClipWrapper._env self) =
    leaf (array_spec.Bounded s) ->
  ActionClipWrapper._clip_to_spec (array_spec.Bounded s) act = Ok out ->
  ActionClipWrapper.step env (leaf act) self =
    Ok (fst (py_environment.step env (leaf out) (ActionClipWrapper._env self)),
        {| ActionClipWrapper._env :=
             snd (py_environment.step env (leaf out)
                    (ActionClipWrapper._env self)) |}).
Proof.
  intros Hspec Eclip. unfold ActionClipWrapper.step.
  rewrite Hspec. cbn [map_structure_up_to]. rewrite Eclip. cbn [bind].
  now destruct (py_environment.step env (leaf out) (ActionClipWrapper._env self)).
Qed.

(** X15. Clipping is idempotent, whatever the bounds: for a single bounded
    spec whose bounds fit its shape and an action of that shape, clipping
    the clipped action gives the clipped action again, and [step] with the
    clipped action does what [step] with the action does. *)
Theorem ActionClip_step_idempotent (self : ActionClipWrapper.state St)
    (s : array_spec.BoundedArraySpec np_float) (act : ndarray np_float) :
  let shape := array_spec.shape (array_spec.array_spec_of s) in
  py_environment.action_spec env (ActionClipWrapper._env self) =
    leaf (array_spec.Bounded s) ->
  has_shape shape act ->
  (forall lo, array_spec.minimum s = Some lo -> fits shape lo) ->
  (forall hi, array_spec.maximum s = Some hi -> fits shape hi) ->
  exists out,
    ActionClipWrapper._clip_to_spec (array_spec.Bounded s) act = Ok out /\
    ActionClipWrapper._clip_to_spec (array_spec.Bounded s) out = Ok out /\
    ActionClipWrapper.step env (leaf act) self =
      Ok (fst (py_environment.step env (leaf out) (ActionClipWrapper._env self)),
          {| ActionClipWrapper._env :=
               snd (py_environment.step env (leaf out)
                      (ActionClipWrapper._env self)) |}) /\
    ActionClipWrapper.step env (leaf out) self =
      ActionClipWrapper.step env (leaf act) self.
Proof.
  intros shape Hspec Hact Hlo Hhi.
  destruct (@clip_to_spec_values s act Hact Hlo Hhi) as (out & Eout & Hout & Hat).
  destruct (@clip_to_spec_values s out Hout Hlo Hhi) as (out' & Eout' & Hout' & Hat').
  assert (Heq : out' = out).
  { symmetry. apply (@ndarray_ext _ shape); [exact Hout | exact Hout' |].
    intros i y Hy.
    assert (Hi : i < length (arr_data act)).
    { assert (Hi' : i < length (arr_data out))
        by (apply nth_error_Some; congruence).
      destruct Hact as [_ Hl], Hout as [_ Hl']. unfold shape in *. lia. }
    destruct (nth_error (arr_data act) i) as [x|] eqn:Hx;
      [|apply nth_error_None in Hx; lia].
    rewrite (Hat i x Hx) in Hy. injection Hy as <-.
    rewrite (Hat' i _ (Hat i x Hx)).
    now rewrite clip_value_idempotent. }
  subst out'.
  exists out. split; [exact Eout|]. split; [exact Eout'|].
  rewrite (@ActionClip_step_leaf self s act out Hspec Eout).
  rewrite (@ActionClip_step_leaf self s out out Hspec Eout').
  split; reflexivity.
Qed.

(** X16. Infinite and [nan] elements of an action. For a single bounded
    spec with both bounds, which fit its shape and have the minimum not
    above the maximum in every position, and an action of that shape,
    [step] forwards an array of that shape in which a positive infinity has
    become the maximum of its position, a negative infinity the minimum,
    and [nan] has stayed [nan]; every element that comes from an element
    other than [nan] lies between the bounds of its position. *)
Theorem ActionClip_infinite_and_nan (self : ActionClipWrapper.state St)
    (s : array_spec.BoundedArraySpec np_float) (lo hi act : ndarray np_float) :
  let shape := array_spec.shape (array_spec.array_spec_of s) in
  py_environment.action_spec env (ActionClipWrapper._env self) =
    leaf (array_spec.Bounded s) ->
  array_spec.minimum s = Some lo ->
  array_spec.maximum s = Some hi ->
  fits shape lo -> fits shape hi ->
  (forall i l h,
     i < size shape -> item lo i = Some l -> item hi i = Some h ->
     float_le l h) ->
  has_shape shape act ->
  exists out,
    ActionClipWrapper.step env (leaf act) self =
      Ok (fst (py_environment.step env (leaf out) (ActionClipWrapper._env self)),
          {| ActionClipWrapper._env :=
               snd (py_environment.step env (leaf out)
                      (ActionClipWrapper._env self)) |}) /\
    has_shape shape out /\
    forall i x l h,
      nth_error (arr_data act) i = Some x ->
      item lo i = Some l -> item hi i = Some h ->
      exists y,
        nth_error (arr_data out) i = Some y /\
        (x = PosInf -> y = h) /\
        (x = NegInf -> y = l) /\
        (x = NaN -> y = NaN) /\
        (np_isnan x = false -> float_le l y /\ float_le y h).
Proof.
  intros shape Hspec Hmin Hmax Hlo Hhi Hord Hact.
  destruct (@clip_to_spec_values s act Hact) as (out & Eout & Hout & Hat).
  { intros lo' E. rewrite Hmin in E. now injection E as <-. }
  { intros hi' E. rewrite Hmax in E. now injection E as <-. }
  exists out. split; [exact (@ActionClip_step_leaf self s act out Hspec Eout)|].
  split; [exact Hout|].
  intros i x l h Hx Hl Hh.
  assert (Hi : i < size shape).
  { destruct Hact as [_ Hlen]. rewrite <- Hlen. apply nth_error_Some. congruence. }
  specialize (Hat i x Hx). rewrite Hmin, Hmax in Hat. cbn [bound_at] in Hat.
  rewrite Hl, Hh in Hat.
  exists (clip_value (Some l) (Some h) x). split; [exact Hat|].
  exact (@clip_value_infinite l h x (Hord i l h Hi Hl Hh)).
Qed.

End ActionClipMoreFacts.

(** ** [ActionOffsetWrapper]: reaching every action, and overflow *)

(** The difference of two values of a dtype that the dtype does not hold
    wraps around to a negative value. *)
Lemma wrap_overflow_negative (dt : dtype) (l h : Z) :
  in_range dt l -> in_range dt h -> (l <= h)%Z ->
  ~ in_range dt (h - l) -> (wrap dt (h - l) < 0)%Z.
Proof.
  unfold in_range, wrap. intros Hl Hh Hle Hout.
  destruct (int_range dt) as [[lo hi]|] eqn:Hr; [|now elim Hout].
  pose proof (int_range_sign dt Hr) as Hsign.
  assert (Hmod : ((h - l - lo) mod (hi - lo + 1) = h - l - lo - (hi - lo + 1))%Z).
  { symmetry. apply Z.mod_unique with (q := 1%Z); lia. }
  rewrite Hmod. lia.
Qed.

Section ActionOffsetMoreFacts.

Context {St num obs ospec img : Type}.
Variable env :
  py_environment.Base St (ndarray Z) num obs (nest (array_spec.spec Z)) ospec img.

(** X17. The offset wrapper reaches every action of the wrapped
    environment: where the dtype holds the difference of the bounds in
    every position, each action [x] valid under the original spec has the
    offset action [x - minimum], which is valid under the offset spec and
    which [step] forwards as [x] itself. *)
Theorem ActionOffset_reaches_every_action
    (e : St) (spec : array_spec.BoundedArraySpec Z) (lo hi : ndarray Z) :
  let shape := array_spec.shape (array_spec.array_spec_of spec) in
  let dt := array_spec.dtype_of (array_spec.array_spec_of spec) in
  py_environment.action_spec env e = leaf (array_spec.Bounded spec) ->
  array_spec.minimum spec = Some lo ->
  array_spec.maximum spec = Some hi ->
  ordered_bounds Z.le shape lo hi ->
  (forall i l, item lo i = Some l -> in_range dt l) ->
  (forall i h, item hi i = Some h -> in_range dt h) ->
  (forall i l h,
     i < size shape -> item lo i = Some l -> item hi i = Some h ->
     in_range dt (h - l)) ->
  exists offset_maximum,
    ActionOffsetWrapper.action_spec env {| ActionOffsetWrapper._env := e |} =
      Ok (array_spec.mkBoundedArraySpec (array_spec.mkArraySpec shape dt None)
            (Some (ActionOffsetWrapper.zeros shape)) (Some offset_maximum)) /\
    forall x,
      within Z.le shape lo hi x ->
      exists action,
        ActionOffsetWrapper.np_subtract dt x lo = Ok action /\
        within Z.le shape (ActionOffsetWrapper.zeros shape) offset_maximum action /\
        ActionOffsetWrapper.step env action {| ActionOffsetWrapper._env := e |} =
          Ok (fst (py_environment.step env x e),
              {| ActionOffsetWrapper._env := snd (py_environment.step env x e) |}).
Proof.
  intros shape dt Hspec Hlo Hhi (Hfl & Hfh & Hord) Hrl Hrh Hdiff.
  destruct (@ActionOffset_action_spec_cases _ _ _ _ _ env e spec lo hi
              Hspec Hlo Hhi Hfl Hfh)
    as (offmax & _ & Hfo & Hoff & Hok & _).
  fold shape dt in Hfo, Hoff, Hok.
  exists offmax. split.
  { apply Hok. intros i l h Hi Hl Hh.
    rewrite (@wrap_in_range dt (h - l)%Z (Hdiff i l h Hi Hl Hh)).
    pose proof (Hord i l h Hi Hl Hh). lia. }
  intros x [Hx Hin].
  destruct (elementwise_full (fun a b => wrap dt (a - b)) Hx Hfl)
    as (action & Eact & Hsa & Hact).
  destruct (elementwise_full (fun a b => wrap dt (a + b)) Hsa Hfl)
    as (fwd & Efwd & Hsf & Hfwd).
  assert (Hkey : forall i a,
             nth_error (arr_data x) i = Some a ->
             exists l h,
               item lo i = Some l /\ item hi i = Some h /\
               (l <= a <= h)%Z /\
               nth_error (arr_data action) i = Some (a - l)%Z /\
               nth_error (arr_data fwd) i = Some a).
  { intros i a Ha.
    assert (Hi : i < size shape).
    { destruct Hx as [_ Hlen]. rewrite <- Hlen. apply nth_error_Some. congruence. }
    destruct (item_fits Hfl Hi) as [l Hl].
    destruct (item_fits Hfh Hi) as [h Hh].
    destruct (Hin i a l h Ha Hl Hh) as [Hla Hah].
    pose proof (Hrl i l Hl) as Rl. pose proof (Hrh i h Hh) as Rh.
    pose proof (Hdiff i l h Hi Hl Hh) as Rd.
    assert (Rsub : in_range dt (a - l)).
    { unfold in_range in *.
      destruct (int_range dt) as [[lo' hi']|] eqn:Hr; [|exact I].
      pose proof (int_range_sign dt Hr). lia. }
    assert (Ra : in_range dt a).
    { unfold in_range in *.
      destruct (int_range dt) as [[lo' hi']|]; [lia | exact I]. }
    assert (Hsub : nth_error (arr_data action) i = Some (a - l)%Z).
    { rewrite <- (@wrap_in_range dt (a - l)%Z Rsub). now apply Hact. }
    exists l, h. split; [exact Hl|]. split; [exact Hh|]. split; [lia|].
    split; [exact Hsub|].
    rewrite (Hfwd i (a - l)%Z l Hsub Hl).
    replace (a - l + l)%Z with a by lia.
    now rewrite (@wrap_in_range dt a Ra). }
  assert (Heq : fwd = x).
  { symmetry. apply (@ndarray_ext _ shape); [exact Hx | exact Hsf |].
    intros i a Ha. destruct (Hkey i a Ha) as (l & h & _ & _ & _ & _ & Hf).
    exact Hf. }
  exists action. split; [exact Eact|]. split.
  { split; [exact Hsa|].
    intros i b z m Hb Hz Hm.
    assert (Hi : i < size shape).
    { destruct Hsa as [_ Hlen]. rewrite <- Hlen. apply nth_error_Some. congruence. }
    rewrite (@item_zeros shape i Hi) in Hz. injection Hz as <-.
    assert (Hix : i < length (arr_data x)).
    { destruct Hx as [_ Hlen]. lia. }
    destruct (nth_error (arr_data x) i) as [a|] eqn:Ha;
      [|apply nth_error_None in Ha; lia].
    destruct (Hkey i a Ha) as (l & h & Hl & Hh & Hlah & Hsub & _).
    rewrite Hsub in Hb. injection Hb as <-.
    rewrite (Hoff i l h Hi Hl Hh) in Hm. injection Hm as <-.
    rewrite (@wrap_in_range dt (h - l)%Z (Hdiff i l h Hi Hl Hh)). lia. }
  unfold ActionOffsetWrapper.step.
  cbn [ActionOffsetWrapper._env]. rewrite Hspec. simpl. rewrite Hlo.
  fold dt. unfold ActionOffsetWrapper.np_add. rewrite Efwd. simpl.
  rewrite Heq. now destruct (py_environment.step env x e).
Qed.

(** X18. Where the dtype does not hold the difference of the bounds of some
    position, the difference computed in the dtype is negative there, below
    the minimum 0 of the offset spec: the wrapper is constructed, but
    [action_spec()] raises [ValueError], since the constructor of the
    bounded spec refuses a minimum above the maximum. *)
Theorem ActionOffset_overflow_raises
    (e : St) (spec : array_spec.BoundedArraySpec Z) (lo hi : ndarray Z)
    (i : nat) (l h : Z) :
  let shape := array_spec.shape (array_spec.array_spec_of spec) in
  let dt := array_spec.dtype_of (array_spec.array_spec_of spec) in
  py_environment.action_spec env e = leaf (array_spec.Bounded spec) ->
  array_spec.minimum spec = Some lo ->
  array_spec.maximum spec = Some hi ->
  ordered_bounds Z.le shape lo hi ->
  (forall i l, item lo i = Some l -> in_range dt l) ->
  (forall i h, item hi i = Some h -> in_range dt h) ->
  i < size shape -> item lo i = Some l -> item hi i = Some h ->
  ~ in_range dt (h - l) ->
  exists offset_maximum m,
    ActionOffsetWrapper.__init__ env e = Ok {| ActionOffsetWrapper._env := e |} /\
    ActionOffsetWrapper.np_subtract dt hi lo = Ok offset_maximum /\
    item offset_maximum i = Some m /\ (m < 0)%Z /\
    ActionOffsetWrapper.action_spec env {| ActionOffsetWrapper._env := e |} =
      Raise ValueError.
Proof.
  intros shape dt Hspec Hlo Hhi (Hfl & Hfh & Hord) Hrl Hrh Hi Hl Hh Hout.
  destruct (@ActionOffset_action_spec_cases _ _ _ _ _ env e spec lo hi
              Hspec Hlo Hhi Hfl Hfh)
    as (offmax & Eoff & Hfo & Hoff & _ & Hraise).
  fold shape dt in Eoff, Hfo, Hoff, Hraise.
  pose proof (@wrap_overflow_negative dt l h (Hrl i l Hl) (Hrh i h Hh)
                (Hord i l h Hi Hl Hh) Hout) as Hneg.
  exists offmax, (wrap dt (h - l)).
  split.
  { unfold ActionOffsetWrapper.__init__. rewrite Hspec. simpl. fold dt.
    unfold array_spec.is_discrete. simpl. fold dt.
    unfold in_range in Hout.
    destruct (int_range dt); [reflexivity | now elim Hout]. }
  split; [exact Eoff|]. split; [now apply Hoff|]. split; [exact Hneg|].
  apply Hraise. now exists i, l, h.
Qed.

End ActionOffsetMoreFacts.

(** ** [FlattenObservationsWrapper]: the order of a dict *)

Lemma string_compare_le_trans (s1 : string) :
  forall s2 s3,
    String.compare s1 s2 <> Gt -> String.compare s2 s3 <> Gt ->
    String.compare s1 s3 <> Gt.
Proof.
  induction s1 as [|c1 s1 IH]; intros [|c2 s2] [|c3 s3]; simpl;
    try congruence.
  unfold Ascii.compare.
  destruct (N.compare_spec (N_of_ascii c1) (N_of_ascii c2)),
           (N.compare_spec (N_of_ascii c2) (N_of_ascii c3)),
           (N.compare_spec (N_of_ascii c1) (N_of_ascii c3));
    intros Hle1 Hle2; try congruence; try (exfalso; lia).
  now apply (IH s2 s3).
Qed.

Lemma string_leb_trans (s1 s2 s3 : string) :
  String.leb s1 s2 = true -> String.leb s2 s3 = true -> String.leb s1 s3 = true.
Proof.
  unfold String.leb. generalize (@string_compare_le_trans s1 s2 s3).
  destruct (String.compare s1 s2), (String.compare s2 s3),
           (String.compare s1 s3);
    intros H H1 H2; try reflexivity; try discriminate;
    exfalso; apply H; congruence.
Qed.

(** Two items with different keys can be inserted in either order. *)
Lemma insert_by_key_comm {V : Type} (x y : string * V) (l : list (string * V)) :
  fst x <> fst y ->
  insert_by_key x (insert_by_key y l) = insert_by_key y (insert_by_key x l).
Proof.
  intros Hne. induction l as [|z tl IH].
  - cbn [insert_by_key].
    destruct (String.leb (fst x) (fst y)) eqn:Exy,
             (String.leb (fst y) (fst x)) eqn:Eyx; try reflexivity.
    + elim Hne. now apply String.leb_antisym.
    + destruct (String.leb_total (fst x) (fst y)); congruence.
  - destruct (String.leb (fst x) (fst y)) eqn:Exy,
             (String.leb (fst y) (fst x)) eqn:Eyx,
             (String.leb (fst y) (fst z)) eqn:Eyz,
             (String.leb (fst x) (fst z)) eqn:Exz;
      cbn [insert_by_key]; rewrite ?Exy, ?Eyx, ?Eyz, ?Exz;
      cbn [insert_by_key]; rewrite ?Exy, ?Eyx, ?Eyz, ?Exz;
      try reflexivity; try (now rewrite IH);
      try (elim Hne; now apply String.leb_antisym);
      try (destruct (String.leb_total (fst x) (fst y)); congruence);
      try (pose proof (string_leb_trans _ _ _ Exy Eyz); congruence);
      try (pose proof (string_leb_trans _ _ _ Eyx Exz); congruence).
Qed.

(** Sorting by key does not depend on the order of the items of a dict,
    whose keys are distinct. *)
Lemma sort_by_key_permutation {V : Type} (l l' : list (string * V)) :
  Permutation l l' -> NoDup (map fst l) -> sort_by_key l = sort_by_key l'.
Proof.
  unfold sort_by_key.
  induction 1 as [|x l l' Hp IH|x y l|l l' l'' Hp1 IH1 Hp2 IH2]; intros Hnd.
  - reflexivity.
  - cbn [fold_right]. rewrite IH; [reflexivity|].
    simpl in Hnd. now inversion Hnd.
  - cbn [fold_right]. apply insert_by_key_comm.
    simpl in Hnd. inversion Hnd as [|? ? Hnot _]; subst.
    intros Heq. apply Hnot. left. now symmetry.
  - rewrite IH1 by assumption. apply IH2.
    exact (Permutation_NoDup (Permutation_map fst Hp1) Hnd).
Qed.

Lemma filter_permutation {X : Type} (p : X -> bool) (l l' : list X) :
  Permutation l l' -> Permutation (filter p l) (filter p l').
Proof.
  induction 1 as [|x l l' Hp IH|x y l|l l' l'' Hp1 IH1 Hp2 IH2]; cbn [filter].
  - constructor.
  - destruct (p x); [now constructor | assumption].
  - destruct (p y), (p x); try apply perm_swap; apply Permutation_refl.
  - eapply perm_trans; eassumption.
Qed.

Lemma NoDup_map_filter {X Y : Type} (f : X -> Y) (p : X -> bool) (l : list X) :
  NoDup (map f l) -> NoDup (map f (filter p l)).
Proof.
  induction l as [|a tl IH]; cbn [map filter]; intros H; [constructor|].
  inversion H as [|? ? Hnot Hnd]; subst.
  destruct (p a); cbn [map]; [constructor|]; auto.
  intros Hin. apply Hnot. apply in_map_iff in Hin.
  destruct Hin as (x & Hx & Hin). apply filter_In in Hin.
  apply in_map_iff. exists x. tauto.
Qed.

Lemma whitelisted_ext {V : Type} (w w' : list string) (kv : string * V) :
  (forall k, In k w <-> In k w') ->
  FlattenObservationsWrapper.whitelisted w kv =
  FlattenObservationsWrapper.whitelisted w' kv.
Proof.
  intros Hww. unfold FlattenObservationsWrapper.whitelisted.
  destruct (existsb (String.eqb (fst kv)) w) eqn:E,
           (existsb (String.eqb (fst kv)) w') eqn:E'; try reflexivity.
  - apply existsb_exists in E. destruct E as (k & Hk & Ek).
    assert (Hex : existsb (String.eqb (fst kv)) w' = true).
    { apply existsb_exists. exists k. split; [now apply Hww | exact Ek]. }
    congruence.
  - apply existsb_exists in E'. destruct E' as (k & Hk & Ek).
    assert (Hex : existsb (String.eqb (fst kv)) w = true).
    { apply existsb_exists. exists k. split; [now apply Hww | exact Ek]. }
    congruence.
Qed.

(** The leaves of a dict do not depend on the order of its items. *)
Lemma flatten_ndict_permutation {V : Type} (items items' : list (string * nest V)) :
  Permutation items items' -> NoDup (map fst items) ->
  flatten (ndict items) = flatten (ndict items').
Proof.
  intros Hp Hnd. cbn [flatten]. f_equal. f_equal.
  apply sort_by_key_permutation.
  - now apply Permutation_map.
  - rewrite map_map.
    replace (map (fun x : string * nest V =>
                    fst (let (k, v) := x in (k, flatten v))) items)
      with (map fst items); [exact Hnd|].
    apply map_ext. now intros [k v].
Qed.

Lemma flatten_nested_observations_permutation {A : Type}
    (items items' : list (string * nest (ndarray A))) (is_batched : bool) :
  Permutation items items' -> NoDup (map fst items) ->
  FlattenObservationsWrapper._flatten_nested_observations (ndict items) is_batched =
  FlattenObservationsWrapper._flatten_nested_observations (ndict items') is_batched.
Proof.
  intros Hp Hnd.
  unfold FlattenObservationsWrapper._flatten_nested_observations.
  cbn [map_structure].
  rewrite (@flatten_ndict_permutation _
             (map (fun kv : string * nest (ndarray A) =>
                     let (k, v) := kv in
                     (k, map_structure
                           (FlattenObservationsWrapper.np_flatten is_batched) v))
                items)
             (map (fun kv : string * nest (ndarray A) =>
                     let (k, v) := kv in
                     (k, map_structure
                           (FlattenObservationsWrapper.np_flatten is_batched) v))
                items')).
  - reflexivity.
  - now apply Permutation_map.
  - rewrite map_map.
    replace (map (fun x : string * nest (ndarray A) =>
                    fst (let (k, v) := x in
                         (k, map_structure
                               (FlattenObservationsWrapper.np_flatten is_batched) v)))
               items)
      with (map fst items); [exact Hnd|].
    apply map_ext. now intros [k v].
Qed.

Section FlattenObservationsOrderFacts.

Context {St action num A aspec img : Type}.
Variable batched : St -> bool.

(** X19. The packed time step depends neither on the order in which the
    dict of observations lists its items nor on the order or the
    repetitions of the whitelist: two wrappers whose whitelists hold the
    same keys pack two time steps that agree in step type, reward and
    discount, and whose observation dicts hold the same items in any order,
    into the same time step, or fail with the same exception. *)
Theorem FlattenObservations_order_independent
    (self self' : FlattenObservationsWrapper.state St) (e' : St)
    (timestep timestep' : TimeStep num (nest (ndarray A)))
    (items items' : list (string * nest (ndarray A))) :
  match FlattenObservationsWrapper._observations_whitelist self,
        FlattenObservationsWrapper._observations_whitelist self' with
  | None, None => True
  | Some w, Some w' => forall k, In k w <-> In k w'
  | _, _ => False
  end ->
  observation timestep = ndict items ->
  observation timestep' = ndict items' ->
  Permutation items items' ->
  NoDup (map fst items) ->
  step_type timestep = step_type timestep' ->
  reward timestep = reward timestep' ->
  discount timestep = discount timestep' ->
  FlattenObservationsWrapper._pack_and_filter_timestep_observation
    batched self e' timestep =
  FlattenObservationsWrapper._pack_and_filter_timestep_observation
    batched self' e' timestep'.
Proof.
  intros Hw Hobs Hobs' Hp Hnd Hst Hr Hd.
  unfold FlattenObservationsWrapper._pack_and_filter_timestep_observation.
  rewrite Hobs, Hobs', Hst, Hr, Hd.
  destruct (FlattenObservationsWrapper._observations_whitelist self) as [w|],
           (FlattenObservationsWrapper._observations_whitelist self') as [w'|];
    try contradiction.
  - cbn [FlattenObservationsWrapper._filter_observations bind].
    rewrite <- (filter_ext _ _ (fun kv => @whitelisted_ext _ w w' kv Hw) items').
    rewrite (@flatten_nested_observations_permutation A
               (filter (FlattenObservationsWrapper.whitelisted w) items)
               (filter (FlattenObservationsWrapper.whitelisted w) items')
               (batched e')).
    + reflexivity.
    + now apply filter_permutation.
    + now apply NoDup_map_filter.
  - cbn [bind].
    now rewrite (@flatten_nested_observations_permutation A items items'
                   (batched e') Hp Hnd).
Qed.

End FlattenObservationsOrderFacts.

(** ** [FlattenObservationsWrapper]: what the constructor refuses *)

Lemma nodup_two_values (l : list dtype) (d d' : dtype) :
  In d l -> In d' l -> d <> d' ->
  match nodup dtype_eq_dec l with
  | [_] => False
  | _ => True
  end.
Proof.
  intros Hd Hd' Hne.
  apply (nodup_In dtype_eq_dec) in Hd. apply (nodup_In dtype_eq_dec) in Hd'.
  destruct (nodup dtype_eq_dec l) as [|x [|y tl]]; try exact I.
  simpl in Hd, Hd'. destruct Hd as [<-|[]], Hd' as [<-|[]]. now apply Hne.
Qed.

Section FlattenObservationsInitFacts.

Context {St action num A aspec img : Type}.
Variable env :
  py_environment.Base St action num (nest (ndarray A)) aspec
    (nest array_spec.ArraySpec) img.

(** The constructor on a dict of array specs that holds the keys of the
    whitelist. *)
Lemma FlattenObservations_init_dict
    (e : St) (observations_whitelist : option (list string))
    (spec_items : list (string * array_spec.ArraySpec)) :
  py_environment.observation_spec env e = dict_of spec_items ->
  match observations_whitelist with
  | None => True
  | Some whitelist => incl whitelist (map fst spec_items)
  end ->
  FlattenObservationsWrapper.__init__ env e observations_whitelist =
  match nodup dtype_eq_dec
          (map (fun kv => array_spec.dtype_of (snd kv)) spec_items) with
  | [dt] =>
      match map snd (kept observations_whitelist spec_items) with
      | [] => Raise ValueError
      | specs =>
          Ok {| FlattenObservationsWrapper._env := e;
                FlattenObservationsWrapper._observation_spec_dtype := dt;
                FlattenObservationsWrapper._observations_whitelist :=
                  observations_whitelist;
                FlattenObservationsWrapper._flattened_observation_spec :=
                  array_spec.mkArraySpec
                    [list_sum (map (fun s => size (array_spec.shape s)) specs)]
                    dt (Some "packed_observations"%string) |}
      end
  | _ => Raise ValueError
  end.
Proof.
  intros Hspec Hincl.
  unfold FlattenObservationsWrapper.__init__. rewrite Hspec.
  unfold dict_of at 1 2. rewrite !map_map. cbn [fst snd].
  assert (Hcheck :
            match observations_whitelist with
            | None => Ok tt
            | Some whitelist =>
                if forallb
                     (fun k => existsb (String.eqb k) (map fst spec_items))
                     whitelist
                then Ok tt else Raise ValueError
            end = Ok tt).
  { destruct observations_whitelist as [w|]; [|reflexivity].
    assert (Hall : forallb
                     (fun k => existsb (String.eqb k) (map fst spec_items)) w =
                   true).
    { apply forallb_forall. intros k Hk. apply existsb_exists.
      exists k. split; [now apply Hincl | apply String.eqb_refl]. }
    now rewrite Hall. }
  replace (map (fun x : string * array_spec.ArraySpec => fst x) spec_items)
    with (map fst spec_items) by reflexivity.
  rewrite Hcheck. cbn [bind].
  rewrite (sequence_results_Ok
             (fun kv : string * array_spec.ArraySpec =>
                Ok (array_spec.dtype_of (snd kv)))
             (fun kv => array_spec.dtype_of (snd kv)) spec_items)
    by reflexivity.
  cbn [bind].
  destruct (nodup dtype_eq_dec
              (map (fun kv => array_spec.dtype_of (snd kv)) spec_items))
    as [|dt [|dt' rest]]; try reflexivity.
  assert (Hfiltered : exists specs,
             match observations_whitelist with
             | None => Ok (dict_of spec_items)
             | Some w =>
                 FlattenObservationsWrapper._filter_observations w
                   (dict_of spec_items)
             end = Ok specs /\
             flatten specs = map snd (kept observations_whitelist spec_items)).
  { destruct observations_whitelist as [w|].
    - exists (dict_of (filter (FlattenObservationsWrapper.whitelisted w) spec_items)).
      split; [apply filter_dict_of | apply flatten_dict_of].
    - exists (dict_of spec_items). split; [reflexivity | apply flatten_dict_of]. }
  destruct Hfiltered as (specs & Especs & Hflatten).
  replace (ndict (map (fun x => (fst x, leaf (snd x))) spec_items))
    with (dict_of spec_items) by reflexivity.
  rewrite Especs. cbn [bind].
  unfold FlattenObservationsWrapper._flatten_nested_specs. rewrite Hflatten.
  destruct (map snd (kept observations_whitelist spec_items)) as [|s0 rest];
    reflexivity.
Qed.

(** X20. What the constructor refuses. With a whitelist it raises
    [ValueError] for an observation spec that is not a dict and for a
    whitelist key that the dict does not hold; without one it raises
    [AttributeError] for a spec that is not a dict. For a dict of array
    specs it raises [ValueError] when two of the specs differ in dtype,
    whether the whitelist keeps them or not, when the dict is empty, and
    when the whitelist is empty. *)
Theorem FlattenObservations_init_errors (e : St) :
  (forall whitelist,
     (forall items, py_environment.observation_spec env e <> ndict items) ->
     FlattenObservationsWrapper.__init__ env e (Some whitelist) =
       Raise ValueError) /\
  (forall whitelist items k,
     py_environment.observation_spec env e = ndict items ->
     In k whitelist -> ~ In k (map fst items) ->
     FlattenObservationsWrapper.__init__ env e (Some whitelist) =
       Raise ValueError) /\
  ((forall items, py_environment.observation_spec env e <> ndict items) ->
   FlattenObservationsWrapper.__init__ env e None = Raise AttributeError) /\
  (forall observations_whitelist spec_items kv kv',
     py_environment.observation_spec env e = dict_of spec_items ->
     match observations_whitelist with
     | None => True
     | Some whitelist => incl whitelist (map fst spec_items)
     end ->
     In kv spec_items -> In kv' spec_items ->
     array_spec.dtype_of (snd kv) <> array_spec.dtype_of (snd kv') ->
     FlattenObservationsWrapper.__init__ env e observations_whitelist =
       Raise ValueError) /\
  (py_environment.observation_spec env e = dict_of [] ->
   forall observations_whitelist,
     FlattenObservationsWrapper.__init__ env e observations_whitelist =
       Raise ValueError) /\
  (forall spec_items,
     py_environment.observation_spec env e = dict_of spec_items ->
     FlattenObservationsWrapper.__init__ env e (Some []) = Raise ValueError).
Proof.
  split; [|split; [|split; [|split; [|split]]]].
  - intros whitelist Hnot. unfold FlattenObservationsWrapper.__init__.
    destruct (py_environment.observation_spec env e) as [s|items|items];
      try reflexivity.
    now elim (Hnot items).
  - intros whitelist items k Hspec Hk Hnot.
    unfold FlattenObservationsWrapper.__init__. rewrite Hspec.
    assert (Hall : forallb (fun k => existsb (String.eqb k) (map fst items))
                     whitelist = false).
    { destruct (forallb (fun k => existsb (String.eqb k) (map fst items))
                  whitelist) eqn:E; [|reflexivity].
      rewrite forallb_forall in E. specialize (E k Hk).
      apply existsb_exists in E. destruct E as (k' & Hk' & Ek).
      apply String.eqb_eq in Ek. subst k'. now elim Hnot. }
    now rewrite Hall.
  - intros Hnot. unfold FlattenObservationsWrapper.__init__.
    destruct (py_environment.observation_spec env e) as [s|items|items];
      try reflexivity.
    now elim (Hnot items).
  - intros wl spec_items kv kv' Hspec Hincl Hkv Hkv' Hne.
    rewrite (@FlattenObservations_init_dict e wl spec_items Hspec Hincl).
    pose proof (@nodup_two_values
                  (map (fun kv => array_spec.dtype_of (snd kv)) spec_items)
                  (array_spec.dtype_of (snd kv)) (array_spec.dtype_of (snd kv'))
                  (in_map _ _ _ Hkv) (in_map _ _ _ Hkv') Hne) as Htwo.
    destruct (nodup dtype_eq_dec
                (map (fun kv => array_spec.dtype_of (snd kv)) spec_items))
      as [|dt [|dt' rest]]; try reflexivity.
    contradiction.
  - intros Hspec wl.
    destruct wl as [[|k w]|].
    + now rewrite (@FlattenObservations_init_dict e (Some []) [] Hspec
                     (incl_nil_l _)).
    + unfold FlattenObservationsWrapper.__init__. rewrite Hspec. reflexivity.
    + now rewrite (@FlattenObservations_init_dict e None [] Hspec I).
  - intros spec_items Hspec.
    rewrite (@FlattenObservations_init_dict e (Some []) spec_items Hspec
               (incl_nil_l _)).
    assert (Hkept : kept (Some []) spec_items = []).
    { assert (Hnil : forall l : list (string * array_spec.ArraySpec),
                 filter (FlattenObservationsWrapper.whitelisted []) l = []).
      { induction l as [|kv tl IH]; [reflexivity|].
        cbn [filter]. unfold FlattenObservationsWrapper.whitelisted at 1.
        cbn [existsb]. exact IH. }
      unfold kept. now rewrite Hnil. }
    rewrite Hkept. cbn [map].
    now destruct (nodup dtype_eq_dec
                    (map (fun kv => array_spec.dtype_of (snd kv)) spec_items))
      as [|dt [|dt' rest]].
Qed.

End FlattenObservationsInitFacts.

(** ** [TFEnvironmentMock] *)

Lemma TFEnvironmentMock_current_time_step (self : TFEnvironmentMock.state) :
  exists time_step,
    TFEnvironmentMock.current_time_step self = Some time_step /\
    cycle_time_step (TFEnvironmentMock._state self) time_step.
Proof.
  unfold TFEnvironmentMock.current_time_step, cycle_time_step.
  pose proof (Z.mod_pos_bound (TFEnvironmentMock._state self) 3 ltac:(lia)) as Hv.
  destruct (Z.eqb_spec (TFEnvironmentMock._state self mod 3) 0) as [E0|N0];
    [eexists; split; [reflexivity|]; cbn; split; [reflexivity|]; left; auto|].
  destruct (Z.eqb_spec (TFEnvironmentMock._state self mod 3) 1) as [E1|N1];
    [eexists; split; [reflexivity|]; cbn; split; [reflexivity|];
     right; left; auto|].
  destruct (Z.eqb_spec (TFEnvironmentMock._state self mod 3) 2) as [E2|N2];
    [eexists; split; [reflexivity|]; cbn; split; [reflexivity|];
     right; right; auto|].
  lia.
Qed.

(** One step from a state value that the dtype can still increase. *)
Lemma TFEnvironmentMock_step_state (a : Z) (self : TFEnvironmentMock.state) :
  in_range (TFEnvironmentMock._dtype self) (TFEnvironmentMock._state self + 1) ->
  let self' := snd (TFEnvironmentMock.step a self) in
  fst (TFEnvironmentMock.step a self) = TFEnvironmentMock.current_time_step self' /\
  TFEnvironmentMock._state self' = (TFEnvironmentMock._state self + 1)%Z /\
  TFEnvironmentMock._dtype self' = TFEnvironmentMock._dtype self /\
  TFEnvironmentMock._initial_state self' = TFEnvironmentMock._initial_state self /\
  TFEnvironmentMock.resets self' = TFEnvironmentMock.resets self /\
  TFEnvironmentMock.steps self' =
    (if ((TFEnvironmentMock._state self + 1) mod 3 =? 0)%Z
     then TFEnvironmentMock.steps self
     else wrap int32 (TFEnvironmentMock.steps self + 1)) /\
  TFEnvironmentMock.episodes self' =
    (if ((TFEnvironmentMock._state self + 1) mod 3 =? 2)%Z
     then wrap int32 (TFEnvironmentMock.episodes self + 1)
     else TFEnvironmentMock.episodes self).
Proof.
  intros Hr. unfold TFEnvironmentMock.step. cbn [fst snd].
  cbn [TFEnvironmentMock._state TFEnvironmentMock._dtype
       TFEnvironmentMock._initial_state TFEnvironmentMock.resets
       TFEnvironmentMock.steps TFEnvironmentMock.episodes].
  rewrite (@wrap_in_range _ _ Hr). repeat split; reflexivity.
Qed.

Lemma in_range_between (dt : dtype) (x y z : Z) :
  in_range dt x -> in_range dt z -> (x <= y <= z)%Z -> in_range dt y.
Proof.
  unfold in_range. destruct (int_range dt) as [[lo hi]|]; [lia | auto].
Qed.

Lemma TFEnvironmentMock_run_steps_state (actions : list Z) :
  forall self : TFEnvironmentMock.state,
    let s := TFEnvironmentMock._state self in
    let dt := TFEnvironmentMock._dtype self in
    in_range dt s ->
    in_range dt (s + Z.of_nat (length actions)) ->
    let trace := fst (TFEnvironmentMock.run_steps actions self) in
    let self' := snd (TFEnvironmentMock.run_steps actions self) in
    length trace = length actions /\
    TFEnvironmentMock._state self' = (s + Z.of_nat (length actions))%Z /\
    TFEnvironmentMock._dtype self' = dt /\
    TFEnvironmentMock._initial_state self' = TFEnvironmentMock._initial_state self /\
    TFEnvironmentMock.resets self' = TFEnvironmentMock.resets self /\
    forall k r,
      nth_error trace k = Some r ->
      exists time_step,
        r = Some time_step /\
        cycle_time_step (s + Z.of_nat k + 1) time_step.
Proof.
  induction actions as [|a rest IH]; intros self s dt Hs Hn.
  - cbn. repeat split; try reflexivity; try (unfold s; lia).
    intros [|k] r Hr; discriminate.
  - cbn [TFEnvironmentMock.run_steps].
    assert (H1 : in_range dt (s + 1)).
    { apply (@in_range_between dt s (s + 1)%Z _ Hs Hn).
      cbn [length]. lia. }
    destruct (@TFEnvironmentMock_step_state a self H1)
      as (Hts & Hst & Hdt & Hini & Hres & _).
    destruct (TFEnvironmentMock.step a self) as [r1 self1] eqn:Estep.
    cbn [fst snd] in Hts, Hst, Hdt, Hini, Hres.
    specialize (IH self1). cbv zeta in IH.
    rewrite Hst, Hdt in IH. fold s dt in IH.
    destruct IH as (Hlen & Hst' & Hdt' & Hini' & Hres' & Htrace).
    { exact H1. }
    { replace (s + 1 + Z.of_nat (length rest))%Z
        with (s + Z.of_nat (length (a :: rest)))%Z by (cbn [length]; lia).
      exact Hn. }
    destruct (TFEnvironmentMock.run_steps rest self1) as [more self2].
    cbn [fst snd] in *.
    split; [cbn [length]; now rewrite Hlen|].
    split; [rewrite Hst'; cbn [length]; lia|].
    split; [exact Hdt'|]. split; [congruence|]. split; [congruence|].
    intros [|k] r Hr; cbn [nth_error] in Hr.
    + injection Hr as <-. rewrite Hts.
      destruct (TFEnvironmentMock_current_time_step self1) as (ts & Ets & Hcyc).
      exists ts. split; [exact Ets|]. rewrite Hst in Hcyc.
      replace (s + Z.of_nat 0 + 1)%Z with (s + 1)%Z by lia. exact Hcyc.
    + destruct (Htrace k r Hr) as (ts & Ets & Hcyc).
      exists ts. split; [exact Ets|].
      replace (s + Z.of_nat (S k) + 1)%Z with (s + 1 + Z.of_nat k + 1)%Z by lia.
      exact Hcyc.
Qed.

(** X21. The mock runs through a cycle of period 3. While the dtype holds
    the state, [n] steps add [n] to it, and the [k]-th of them (from 0)
    returns, without failing, the time step of the state value [s + k + 1]:
    its observation is that value modulo 3, and it is [FIRST] with reward 0
    and discount 1 for 0, [MID] with reward 0 and discount 1 for 1, and
    [LAST] with reward 1 and discount 0 for 2. *)
Theorem TFEnvironmentMock_steps_cycle
    (self : TFEnvironmentMock.state) (actions : list Z) :
  let s := TFEnvironmentMock._state self in
  let dt := TFEnvironmentMock._dtype self in
  int_range dt <> None ->
  in_range dt s ->
  in_range dt (s + Z.of_nat (length actions)) ->
  let trace := fst (TFEnvironmentMock.run_steps actions self) in
  let self' := snd (TFEnvironmentMock.run_steps actions self) in
  length trace = length actions /\
  TFEnvironmentMock._state self' = (s + Z.of_nat (length actions))%Z /\
  forall k r,
    nth_error trace k = Some r ->
    exists time_step,
      r = Some time_step /\
      cycle_time_step (s + Z.of_nat k + 1) time_step.
Proof.
  intros s dt _ Hs Hn trace self'.
  destruct (@TFEnvironmentMock_run_steps_state actions self Hs Hn)
    as (Hlen & Hst & _ & _ & _ & Htrace).
  split; [exact Hlen|]. split; [exact Hst | exact Htrace].
Qed.

Lemma TFEnvironmentMock_run_steps_counters (actions : list Z) :
  forall self : TFEnvironmentMock.state,
    let s := TFEnvironmentMock._state self in
    let dt := TFEnvironmentMock._dtype self in
    let n := Z.of_nat (length actions) in
    in_range dt s -> in_range dt (s + n) ->
    in_range int32 (TFEnvironmentMock.steps self) ->
    in_range int32 (TFEnvironmentMock.steps self + n) ->
    in_range int32 (TFEnvironmentMock.episodes self) ->
    in_range int32 (TFEnvironmentMock.episodes self + n) ->
    let self' := snd (TFEnvironmentMock.run_steps actions self) in
    TFEnvironmentMock.steps self' =
      (TFEnvironmentMock.steps self + n - ((s + n) / 3 - s / 3))%Z /\
    TFEnvironmentMock.episodes self' =
      (TFEnvironmentMock.episodes self + ((s + n + 1) / 3 - (s + 1) / 3))%Z.
Proof.
  induction actions as [|a rest IH]; intros self s dt n Hs Hn Hst Hstn He Hen.
  - cbn. subst n. cbn [length Z.of_nat].
    rewrite !Z.add_0_r. split; lia.
  - cbn [TFEnvironmentMock.run_steps].
    assert (Hn' : n = (1 + Z.of_nat (length rest))%Z)
      by (subst n; cbn [length]; lia).
    assert (H1 : in_range dt (s + 1)).
    { apply (@in_range_between dt s (s + 1)%Z _ Hs Hn). lia. }
    destruct (@TFEnvironmentMock_step_state a self H1)
      as (_ & Hst1 & Hdt1 & _ & _ & Hsteps1 & Hepis1).
    destruct (TFEnvironmentMock.step a self) as [r1 self1] eqn:Estep.
    cbn [fst snd] in Hst1, Hdt1, Hsteps1, Hepis1.
    fold s in Hsteps1, Hepis1.
    assert (Rs1 : in_range int32 (TFEnvironmentMock.steps self + 1)).
    { apply (@in_range_between int32 (TFEnvironmentMock.steps self) _ _ Hst Hstn).
      lia. }
    assert (Re1 : in_range int32 (TFEnvironmentMock.episodes self + 1)).
    { apply (@in_range_between int32 (TFEnvironmentMock.episodes self) _ _ He Hen).
      lia. }
    rewrite (@wrap_in_range _ _ Rs1) in Hsteps1.
    rewrite (@wrap_in_range _ _ Re1) in Hepis1.
    assert (Hsteps1' : TFEnvironmentMock.steps self1 =
                       (TFEnvironmentMock.steps self + 1 - ((s + 1) / 3 - s / 3))%Z).
    { rewrite Hsteps1.
      destruct (Z.eqb_spec ((s + 1) mod 3) 0); Z.div_mod_to_equations; lia. }
    assert (Hepis1' : TFEnvironmentMock.episodes self1 =
                      (TFEnvironmentMock.episodes self +
                       ((s + 1 + 1) / 3 - (s + 1) / 3))%Z).
    { rewrite Hepis1.
      destruct (Z.eqb_spec ((s + 1) mod 3) 2); Z.div_mod_to_equations; lia. }
    specialize (IH self1). cbv zeta in IH.
    rewrite Hst1, Hdt1 in IH. fold s dt in IH.
    destruct IH as (Hsteps & Hepis).
    { exact H1. }
    { replace (s + 1 + Z.of_nat (length rest))%Z with (s + n)%Z by lia.
      exact Hn. }
    { rewrite Hsteps1'.
      apply (@in_range_between int32 (TFEnvironmentMock.steps self) _ _ Hst Rs1).
      Z.div_mod_to_equations. lia. }
    { rewrite Hsteps1'.
      apply (@in_range_between int32 (TFEnvironmentMock.steps self) _ _ Hst Hstn).
      Z.div_mod_to_equations. lia. }
    { rewrite Hepis1'.
      apply (@in_range_between int32 (TFEnvironmentMock.episodes self) _ _ He Re1).
      Z.div_mod_to_equations. lia. }
    { rewrite Hepis1'.
      apply (@in_range_between int32 (TFEnvironmentMock.episodes self) _ _ He Hen).
      Z.div_mod_to_equations. lia. }
    destruct (TFEnvironmentMock.run_steps rest self1) as [more self2].
    cbn [fst snd] in *.
    rewrite Hsteps, Hepis, Hsteps1', Hepis1'.
    replace (s + 1 + Z.of_nat (length rest))%Z with (s + n)%Z by lia.
    split; lia.
Qed.

(** X22. The counters of the mock in closed form. While the dtype holds
    the state and [int32] the counters, [n] steps from the state value [s]
    add to [steps] the number of state values from [s + 1] to [s + n] that
    are not multiples of 3, and to [episodes] the number of those that are
    2 modulo 3; [resets] is not changed. Three steps add 2 to [steps] and 1
    to [episodes] from every state. *)
Theorem TFEnvironmentMock_counters
    (self : TFEnvironmentMock.state) (actions : list Z) :
  let s := TFEnvironmentMock._state self in
  let dt := TFEnvironmentMock._dtype self in
  let n := Z.of_nat (length actions) in
  int_range dt <> None ->
  in_range dt s -> in_range dt (s + n) ->
  in_range int32 (TFEnvironmentMock.steps self) ->
  in_range int32 (TFEnvironmentMock.steps self + n) ->
  in_range int32 (TFEnvironmentMock.episodes self) ->
  in_range int32 (TFEnvironmentMock.episodes self + n) ->
  let self' := snd (TFEnvironmentMock.run_steps actions self) in
  TFEnvironmentMock.steps self' =
    (TFEnvironmentMock.steps self + n - ((s + n) / 3 - s / 3))%Z /\
  TFEnvironmentMock.episodes self' =
    (TFEnvironmentMock.episodes self + ((s + n + 1) / 3 - (s + 1) / 3))%Z /\
  TFEnvironmentMock.resets self' = TFEnvironmentMock.resets self /\
  (n = 3%Z ->
   TFEnvironmentMock.steps self' = (TFEnvironmentMock.steps self + 2)%Z /\
   TFEnvironmentMock.episodes self' = (TFEnvironmentMock.episodes self + 1)%Z).
Proof.
  intros s dt n _ Hs Hn Hst Hstn He Hen self'.
  destruct (@TFEnvironmentMock_run_steps_counters actions self
              Hs Hn Hst Hstn He Hen) as [Hsteps Hepis].
  destruct (@TFEnvironmentMock_run_steps_state actions self Hs Hn)
    as (_ & _ & _ & _ & Hres & _).
  fold self' in Hsteps, Hepis, Hres. fold s n in Hsteps, Hepis.
  split; [exact Hsteps|]. split; [exact Hepis|]. split; [exact Hres|].
  intros H3. rewrite Hsteps, Hepis, H3.
  split; Z.div_mod_to_equations; lia.
Qed.

(** X23. [reset] adds 1 to [resets], puts the state back to the initial
    state and leaves [steps] and [episodes] as they are. The time step it
    returns is the one of the initial state: it is [FIRST] exactly when the
    initial state is a multiple of 3. *)
Theorem TFEnvironmentMock_reset_spec (self : TFEnvironmentMock.state) :
  let self' := snd (TFEnvironmentMock.reset self) in
  (in_range int32 (TFEnvironmentMock.resets self + 1) ->
   TFEnvironmentMock.resets self' = (TFEnvironmentMock.resets self + 1)%Z) /\
  TFEnvironmentMock._state self' = TFEnvironmentMock._initial_state self /\
  TFEnvironmentMock._initial_state self' = TFEnvironmentMock._initial_state self /\
  TFEnvironmentMock.steps self' = TFEnvironmentMock.steps self /\
  TFEnvironmentMock.episodes self' = TFEnvironmentMock.episodes self /\
  exists time_step,
    fst (TFEnvironmentMock.reset self) = Some time_step /\
    cycle_time_step (TFEnvironmentMock._initial_state self) time_step /\
    (step_type time_step = FIRST <->
     (TFEnvironmentMock._initial_state self mod 3 = 0)%Z).
Proof.
  intros self'. unfold self', TFEnvironmentMock.reset. cbn [fst snd].
  cbn [TFEnvironmentMock._state TFEnvironmentMock._initial_state
       TFEnvironmentMock.resets TFEnvironmentMock.steps
       TFEnvironmentMock.episodes].
  split; [intros Hr; now rewrite (@wrap_in_range _ _ Hr)|].
  repeat (split; [reflexivity|]).
  match goal with
  | |- context [TFEnvironmentMock.current_time_step ?s] =>
      destruct (TFEnvironmentMock_current_time_step s) as (ts & Ets & Hcyc)
  end.
  cbn [TFEnvironmentMock._state] in Hcyc.
  exists ts. split; [exact Ets|]. split; [exact Hcyc|].
  destruct Hcyc as [Hobs Hcase]. rewrite <- Hobs.
  destruct Hcase as [(H0 & Hty & _)|[(H1 & Hty & _)|(H2 & Hty & _)]];
    rewrite Hty; split; intros H; try discriminate; try lia; reflexivity.
Qed.

(** ** Instances

    Each statement with hypotheses, applied to a concrete input. *)

Lemma compute_returns_is_fold_witness :
  length [1; 1; 1]%Q <= length [1 # 2; 1 # 2; 1 # 2; 7]%Q /\
  ppo_agent_test._compute_returns_fn 0%Q Qplus Qmult ppo_agent_test.store_int64
    [1; 1; 1]%Q [1 # 2; 1 # 2; 1 # 2; 7]%Q 0%Q = Ok [1; 1; 1]%Q.
Proof.
  split; [simpl; lia|].
  destruct (@compute_returns_is_fold Q 0%Q Qplus Qmult ppo_agent_test.store_int64
              [1; 1; 1]%Q [1 # 2; 1 # 2; 1 # 2; 7]%Q 0%Q ltac:(simpl; lia))
    as [H _].
  rewrite H. reflexivity.
Defined.

Lemma compute_returns_short_discounts_witness :
  length [1; 0]%Z < length [1; 1; 1]%Z /\
  ppo_agent_test._compute_returns_fn 0%Z Z.add Z.mul ppo_agent_test.store_exact
    [1; 1; 1]%Z [1; 0]%Z 5%Z = Raise IndexError.
Proof.
  split; [simpl; lia|].
  apply (@compute_returns_short_discounts Z 0%Z Z.add Z.mul
           ppo_agent_test.store_exact [1; 1; 1]%Z [1; 0]%Z 5%Z).
  simpl. lia.
Defined.

Lemma compute_returns_episode_boundary_witness :
  ppo_agent_test._compute_returns_fn 0%Z Z.add Z.mul ppo_agent_test.store_exact
    [3]%Z [1]%Z 5%Z = Ok [8]%Z /\
  (2 + 0 * hd 5 [8] = 2 + 0 * 9)%Z /\
  ppo_agent_test._compute_returns_fn 0%Z Z.add Z.mul ppo_agent_test.store_exact
    ([1] ++ 2 :: [3])%Z ([1] ++ 0 :: [1])%Z 5%Z = Ok [3; 2; 8]%Z.
Proof.
  split; [reflexivity|]. split; [reflexivity|].
  destruct (@compute_returns_episode_boundary Z 0%Z Z.add Z.mul
              ppo_agent_test.store_exact [1]%Z [1]%Z 2%Z 0%Z [3]%Z [1]%Z 5%Z 9%Z
              eq_refl eq_refl) as [H _].
  rewrite (H [8]%Z eq_refl eq_refl). reflexivity.
Defined.

Lemma RunStats_docstring_summary_witness :
  (forall s, step_type (fst (py_environment.reset one_step_env s)) = FIRST) /\
  RunStats.episodes
    (snd (play (RunStats.as_env one_step_env) [Reset; Step tt; Reset; Step tt]
            (RunStats.__init__ tt))) = 2%Z /\
  RunStats.resets
    (snd (play (RunStats.as_env one_step_env) [Reset; Step tt; Reset; Step tt]
            (RunStats.__init__ tt))) = 2%Z.
Proof.
  split; [intros s; reflexivity|].
  pose proof (@RunStats_docstring_summary _ _ _ _ _ _ _ one_step_env tt
                [Reset; Step tt; Reset; Step tt] (fun s => eq_refl)) as H.
  cbv zeta in H. destruct H as [He Hr].
  rewrite He, Hr. split; reflexivity.
Defined.

Lemma TimeLimit_counter_below_duration_witness :
  (1 <= 3)%Z /\
  TimeLimit._duration
    (snd (play (TimeLimit_env counting_env) [Reset; Step tt; Step tt]
            (TimeLimit.__init__ 0%nat 3%Z))) = 3%Z /\
  match TimeLimit._step
          (snd (play (TimeLimit_env counting_env) [Reset; Step tt; Step tt]
                  (TimeLimit.__init__ 0%nat 3%Z))) with
  | None => True
  | Some n => (0 <= n < 3)%Z
  end.
Proof.
  split; [lia|].
  apply (@TimeLimit_counter_below_duration _ _ _ _ _ _ _ counting_env 0%nat 3%Z
           [Reset; Step tt; Step tt]).
  lia.
Defined.

Lemma TimeLimit_transparent_below_limit_witness :
  (Z.of_nat (length [tt; tt]) < TimeLimit._duration (TimeLimit.__init__ 0%nat 3%Z))%Z /\
  fst (play (TimeLimit_env counting_env) (map Step [tt; tt])
         (snd (TimeLimit.reset counting_env (TimeLimit.__init__ 0%nat 3%Z)))) =
  fst (play counting_env (map Step [tt; tt])
         (snd (py_environment.reset counting_env 0%nat))).
Proof.
  split; [simpl; lia|].
  pose proof (@TimeLimit_transparent_below_limit _ _ _ _ _ _ _ counting_env
                (TimeLimit.__init__ 0%nat 3%Z) [tt; tt] ltac:(simpl; lia)) as H.
  cbv zeta in H. apply H.
  simpl. repeat constructor.
Defined.

Lemma RunStats_counts_time_limited_episodes_witness :
  (1 <= TimeLimit._duration
          (RunStats._env (RunStats.__init__ (TimeLimit.__init__ 0%nat 2%Z))))%Z /\
  (1 <= RunStats.episodes
          (snd (play (RunStats.as_env (TimeLimit_env counting_env))
                  (Reset :: map Step [tt; tt])
                  (RunStats.__init__ (TimeLimit.__init__ 0%nat 2%Z)))))%Z.
Proof.
  split; [simpl; lia|].
  pose proof (@RunStats_counts_time_limited_episodes _ _ _ _ _ _ _ counting_env
                (RunStats.__init__ (TimeLimit.__init__ 0%nat 2%Z)) [tt; tt]) as H.
  cbv zeta in H. apply H; [simpl; lia | reflexivity].
Defined.


Lemma scalar_fits_pair {V : Type} (v : V) : fits [2] (scalar v).
Proof. right. split; reflexivity. Defined.







Lemma ActionClip_step_idempotent_witness :
  has_shape [2] (mkArray [2] [Number 2; NaN]) /\
  exists out,
    ActionClipWrapper._clip_to_spec (array_spec.Bounded float_interval_spec)
      (mkArray [2] [Number 2; NaN]) = Ok out /\
    ActionClipWrapper._clip_to_spec (array_spec.Bounded float_interval_spec) out =
      Ok out /\
    ActionClipWrapper.step clipping_env (leaf out) (ActionClipWrapper.__init__ tt) =
      ActionClipWrapper.step clipping_env (leaf (mkArray [2] [Number 2; NaN]))
        (ActionClipWrapper.__init__ tt).
Proof.
  split; [split; reflexivity|].
  destruct (@ActionClip_step_idempotent _ _ _ _ _ clipping_env
              (ActionClipWrapper.__init__ tt) float_interval_spec
              (mkArray [2] [Number 2; NaN]) eq_refl
              (conj eq_refl eq_refl))
    as (out & E1 & E2 & _ & E3).
  - intros lo E. injection E as <-. apply scalar_fits_pair.
  - intros hi E. injection E as <-. apply scalar_fits_pair.
  - exists out. split; [exact E1|]. split; [exact E2 | exact E3].
Defined.

Lemma ActionClip_infinite_and_nan_witness :
  fits [2] (scalar (Number (-1))) /\ fits [2] (scalar (Number 1)) /\
  has_shape [2] (mkArray [2] [PosInf; NaN]) /\
  exists out,
    ActionClipWrapper.step clipping_env (leaf (mkArray [2] [PosInf; NaN]))
      (ActionClipWrapper.__init__ tt) =
      Ok (mkTimeStep MID 1%Z 1%Z tt, ActionClipWrapper.__init__ tt) /\
    nth_error (arr_data out) 0 = Some (Number 1) /\
    nth_error (arr_data out) 1 = Some NaN.
Proof.
  split; [apply scalar_fits_pair|]. split; [apply scalar_fits_pair|].
  split; [split; reflexivity|].
  destruct (@ActionClip_infinite_and_nan _ _ _ _ _ clipping_env
              (ActionClipWrapper.__init__ tt) float_interval_spec
              (scalar (Number (-1))) (scalar (Number 1))
              (mkArray [2] [PosInf; NaN])
              eq_refl eq_refl eq_refl (scalar_fits_pair _) (scalar_fits_pair _))
    as (out & Estep & _ & Hat).
  - intros i l h _ Hl Hh. simpl in Hl, Hh.
    injection Hl as <-. injection Hh as <-. reflexivity.
  - split; reflexivity.
  - exists out. split; [exact Estep|]. split.
    + destruct (Hat 0 PosInf (Number (-1)) (Number 1) eq_refl eq_refl eq_refl)
        as (y & Hy & Hpos & _).
      rewrite Hy. f_equal. now apply Hpos.
    + destruct (Hat 1 NaN (Number (-1)) (Number 1) eq_refl eq_refl eq_refl)
        as (y & Hy & _ & _ & Hnan & _).
      rewrite Hy. f_equal. now apply Hnan.
Defined.

Lemma signed_bounds_ordered :
  ordered_bounds Z.le [2] (scalar (-1)%Z) (scalar 1%Z).
Proof.
  split; [apply scalar_fits_pair|]. split; [apply scalar_fits_pair|].
  intros i l h _ Hl Hh. simpl in Hl, Hh.
  injection Hl as <-. injection Hh as <-. lia.
Defined.

Lemma ActionOffset_reaches_every_action_witness :
  ordered_bounds Z.le [2] (scalar (-1)%Z) (scalar 1%Z) /\
  within Z.le [2] (scalar (-1)%Z) (scalar 1%Z) (mkArray [2] [-1; 1]%Z) /\
  exists action,
    ActionOffsetWrapper.np_subtract int32 (mkArray [2] [-1; 1]%Z)
      (scalar (-1)%Z) = Ok action /\
    ActionOffsetWrapper.step discrete_env action
      {| ActionOffsetWrapper._env := tt |} =
      Ok (fst (py_environment.step discrete_env (mkArray [2] [-1; 1]%Z) tt),
          {| ActionOffsetWrapper._env :=
               snd (py_environment.step discrete_env
                      (mkArray [2] [-1; 1]%Z) tt) |}).
Proof.
  assert (Hx : within Z.le [2] (scalar (-1)%Z) (scalar 1%Z)
                 (mkArray [2] [-1; 1]%Z)).
  { split; [split; reflexivity|].
    intros [|[|[|i]]] a l h Ha Hl Hh; simpl in Ha, Hl, Hh; try discriminate;
      injection Ha as <-; injection Hl as <-; injection Hh as <-; lia. }
  split; [exact signed_bounds_ordered|]. split; [exact Hx|].
  destruct (@ActionOffset_reaches_every_action _ _ _ _ _ discrete_env tt
              signed_spec (scalar (-1)%Z) (scalar 1%Z)
              eq_refl eq_refl eq_refl signed_bounds_ordered)
    as (offset_maximum & _ & Hreach).
  - intros i l Hl. simpl in Hl. injection Hl as <-. unfold in_range. simpl. lia.
  - intros i h Hh. simpl in Hh. injection Hh as <-. unfold in_range. simpl. lia.
  - intros i l h _ Hl Hh. simpl in Hl, Hh.
    injection Hl as <-. injection Hh as <-. unfold in_range. simpl. lia.
  - destruct (Hreach _ Hx) as (action & Eact & _ & Estep).
    exists action. split; [exact Eact | exact Estep].
Defined.

Lemma ActionOffset_overflow_raises_witness :
  ordered_bounds Z.le [1] (scalar (-128)%Z) (scalar 127%Z) /\
  ~ in_range int8 (127 - -128) /\
  exists offset_maximum,
    ActionOffsetWrapper.__init__
      (@acting_env (ndarray Z) _ (leaf (array_spec.Bounded full_int8_spec)))
      tt = Ok {| ActionOffsetWrapper._env := tt |} /\
    ActionOffsetWrapper.np_subtract int8 (scalar 127%Z) (scalar (-128)%Z) =
      Ok offset_maximum /\
    item offset_maximum 0 = Some (-1)%Z /\
    ActionOffsetWrapper.action_spec
      (@acting_env (ndarray Z) _ (leaf (array_spec.Bounded full_int8_spec)))
      {| ActionOffsetWrapper._env := tt |} = Raise ValueError.
Proof.
  assert (Hfits : forall v : Z, fits [1] (scalar v)).
  { intros v. right. split; reflexivity. }
  assert (Hord : ordered_bounds Z.le [1] (scalar (-128)%Z) (scalar 127%Z)).
  { split; [apply Hfits|]. split; [apply Hfits|].
    intros i l h _ Hl Hh. simpl in Hl, Hh.
    injection Hl as <-. injection Hh as <-. lia. }
  assert (Hout : ~ in_range int8 (127 - -128)).
  { unfold in_range. simpl. lia. }
  split; [exact Hord|]. split; [exact Hout|].
  destruct (@ActionOffset_overflow_raises _ _ _ _ _
              (@acting_env (ndarray Z) _
                 (leaf (array_spec.Bounded full_int8_spec)))
              tt full_int8_spec (scalar (-128)%Z) (scalar 127%Z)
              0 (-128)%Z 127%Z eq_refl eq_refl eq_refl Hord)
    as (offset_maximum & m & Einit & Esub & Hm & _ & Eraise).
  - intros i l Hl. simpl in Hl. injection Hl as <-. unfold in_range. simpl. lia.
  - intros i h Hh. simpl in Hh. injection Hh as <-. unfold in_range. simpl. lia.
  - simpl. lia.
  - reflexivity.
  - reflexivity.
  - exact Hout.
  - exists offset_maximum. split; [exact Einit|]. split; [exact Esub|].
    split; [|exact Eraise].
    cbv in Esub. injection Esub as <-. reflexivity.
Defined.

Lemma FlattenObservations_order_independent_witness :
  Permutation
    [("target"%string, leaf (mkArray [2] [5; 6]%Z));
     ("position"%string, leaf (mkArray [1] [1]%Z))]
    [("position"%string, leaf (mkArray [1] [1]%Z));
     ("target"%string, leaf (mkArray [2] [5; 6]%Z))] /\
  NoDup ["target"%string; "position"%string] /\
  FlattenObservationsWrapper._pack_and_filter_timestep_observation
    (fun _ : unit => false)
    {| FlattenObservationsWrapper._env := tt;
       FlattenObservationsWrapper._observation_spec_dtype := int32;
       FlattenObservationsWrapper._observations_whitelist :=
         Some ["target"%string; "position"%string; "target"%string];
       FlattenObservationsWrapper._flattened_observation_spec :=
         array_spec.mkArraySpec [3] int32 (Some "packed_observations"%string) |}
    tt
    (mkTimeStep MID 1%Z 1%Z
       (ndict [("position"%string, leaf (mkArray [1] [1]%Z));
               ("target"%string, leaf (mkArray [2] [5; 6]%Z))])) =
  Ok (mkTimeStep MID 1%Z 1%Z (mkArray [3] [1; 5; 6]%Z)).
Proof.
  assert (Hnd : NoDup ["target"%string; "position"%string]).
  { constructor; [|constructor; [|constructor]].
    - simpl. intros [H|[]]. discriminate.
    - simpl. tauto. }
  split; [apply perm_swap|]. split; [exact Hnd|].
  assert (Hw : forall k : string,
             In k ["position"%string; "target"%string] <->
             In k ["target"%string; "position"%string; "target"%string]).
  { intros k. simpl. tauto. }
  pose proof (@FlattenObservations_order_independent unit Z Z
                (fun _ : unit => false)
                {| FlattenObservationsWrapper._env := tt;
                   FlattenObservationsWrapper._observation_spec_dtype := int32;
                   FlattenObservationsWrapper._observations_whitelist :=
                     Some ["position"%string; "target"%string];
                   FlattenObservationsWrapper._flattened_observation_spec :=
                     array_spec.mkArraySpec [3] int32
                       (Some "packed_observations"%string) |}
                {| FlattenObservationsWrapper._env := tt;
                   FlattenObservationsWrapper._observation_spec_dtype := int32;
                   FlattenObservationsWrapper._observations_whitelist :=
                     Some ["target"%string; "position"%string; "target"%string];
                   FlattenObservationsWrapper._flattened_observation_spec :=
                     array_spec.mkArraySpec [3] int32
                       (Some "packed_observations"%string) |}
                tt
                (mkTimeStep MID 1%Z 1%Z
                   (ndict [("target"%string, leaf (mkArray [2] [5; 6]%Z));
                           ("position"%string, leaf (mkArray [1] [1]%Z))]))
                (mkTimeStep MID 1%Z 1%Z
                   (ndict [("position"%string, leaf (mkArray [1] [1]%Z));
                           ("target"%string, leaf (mkArray [2] [5; 6]%Z))]))
                _ _ Hw eq_refl eq_refl (perm_swap _ _ _) Hnd
                eq_refl eq_refl eq_refl) as H.
  rewrite <- H. reflexivity.
Defined.

Lemma TFEnvironmentMock_steps_cycle_witness :
  int_range int64 <> None /\
  in_range int64 (0 + Z.of_nat (length [0; 0; 0; 0]%Z)) /\
  exists first second third fourth,
    fst (TFEnvironmentMock.run_steps [0; 0; 0; 0]%Z
           (TFEnvironmentMock.__init__ 0 int64)) =
      [Some first; Some second; Some third; Some fourth] /\
    cycle_time_step 1 first /\ cycle_time_step 2 second /\
    cycle_time_step 3 third /\ cycle_time_step 4 fourth.
Proof.
  assert (Hint : int_range int64 <> None) by discriminate.
  assert (Hr : forall z, (0 <= z <= 4)%Z -> in_range int64 z).
  { intros z Hz. unfold in_range. simpl. lia. }
  split; [exact Hint|]. split; [apply Hr; simpl; lia|].
  pose proof (@TFEnvironmentMock_steps_cycle
                (TFEnvironmentMock.__init__ 0 int64) [0; 0; 0; 0]%Z
                Hint (Hr 0%Z ltac:(lia)) (Hr 4%Z ltac:(lia))) as H.
  cbv zeta in H. destruct H as (_ & _ & Htrace).
  destruct (TFEnvironmentMock.run_steps [0; 0; 0; 0]%Z
              (TFEnvironmentMock.__init__ 0 int64)) as [trace self'] eqn:Erun.
  cbv in Erun. injection Erun as <- <-. cbn [fst] in *.
  destruct (Htrace 0 _ eq_refl) as (t0 & E0 & H0).
  destruct (Htrace 1 _ eq_refl) as (t1 & E1 & H1).
  destruct (Htrace 2 _ eq_refl) as (t2 & E2 & H2).
  destruct (Htrace 3 _ eq_refl) as (t3 & E3 & H3).
  exists t0, t1, t2, t3.
  rewrite <- E0, <- E1, <- E2, <- E3.
  split; [reflexivity|]. split; [exact H0|]. split; [exact H1|].
  split; [exact H2 | exact H3].
Defined.

Lemma TFEnvironmentMock_counters_witness :
  int_range int64 <> None /\
  in_range int32 (0 + Z.of_nat (length [0; 0; 0; 0; 0]%Z)) /\
  TFEnvironmentMock.steps
    (snd (TFEnvironmentMock.run_steps [0; 0; 0; 0; 0]%Z
            (TFEnvironmentMock.__init__ 0 int64))) = 4%Z /\
  TFEnvironmentMock.episodes
    (snd (TFEnvironmentMock.run_steps [0; 0; 0; 0; 0]%Z
            (TFEnvironmentMock.__init__ 0 int64))) = 2%Z.
Proof.
  assert (Hint : int_range int64 <> None) by discriminate.
  assert (Hr : forall dt z,
             dt = int32 \/ dt = int64 -> (0 <= z <= 5)%Z -> in_range dt z).
  { intros dt z [-> | ->] Hz; unfold in_range; simpl; lia. }
  split; [exact Hint|]. split; [apply Hr; [now left | simpl; lia]|].
  pose proof (@TFEnvironmentMock_counters
                (TFEnvironmentMock.__init__ 0 int64) [0; 0; 0; 0; 0]%Z Hint
                (Hr int64 0%Z (or_intror eq_refl) ltac:(lia))
                (Hr int64 5%Z (or_intror eq_refl) ltac:(lia))
                (Hr int32 0%Z (or_introl eq_refl) ltac:(lia))
                (Hr int32 5%Z (or_introl eq_refl) ltac:(lia))
                (Hr int32 0%Z (or_introl eq_refl) ltac:(lia))
                (Hr int32 5%Z (or_introl eq_refl) ltac:(lia))) as H.
  cbv zeta in H. destruct H as (Hsteps & Hepis & _).
  rewrite Hsteps, Hepis. split; reflexivity.
Defined.
